(** * AutoForcedSubtitleFlag: the forced-track classifier, the track-identity
      reconciler and the apply loop of [forced-sub_auto-flagging_mkv_Script.py]

    The script is embedded shallowly.  Python values are modelled as follows.

    - [str] is [string]: a sequence of code points below 256.  Whitespace,
      decimal digits and lower-casing are those of Python on that range.
    - What [json.loads] puts under a key of a track object of the reader is
      a [value]: null, a bool, an int, a float (NaN and the infinities
      included) or a string.  Arrays and objects under the keys the script
      reads are outside the model.
    - [int] is [Z]; [float] is [spec_float] at binary64 (53 bits, emax 1024),
      with the operations of [SpecFloat].  The quotient of two ints is the
      correctly rounded one, and raises OverflowError beyond the floats.
    - An exception is a value of [exn]; a computation that may raise returns
      [result A = exn + A].
    - The subtitle track dict built by [analyze_subtitle_tracks] is the
      record [Track]; a key that is absent is [None].  The fields filled from
      the reader hold values: the reader's, or the string defaults of the
      script ('unknown', 'No', '0').
    - [track_mapping] is a [gmap string string].
    - The calls of [logging] write to the log only and are left out: what
      they format is a value of the reader or a string of the dump, and
      [json.loads] gives no int too long to print. *)

From Stdlib Require Import ZArith String Ascii List Bool Lia.
From Stdlib Require Import Floats.SpecFloat.
From stdpp Require Import base option list gmap strings pretty.

Local Open Scope string_scope.
Local Open Scope Z_scope.

(** ** Exceptions *)

Inductive exn : Type :=
  | ValueError
  | KeyError
  | IndexError
  | OverflowError
  | ZeroDivisionError
  | TypeError
  | OSError.

Definition result (A : Type) : Type := (exn + A)%type.

Definition Raise {A : Type} (e : exn) : result A := inl e.
Definition Return {A : Type} (a : A) : result A := inr a.

#[global] Instance result_ret : MRet result := fun A a => inr a.
#[global] Instance result_bind : MBind result := fun A B f m =>
  match m with
  | inl e => inl e
  | inr a => f a
  end.

(** ** Strings *)

Module Str.

(** [str.isspace] on code points below 256. *)
Definition is_space (c : ascii) : bool :=
  let n := N_of_ascii c in
  ((9 <=? n) && (n <=? 13) || (28 <=? n) && (n <=? 32)
   || (n =? 133) || (n =? 160))%N.

Definition is_digit (c : ascii) : bool :=
  let n := N_of_ascii c in ((48 <=? n) && (n <=? 57))%N.

Definition digit_value (c : ascii) : Z := Z.of_N (N_of_ascii c) - 48.

(** [str.lower] on one code point below 256: A-Z, and the Latin-1 capitals
    192-222 other than the multiplication sign 215. *)
Definition lower_char (c : ascii) : ascii :=
  let n := N_of_ascii c in
  if ((65 <=? n) && (n <=? 90)
      || (192 <=? n) && (n <=? 222) && negb (n =? 215))%N
  then ascii_of_N (n + 32) else c.

Fixpoint lower (s : string) : string :=
  match s with
  | EmptyString => EmptyString
  | String c r => String (lower_char c) (lower r)
  end.

(** Dropping the leading, then the trailing, characters that [sp] accepts. *)
Fixpoint lstrip_with (sp : ascii -> bool) (s : string) : string :=
  match s with
  | EmptyString => EmptyString
  | String c r => if sp c then lstrip_with sp r else s
  end.

Fixpoint rstrip_with (sp : ascii -> bool) (s : string) : string :=
  match s with
  | EmptyString => EmptyString
  | String c r =>
      match rstrip_with sp r with
      | EmptyString => if sp c then EmptyString else String c EmptyString
      | r' => String c r'
      end
  end.

(** [s.strip()] *)
Definition strip (s : string) : string :=
  rstrip_with is_space (lstrip_with is_space s).

(** [sub in s] *)
Fixpoint contains (sub s : string) : bool :=
  if String.prefix sub s then true
  else match s with
       | EmptyString => false
       | String _ r => contains sub r
       end.

(** [s.split(sep)] for a separator of one character: never empty. *)
Fixpoint split (sep : ascii) (s : string) : list string :=
  match s with
  | EmptyString => [EmptyString]
  | String c r =>
      if Ascii.eqb c sep then EmptyString :: split sep r
      else match split sep r with
           | [] => [String c EmptyString]
           | p :: ps => String c p :: ps
           end
  end.

(** [l[i]] *)
Definition index {A : Type} (l : list A) (i : nat) : result A :=
  match l !! i with
  | Some x => Return x
  | None => Raise IndexError
  end.

(** [bool(s)] *)
Definition truthy (s : string) : bool :=
  match s with
  | EmptyString => false
  | _ => true
  end.

End Str.

(** ** Values *)

(** A JSON scalar as [json.loads] gives it: [None], a [bool], an [int], a
    [float] (the literals Infinity and NaN included) or a [str]. *)
Inductive value : Type :=
  | VNone
  | VBool (b : bool)
  | VInt (n : Z)
  | VFloat (f : spec_float)
  | VStr (s : string).

Coercion VStr : string >-> value.

#[global] Instance spec_float_eq_dec : EqDecision spec_float.
Proof. solve_decision. Defined.

#[global] Instance value_eq_dec : EqDecision value.
Proof. solve_decision. Defined.

(** ** Numbers *)

Module Num.

Definition prec : Z := 53.
Definition emax : Z := 1024.

Abbreviation float := spec_float.

(** The digits of an integer literal: decimal digits, single underscores
    allowed between two digits.  The value and the number of digits. *)
Fixpoint digits_value (acc count : Z) (after_digit : bool) (s : string)
    : option (Z * Z) :=
  match s with
  | EmptyString => if after_digit then Some (acc, count) else None
  | String c r =>
      if Str.is_digit c then
        digits_value (10 * acc + Str.digit_value c) (count + 1) true r
      else if Ascii.eqb c "_" then
        if after_digit then digits_value acc count false r else None
      else None
  end.

(** The default of [sys.get_int_max_str_digits()]: since Python 3.11 a
    numeral of more digits is refused with ValueError. *)
Definition max_str_digits : Z := 4300.

(** The whitespace [int] skips: that of [strip] without the four separator
    controls 28-31, which [int] does not accept. *)
Definition is_int_space (c : ascii) : bool :=
  let n := N_of_ascii c in
  ((9 <=? n) && (n <=? 13) || (n =? 32) || (n =? 133) || (n =? 160))%N.

(** [int(s)] for a string [s]: surrounding whitespace is dropped, one sign
    is allowed, anything else raises ValueError. *)
Definition int (s : string) : result Z :=
  let s := Str.rstrip_with is_int_space (Str.lstrip_with is_int_space s) in
  let '(neg, body) :=
    match s with
    | String "-" r => (true, r)
    | String "+" r => (false, r)
    | _ => (false, s)
    end in
  match digits_value 0 0 false body with
  | Some (n, count) =>
      if count <=? max_str_digits then Return (if neg then - n else n)
      else Raise ValueError
  | None => Raise ValueError
  end.

(** [int(x)] for a float [x]: the integer part; ValueError for NaN,
    OverflowError for an infinity. *)
Definition int_float (f : float) : result Z :=
  match f with
  | S754_zero _ => Return 0
  | S754_finite s m e =>
      let t := if 0 <=? e then Zpos m * 2 ^ e else Zpos m / 2 ^ (- e) in
      Return (if s then - t else t)
  | S754_infinity _ => Raise OverflowError
  | S754_nan => Raise ValueError
  end.

(** [int(v)] for a value [v]: TypeError for [None]. *)
Definition int_value (v : value) : result Z :=
  match v with
  | VNone => Raise TypeError
  | VBool b => Return (if b then 1 else 0)
  | VInt n => Return n
  | VFloat f => int_float f
  | VStr s => int s
  end.

(** [str(n)], also inside an f-string: an int of more than 4300 digits is
    refused with ValueError. *)
Definition str (n : Z) : result string :=
  if 10 ^ max_str_digits <=? Z.abs n then Raise ValueError
  else Return (pretty n).

(** [a / b] on two ints: the correctly rounded quotient; OverflowError when
    it rounds beyond the largest float, ZeroDivisionError for [b = 0]. *)
Definition truediv (a b : Z) : result float :=
  if b =? 0 then Raise ZeroDivisionError
  else
    let sign := xorb (a <? 0) (b <? 0) in
    if a =? 0 then Return (S754_zero sign)
    else
      let '(q, e, l) := SFdiv_core_binary prec emax (Z.abs a) 0 (Z.abs b) 0 in
      match binary_round_aux prec emax sign q e l with
      | S754_infinity _ => Raise OverflowError
      | f => Return f
      end.

(** [float(n)] for the two literals the script uses. *)
Definition hundred : float := Eval cbv in binary_normalize prec emax 100 0 false.
Definition twenty : float := Eval cbv in binary_normalize prec emax 20 0 false.

Definition fmul (x y : float) : float := SFmul prec emax x y.

(** What [percentage] can hold: the int 100 or a float. *)
Inductive number : Type :=
  | Int (n : Z)
  | Float (f : float).

(** [p < 20] *)
Definition lt_20 (p : number) : bool :=
  match p with
  | Int n => n <? 20
  | Float f => SFltb f twenty
  end.

(** [x == n] for a float [x] and an int [n]: the two are compared exactly. *)
Definition float_eq_int (f : float) (n : Z) : bool :=
  match f with
  | S754_zero _ => n =? 0
  | S754_finite s m e =>
      let z := if s then Zneg m else Zpos m in
      if 0 <=? e then z * 2 ^ e =? n else z =? n * 2 ^ (- e)
  | _ => false
  end.

(** [a == b] on two values.  A bool counts as the int 0 or 1; numbers are
    equal when their values are; NaN equals nothing. *)
Definition eq (a b : value) : bool :=
  let as_int v :=
    match v with
    | VBool b => Some (if b then 1 else 0)
    | VInt n => Some n
    | _ => None
    end in
  match a, b with
  | VNone, VNone => true
  | VStr s, VStr t => String.eqb s t
  | VFloat f, VFloat g => SFeqb f g
  | VFloat f, _ => from_option (float_eq_int f) false (as_int b)
  | _, VFloat g => from_option (float_eq_int g) false (as_int a)
  | _, _ =>
      match as_int a, as_int b with
      | Some m, Some n => m =? n
      | _, _ => false
      end
  end.

(** [max(xs)] over a non-lazy view of the generator's values. *)
Definition max (xs : list Z) : result Z :=
  match xs with
  | [] => Raise ValueError
  | x :: r => Return (fold_left Z.max r x)
  end.

End Num.

(** ** Computations over one mutable object

    [StateExn S A] is a computation that reads and writes an object of type
    [S] and either returns an [A] or raises.  What was written before a raise
    stays written. *)

Definition StateExn (S A : Type) : Type := S -> result A * S.

#[global] Instance StateExn_ret {S} : MRet (StateExn S) :=
  fun A a s => (inr a, s).
#[global] Instance StateExn_bind {S} : MBind (StateExn S) := fun A B f m s =>
  match m s with
  | (inl e, s') => (inl e, s')
  | (inr a, s') => f a s'
  end.

Definition lift {S A} (r : result A) : StateExn S A := fun s => (r, s).
Definition get {S} : StateExn S S := fun s => (inr s, s).
Definition modify {S} (f : S -> S) : StateExn S unit := fun s => (inr tt, f s).

(** [try: body except (h): return dflt], for the exceptions [h] catches. *)
Definition try_except {S A} (catches : exn -> bool) (body : StateExn S A)
    (dflt : A) : StateExn S A := fun s =>
  match body s with
  | (inl e, s') => if catches e then (inr dflt, s') else (inl e, s')
  | r => r
  end.

(** ** Track records *)

Record Track : Type := mkTrack {
  tr_id : option value;                (* 'id' *)
  tr_format : option value;            (* 'format' *)
  tr_language : option value;          (* 'language' *)
  tr_forced : option value;            (* 'forced' *)
  tr_default : option value;           (* 'default' *)
  tr_element_count : option value;     (* 'element_count' *)
  tr_percentage : option Num.number;   (* 'percentage' *)
  tr_should_be_forced : option bool;   (* 'should_be_forced' *)
  tr_modified : option bool            (* 'modified' *)
}.

(** [track['percentage'] = p] *)
Definition set_percentage (p : Num.number) (t : Track) : Track :=
  mkTrack (tr_id t) (tr_format t) (tr_language t) (tr_forced t) (tr_default t)
          (tr_element_count t) (Some p) (tr_should_be_forced t) (tr_modified t).

(** [track['should_be_forced'] = b] *)
Definition set_should_be_forced (b : bool) (t : Track) : Track :=
  mkTrack (tr_id t) (tr_format t) (tr_language t) (tr_forced t) (tr_default t)
          (tr_element_count t) (tr_percentage t) (Some b) (tr_modified t).

(** [track['modified'] = b] *)
Definition set_modified (b : bool) (t : Track) : Track :=
  mkTrack (tr_id t) (tr_format t) (tr_language t) (tr_forced t) (tr_default t)
          (tr_element_count t) (tr_percentage t) (tr_should_be_forced t) (Some b).

(** [d[key]]: KeyError when the key is absent. *)
Definition getitem {A} (field : option A) : result A :=
  match field with
  | Some v => Return v
  | None => Raise KeyError
  end.

(** ** The classifier (lines 40-63) *)

(** [[t for t in all_tracks if t['language'] == language]] *)
Fixpoint same_language_tracks (language : value) (all_tracks : list Track)
    : result (list Track) :=
  match all_tracks with
  | [] => Return []
  | t :: r =>
      l ← getitem (tr_language t);
      rest ← same_language_tracks language r;
      Return (if Num.eq l language then t :: rest else rest)
  end.

(** [t['language'] == language], for a record that has a language. *)
Definition speaks (language : value) (t : Track) : bool :=
  match tr_language t with
  | Some l => Num.eq l language
  | None => false
  end.

(** [int(t['element_count'])] *)
Definition element_count_of (t : Track) : result Z :=
  getitem (tr_element_count t) ≫= Num.int_value.

(** The values the generator [int(t['element_count']) for t in ...] yields,
    up to the first one that raises. *)
Fixpoint element_counts (ts : list Track) : result (list Z) :=
  match ts with
  | [] => Return []
  | t :: r =>
      n ← element_count_of t;
      ns ← element_counts r;
      Return (n :: ns)
  end.

(** [(element_count / max_elements) * 100 if max_elements > 0 else 100] *)
Definition percentage_of (element_count max_elements : Z) : result Num.number :=
  if 0 <? max_elements then
    q ← Num.truediv element_count max_elements;
    Return (Num.Float (Num.fmul q Num.hundred))
  else Return (Num.Int 100).

(** The except clause [except (ValueError, KeyError)]. *)
Definition caught (e : exn) : bool :=
  match e with
  | ValueError | KeyError => true
  | _ => false
  end.

(** The body of the [try].  The state is the dict [track]. *)
Definition should_be_forced_body (all_tracks : list Track) : StateExn Track bool :=
  track ← get;
  element_count ← lift (element_count_of track);
  language ← lift (getitem (tr_language track));
  same ← lift (same_language_tracks language all_tracks);
  max_elements ← lift (element_counts same ≫= Num.max);
  percentage ← lift (percentage_of element_count max_elements);
  _ ← modify (set_percentage percentage);
  mret ((element_count <? 400) || Num.lt_20 percentage).

(** [should_be_forced(track, all_tracks)]: the result (a bool, or the
    exception that escapes) and [track] as the call leaves it. *)
Definition should_be_forced (track : Track) (all_tracks : list Track)
    : result bool * Track :=
  try_except caught (should_be_forced_body all_tracks) false track.

(** ** The reconciler (lines 93-128) *)

(** The dict [current_track]: [{}] has neither key. *)
Record CurrentTrack : Type := mkCurrent {
  number : option string;        (* 'number' *)
  mkvmerge_id : option string    (* 'mkvmerge_id' *)
}.

Definition empty_track : CurrentTrack := mkCurrent None None.

(** The loop state: [track_mapping] and [current_track] ([None] or a dict). *)
Abbreviation ParseState := (gmap string string * option CurrentTrack)%type.

Definition newline : ascii := ascii_of_N 10.

(** Lines 110-112: the two indices of a track-number line.  Every failure is
    an IndexError of one of the subscripts. *)
Definition extract_ids (line : string) : result (string * string) :=
  let parts := Str.split "(" line in
  p0 ← Str.index parts 0;
  n ← Str.index (Str.split ":" p0) 1;
  let track_num := Str.strip n in
  p1 ← Str.index parts 1;
  a ← Str.index (Str.split ":" p1) 1;
  b ← Str.index (Str.split ")" a) 0;
  let mkvmerge_id := Str.strip b in
  Return (track_num, mkvmerge_id).

(** One iteration of the loop over the lines (lines 99-125). *)
Definition parse_line (st : ParseState) (raw : string) : result ParseState :=
  let '(track_mapping, current_track) := st in
  let line := Str.strip raw in
  if Str.contains "| + Track" line then
    Return (track_mapping, Some empty_track)
  else
    match current_track with
    | None => Return st
    | Some cur =>
        if Str.contains "Track number:" line then
          match extract_ids line with
          | inr (track_num, id) =>
              Return (track_mapping, Some (mkCurrent (Some track_num) (Some id)))
          | inl _ => Return st
          end
        else if Str.contains "Track type:" line
                && Str.contains "subtitles" (Str.lower line) then
          match number cur with
          | Some n =>
              id ← getitem (mkvmerge_id cur);
              Return (<[n := id]> track_mapping, None)
          | None => Return (track_mapping, None)
          end
        else if Str.contains "Track type:" line then
          Return (track_mapping, None)
        else Return st
    end.

Fixpoint parse_lines (st : ParseState) (lines : list string) : result ParseState :=
  match lines with
  | [] => Return st
  | l :: r => st' ← parse_line st l; parse_lines st' r
  end.

(** [parse_mkvinfo_output(mkvinfo_output)] *)
Definition parse_mkvinfo_output (mkvinfo_output : string)
    : result (gmap string string) :=
  st ← parse_lines (∅, None) (Str.split newline mkvinfo_output);
  Return (fst st).

(** ** External tools

    [subprocess.run] is the only way the script touches the files.  The state
    of an [IO] computation is the list of the commands run so far, oldest
    first; what a command answers may depend on all of them. *)

Record Completed : Type := mkCompleted {
  returncode : Z;
  stdout : string;
  stderr : string
}.

Definition Command : Type := list string.

Record Tools : Type := mkTools {
  (** [subprocess.run(cmd, capture_output=True, text=True)] after the
      commands of the history. *)
  subprocess_run : list Command -> Command -> result Completed;
  (** [json.loads(out)['media']['track']], a list of track objects;
      whichever of the three steps raises first gives the exception. *)
  json_tracks : string -> result (list (gmap string value));
  (** [os.path.join] *)
  path_join : string -> string -> string
}.

Definition IO (A : Type) : Type := StateExn (list Command) A.

Definition run (tools : Tools) (cmd : Command) : IO Completed :=
  fun history => (subprocess_run tools history cmd, (history ++ [cmd])%list).

(** ** The editor call (lines 130-146) *)

(** The command of line 135 for an already corrected track number; the two
    f-strings print an int each, the first of which can be too long to
    print. *)
Definition mkvpropedit_cmd (file_path : string) (corrected_track_id : Z)
    (forced : bool) : result Command :=
  address ← Num.str corrected_track_id;
  flag ← Num.str (if forced then 1 else 0);
  Return ["mkvpropedit"; file_path; "--edit";
          String.append "track:" address;
          "--set";
          String.append "flag-forced=" flag].

(** [except Exception] *)
Definition caught_all (e : exn) : bool := true.

Definition set_forced_flag (tools : Tools) (file_path track_id : string)
    (forced : bool) : IO bool :=
  try_except caught_all
    (n ← lift (Num.int track_id);
     let corrected_track_id := n + 1 in
     cmd ← lift (mkvpropedit_cmd file_path corrected_track_id forced);
     result ← run tools cmd;
     mret (returncode result =? 0))
    false.

(** ** Reading the subtitle tracks (lines 65-91) *)

(** [d.get(key, dflt)] *)
Definition dict_get (d : gmap string value) (key : string) (dflt : value)
    : value :=
  default dflt (d !! key).

(** Lines 71-83: the record of one reader track of type 'Text'. *)
Definition subtitle_track (track : gmap string value) : Track :=
  let c1 := dict_get track "Count_of_elements" "0" in
  let c2 := if Num.eq c1 "0" then dict_get track "Count of elements" "0" else c1 in
  let c3 := if Num.eq c2 "0" then dict_get track "ElementCount" "0" else c2 in
  mkTrack (Some (dict_get track "ID" "unknown"))
          (Some (dict_get track "Format" "unknown"))
          (Some (dict_get track "Language" "unknown"))
          (Some (dict_get track "Forced" "No"))
          (Some (dict_get track "Default" "No"))
          (Some c3) None None None.

(** The first loop (lines 69-85). *)
Fixpoint collect_subtitles (tracks : list (gmap string value))
    : result (list Track) :=
  match tracks with
  | [] => Return []
  | track :: r =>
      ty ← getitem (track !! "@type");
      rest ← collect_subtitles r;
      Return (if Num.eq ty "Text" then subtitle_track track :: rest else rest)
  end.

(** The second loop (lines 88-89), by position: [should_be_forced] writes to
    the very dict that sits in [subtitle_info], so the list is updated in
    place and later calls see the earlier tracks as they were left. *)
Fixpoint classify_all (positions : list nat) (subtitle_info : list Track)
    : result (list Track) :=
  match positions with
  | [] => Return subtitle_info
  | i :: r =>
      match subtitle_info !! i with
      | None => Return subtitle_info
      | Some track =>
          let '(res, track') := should_be_forced track subtitle_info in
          b ← res;
          classify_all r (<[i := set_should_be_forced b track']> subtitle_info)
      end
  end.

Definition analyze_subtitle_tracks (tracks : list (gmap string value))
    : result (list Track) :=
  subtitle_info ← collect_subtitles tracks;
  classify_all (seq 0 (length subtitle_info)) subtitle_info.

(** ** Applying the changes (lines 227-245) *)

(** [track_mapping.get(key)]: the keys of the mapping are strings, and only
    a string equals a string. *)
Definition mapping_get (track_mapping : gmap string string) (key : value)
    : option string :=
  match key with
  | VStr s => track_mapping !! s
  | _ => None
  end.

(** One iteration of the loop of line 228: the track as it is left. *)
Definition apply_change (tools : Tools) (full_path : string)
    (track_mapping : gmap string string) (track : Track) : IO Track :=
  id ← lift (getitem (tr_id track));
  match mapping_get track_mapping id with
  | Some mkvmerge_id =>
      if Str.truthy mkvmerge_id then
        success ← set_forced_flag tools full_path mkvmerge_id true;
        mret (set_modified success track)
      else mret (set_modified false track)
  | None => mret (set_modified false track)
  end.

Fixpoint apply_changes (tools : Tools) (full_path : string)
    (track_mapping : gmap string string) (tracks_to_force : list Track)
    : IO (list Track) :=
  match tracks_to_force with
  | [] => mret []
  | track :: r =>
      track' ← apply_change tools full_path track_mapping track;
      r' ← apply_changes tools full_path track_mapping r;
      mret (track' :: r')
  end.

(** Lines 205-218: the tracks whose 'should_be_forced' is true. *)
Fixpoint select_tracks (subtitle_tracks : list Track) : result (list Track) :=
  match subtitle_tracks with
  | [] => Return []
  | track :: r =>
      b ← getitem (tr_should_be_forced track);
      rest ← select_tracks r;
      Return (if b : bool then track :: rest else rest)
  end.

(** ** One file (lines 164-262) *)

Inductive FileOutcome : Type :=
  | Errored (e : exn)                    (* the except clause of line 261 *)
  | ToolFailed                           (* a reader or dumper exit status *)
  | NoSubtitles                          (* line 259 *)
  | Done (tracks_to_force : list Track). (* the final track status *)

Definition process_file_body (tools : Tools) (full_path : string)
    : IO FileOutcome :=
  mediainfo_result ← run tools ["mediainfo"; "--Full"; "--Output=JSON"; full_path];
  mkvinfo_result ← run tools ["mkvinfo"; full_path];
  if (returncode mediainfo_result =? 0) && (returncode mkvinfo_result =? 0) then
    mediainfo_data ← lift (json_tracks tools (stdout mediainfo_result));
    track_mapping ← lift (parse_mkvinfo_output (stdout mkvinfo_result));
    subtitle_tracks ← lift (analyze_subtitle_tracks mediainfo_data);
    match subtitle_tracks with
    | [] => mret NoSubtitles
    | _ =>
        tracks_to_force ← lift (select_tracks subtitle_tracks);
        final ← apply_changes tools full_path track_mapping tracks_to_force;
        mret (Done final)
    end
  else mret ToolFailed.

Definition process_file (tools : Tools) (full_path : string) : IO FileOutcome :=
  fun history =>
    match process_file_body tools full_path history with
    | (inl e, history') => (inr (Errored e), history')
    | r => r
    end.

(** The loop of line 163 over the files of the folder. *)
Fixpoint process_files (tools : Tools) (folder_path : string)
    (mkv_files : list string) : IO (list FileOutcome) :=
  match mkv_files with
  | [] => mret []
  | mkv_file :: r =>
      o ← process_file tools (path_join tools folder_path mkv_file);
      os ← process_files tools folder_path r;
      mret (o :: os)
  end.

(** ** The classifier in the words of the specification *)

(** The element count of [t] parses as the integer [n]. *)
Definition parses (t : Track) (n : Z) : Prop :=
  exists v, tr_element_count t = Some v /\ Num.int_value v = inr n.

(** The element count of [t] is absent or not numeric: [int] refuses it
    with ValueError. *)
Definition unusable (t : Track) : Prop :=
  tr_element_count t = None
  \/ exists v, tr_element_count t = Some v /\ Num.int_value v = inl ValueError.

(** [m] is the largest of [ns]. *)
Definition is_maximum (m : Z) (ns : list Z) : Prop :=
  In m ns /\ forall n, In n ns -> n <= m.

(** "percentage = 100.0 if max_elements == 0, else
    (track.element_count / max_elements) * 100" *)
Definition percentage_spec (element_count max_elements : Z) : result Num.number :=
  if max_elements =? 0 then Return (Num.Float Num.hundred)
  else
    q ← Num.truediv element_count max_elements;
    Return (Num.Float (Num.fmul q Num.hundred)).

(** The quotient of the two counts is a float (no OverflowError) whenever the
    script divides. *)
Definition divides_safely (element_count max_elements : Z) : Prop :=
  0 < max_elements -> exists q, Num.truediv element_count max_elements = inr q.

(** What line 71 gives every record: an 'id' and a 'language'. *)
Definition has_keys (t : Track) : Prop :=
  is_Some (tr_id t) /\ is_Some (tr_language t).

(** A track as the pipeline builds it, for the examples. *)
Definition sample_track (id language element_count : string) : Track :=
  mkTrack (Some (VStr id)) (Some (VStr "UTF-8")) (Some (VStr language))
          (Some (VStr "No")) (Some (VStr "No"))
          (Some (VStr element_count)) None None None.

(** A track whose element count the reader reports as null. *)
Definition null_count_track (id language : string) : Track :=
  mkTrack (Some (VStr id)) (Some (VStr "UTF-8")) (Some (VStr language))
          (Some (VStr "No")) (Some (VStr "No")) (Some VNone) None None None.

(** The decimal numeral -1000...0 with [n] zeros. *)
Definition minus_power_of_ten (n : nat) : string :=
  String.append "-1" (string_of_list_ascii (repeat "0"%char n)).

(** ** The reconciler in the words of the specification *)

(** What a line of the dump is, by the markers the loop tests in order. *)
Inductive LineKind : Type :=
  | NewTrack                                    (* "new track entry begins" *)
  | TrackNumber (ids : option (string * string))(* the two indices, if extracted *)
  | TypeSubtitles                               (* type "subtitles" *)
  | TypeOther                                   (* any other type *)
  | Ignored.

Definition classify (raw : string) : LineKind :=
  let line := Str.strip raw in
  if Str.contains "| + Track" line then NewTrack
  else if Str.contains "Track number:" line then
    TrackNumber (match extract_ids line with
                 | inr ids => Some ids
                 | inl _ => None
                 end)
  else if Str.contains "Track type:" line then
    if Str.contains "subtitles" (Str.lower line) then TypeSubtitles else TypeOther
  else Ignored.

(** The lines of a dump, classified. *)
Definition events (dump : string) : list LineKind :=
  map classify (Str.split newline dump).

(** The in-progress record of section 4.2: none, one without indices, or one
    with both. *)
Abbreviation InProgress := (option (option (string * string))).

(** One line of the state machine of section 4.2. *)
Definition reconcile_step (st : gmap string string * InProgress) (k : LineKind)
    : gmap string string * InProgress :=
  let '(mapping, record) := st in
  match k with
  | NewTrack => (mapping, Some None)
  | TrackNumber (Some ids) =>
      match record with
      | Some _ => (mapping, Some (Some ids))
      | None => st
      end
  | TrackNumber None => st
  | TypeSubtitles =>
      match record with
      | Some (Some (reader_index, editor_index)) =>
          (<[reader_index := editor_index]> mapping, None)
      | _ => (mapping, None)
      end
  | TypeOther => (mapping, None)
  | Ignored => st
  end.

Definition reconcile (evs : list LineKind) : gmap string string :=
  fst (fold_left reconcile_step evs (∅, None)).

(** A line that leaves an in-progress record open. *)
Definition keeps_open (k : LineKind) : Prop :=
  match k with
  | TrackNumber _ | Ignored => True
  | _ => False
  end.

(** A line that leaves an in-progress record open and its indices alone. *)
Definition keeps_indices (k : LineKind) : Prop :=
  match k with
  | TrackNumber None | Ignored => True
  | _ => False
  end.

(** [evs] holds a track entry that ends in a commit of [reader -> editor]:
    a new-track line, later a track-number line with these two indices, later
    a subtitles type line, with no new-track or type line in between and no
    other extracted track-number line after the one named. *)
Definition has_commit (evs : list LineKind) (reader editor : string) : Prop :=
  exists pre mid1 mid2 post,
    evs = (pre ++ NewTrack :: mid1 ++ TrackNumber (Some (reader, editor))
               :: mid2 ++ TypeSubtitles :: post)%list
    /\ Forall keeps_open mid1 /\ Forall keeps_indices mid2.

(** The dict [current_track] as an in-progress record. *)
Definition in_progress (current_track : option CurrentTrack) : InProgress :=
  match current_track with
  | None => None
  | Some cur =>
      Some (match number cur, mkvmerge_id cur with
            | Some n, Some i => Some (n, i)
            | _, _ => None
            end)
  end.

(** [current_track] has both keys or neither. *)
Definition well_formed (current_track : option CurrentTrack) : Prop :=
  match current_track with
  | None => True
  | Some cur => is_Some (number cur) <-> is_Some (mkvmerge_id cur)
  end.

(** ["\n".join(lines)] *)
Definition join_lines (lines : list string) : string :=
  match lines with
  | [] => EmptyString
  | l :: r => fold_left (fun acc x => String.append acc (String newline x)) r l
  end.

(** A dump of two entries: a subtitle track with reader index 3 and editor
    index 2, and a video track. *)
Definition sample_dump : string :=
  join_lines
    ["|+ Tracks";
     "| + Track";
     "|  + Track number: 3 (track ID for mkvmerge & mkvextract: 2)";
     "|  + Track type: subtitles";
     "| + Track";
     "|  + Track number: 1 (track ID for mkvmerge & mkvextract: 0)";
     "|  + Track type: video"].

(** A subtitle entry whose track-number line lacks its closing parenthesis. *)
Definition unclosed_dump : string :=
  join_lines
    ["| + Track";
     "|  + Track number: 3 (track ID for mkvmerge & mkvextract: 2";
     "|  + Track type: subtitles"].

(** A subtitle entry whose track-number line lacks its opening parenthesis,
    followed by a well-formed one. *)
Definition unopened_dump : string :=
  join_lines
    ["| + Track";
     "|  + Track number: 3 track ID for mkvmerge & mkvextract: 2)";
     "|  + Track type: subtitles";
     "| + Track";
     "|  + Track number: 4 (track ID for mkvmerge & mkvextract: 3)";
     "|  + Track type: subtitles"].

(** Two subtitle entries with the same reader index. *)
Definition duplicate_dump : string :=
  join_lines
    ["| + Track";
     "|  + Track number: 3 (track ID for mkvmerge & mkvextract: 2)";
     "|  + Track type: subtitles";
     "| + Track";
     "|  + Track number: 3 (track ID for mkvmerge & mkvextract: 7)";
     "|  + Track type: subtitles"].

(** Tools for the examples: every command exits with status 0 and prints
    nothing, the reader reports no track. *)
Definition quiet_tools : Tools :=
  mkTools (fun _ _ => Return (mkCompleted 0 EmptyString EmptyString))
          (fun _ => Return [])
          (fun folder file => String.append folder (String.append "/" file)).

(** The editor was run for [track]: what [subprocess.run] answered to the
    command, as the boolean [set_forced_flag] returns. *)
Definition editor_succeeded (tools : Tools) (history : list Command)
    (cmd : Command) : bool :=
  match subprocess_run tools history cmd with
  | inr completed => returncode completed =? 0
  | inl _ => false
  end.


(** ** Bounds on floats *)

(** [y] is [x] after [k] steps of [shr_1]: the mantissa is divided by
    [2 ^ k], and nothing is flagged as lost when nothing was. *)
Definition shifted (k : Z) (x y : shr_record) : Prop :=
  0 <= shr_m x ->
  0 <= shr_m y
  /\ shr_m y = shr_m x / 2 ^ k
  /\ (shr_r x = false -> shr_s x = false -> shr_m x mod 2 ^ k = 0 ->
      shr_r y = false /\ shr_s y = false).

(** [f] is a float from 0 to [M * 2 ^ E]. *)
Definition upper_bounded (M E : Z) (f : Num.float) : Prop :=
  f = S754_zero false
  \/ exists m e, f = S754_finite false m e /\ e <= E /\ Zpos m <= M * 2 ^ (E - e).

(** The exact value of the float [f] lies between the integers [lo] and
    [hi]; infinities and NaN lie nowhere. *)
Definition float_in_range (lo hi : Z) (f : Num.float) : Prop :=
  match f with
  | S754_zero _ => lo <= 0 <= hi
  | S754_finite s m e =>
      let z := if s then Zneg m else Zpos m in
      if 0 <=? e then lo <= z * 2 ^ e <= hi
      else lo * 2 ^ (- e) <= z <= hi * 2 ^ (- e)
  | _ => False
  end.

Definition number_in_range (lo hi : Z) (p : Num.number) : Prop :=
  match p with
  | Num.Int n => lo <= n <= hi
  | Num.Float f => float_in_range lo hi f
  end.


(** The reader's report of a file with an audio track and three English
    subtitle tracks of 50, 60 and 70 elements. *)
Definition sample_reader_tracks : list (gmap string value) :=
  [ {[ "@type" := VStr "Audio"; "ID" := VStr "2" ]};
    {[ "@type" := VStr "Text"; "ID" := VStr "3"; "Format" := VStr "UTF-8"; "Language" := VStr "en";
       "Count_of_elements" := VStr "50" ]};
    {[ "@type" := VStr "Text"; "ID" := VStr "4"; "Format" := VStr "UTF-8"; "Language" := VStr "en";
       "ElementCount" := VStr "60" ]};
    {[ "@type" := VStr "Text"; "ID" := VStr "5"; "Format" := VStr "UTF-8"; "Language" := VStr "en";
       "Count of elements" := VStr "70" ]} ].

(** The three tracks as [analyze_subtitle_tracks] leaves them. *)
Definition sample_selected : list Track :=
  Eval vm_compute in
    match analyze_subtitle_tracks sample_reader_tracks with
    | inr ts => ts
    | inl _ => []
    end.




(** * Further definitions

    Groups, command traces and float bounds for the properties of the
    classifier, the reconciler and the driver proved below. *)

(** The fields of a record that classification reads. *)
Definition same_reading (t t' : Track) : Prop :=
  tr_language t = tr_language t' /\ tr_element_count t = tr_element_count t'.

(** Lines 51-52: the largest count of the language group, or the first
    exception of the two comprehensions. *)
Definition group_max (language : value) (all_tracks : list Track) : result Z :=
  same ← same_language_tracks language all_tracks;
  ns ← element_counts same;
  Num.max ns.

(** The element count of [t] stops no classification with an exception that
    escapes: it is absent, or [int] accepts it or refuses it with
    ValueError. *)
Definition quiet (t : Track) : Prop :=
  forall x, element_count_of t = inl x -> caught x = true.

(** Every record of [ts] reads as some record of [ts']. *)
Definition covered_by (ts ts' : list Track) : Prop :=
  forall t, t ∈ ts -> exists t', t' ∈ ts' /\ same_reading t t'.

(** [[f(x) for x in xs]] for an [f] that may raise: the first exception
    wins. *)
Fixpoint map_result {A B} (f : A -> result B) (xs : list A) : result (list B) :=
  match xs with
  | [] => Return []
  | x :: r => y ← f x; ys ← map_result f r; Return (y :: ys)
  end.

(** Line 89 for one track, against a list that is not written to. *)
Definition classify_one (subtitle_info : list Track) (track : Track)
    : result Track :=
  let '(res, track') := should_be_forced track subtitle_info in
  b ← res;
  Return (set_should_be_forced b track').

(** The reader tracks of type 'Text'. *)
Definition text_tracks (tracks : list (gmap string value))
    : list (gmap string value) :=
  filter (fun track => track !! "@type" = Some (VStr "Text")) tracks.

(** [c in s] for one character. *)
Fixpoint has_char (c : ascii) (s : string) : bool :=
  match s with
  | EmptyString => false
  | String a r => Ascii.eqb a c || has_char c r
  end.

(** [s] is made of whitespace only. *)
Fixpoint all_space (s : string) : bool :=
  match s with
  | EmptyString => true
  | String c r => Str.is_space c && all_space r
  end.

(** The line the comment of line 108 gives as the example, for the two
    indices [a] and [b]. *)
Definition track_number_line (a b : string) : string :=
  String.append "|  + Track number: "
    (String.append a
       (String.append " (track ID for mkvmerge & mkvextract: "
          (String.append b ")"))).

(** What [extract_ids] leaves of a track-number line: a piece of the line
    between the punctuation it is split on, without surrounding whitespace. *)
Definition clean_number (s : string) : Prop :=
  Str.strip s = s /\ has_char "(" s = false /\ has_char ":" s = false
  /\ has_char newline s = false.

Definition clean_id (s : string) : Prop :=
  clean_number s /\ has_char ")" s = false.

Definition clean_current (cur : option CurrentTrack) : Prop :=
  forall c, cur = Some c ->
    (forall n, number c = Some n -> clean_number n) /\
    (forall i, mkvmerge_id c = Some i -> clean_id i).

Definition clean_mapping (m : gmap string string) : Prop :=
  forall k v, m !! k = Some v -> clean_number k /\ clean_id v.

(** ** The commands the script runs *)

(** The reader call of line 169 and the dumper call of line 173. *)
Definition mediainfo_cmd (full_path : string) : Command :=
  ["mediainfo"; "--Full"; "--Output=JSON"; full_path].

Definition mkvinfo_cmd (full_path : string) : Command :=
  ["mkvinfo"; full_path].

(** An editor call that sets the forced flag of a track of [full_path]. *)
Definition sets_forced_flag (full_path : string) (cmd : Command) : Prop :=
  exists n, mkvpropedit_cmd full_path n true = inr cmd.

(** One of the three calls the script makes for [full_path]. *)
Definition command_on (full_path : string) (cmd : Command) : Prop :=
  cmd = mediainfo_cmd full_path \/ cmd = mkvinfo_cmd full_path
  \/ sets_forced_flag full_path cmd.

(** The editor call of the iteration of line 228 for [track], if it makes
    one: the track's id is mapped to a non-empty index that is an integer
    whose successor can be printed. *)
Definition editor_command (full_path : string)
    (track_mapping : gmap string string) (track : Track) : option Command :=
  id ← tr_id track;
  mkvmerge_id ← mapping_get track_mapping id;
  if Str.truthy mkvmerge_id then
    match Num.int mkvmerge_id ≫= fun n => mkvpropedit_cmd full_path (n + 1) true with
    | inr cmd => Some cmd
    | inl _ => None
    end
  else None.

(** The tracks the loop of line 205 appends to [tracks_to_force]. *)
Definition forced_tracks (subtitle_tracks : list Track) : list Track :=
  filter (fun t => tr_should_be_forced t = Some true) subtitle_tracks.

(** The longest index whose successor cannot be printed: 4300 nines. *)
Definition longest_index : string :=
  string_of_list_ascii (repeat "9"%char 4300).

(** Tools for the examples: every command exits with status 0 and prints the
    sample dump, the reader reports the three sample subtitle tracks. *)
Definition sample_tools : Tools :=
  mkTools (fun _ _ => Return (mkCompleted 0 sample_dump EmptyString))
          (fun _ => Return sample_reader_tracks)
          (fun folder file => String.append folder (String.append "/" file)).

(** ** The driver (lines 148-262) *)

(** [s.endswith(suffix)] *)
Fixpoint endswith (s suffix : string) : bool :=
  String.eqb s suffix
  || match s with
     | EmptyString => false
     | String _ r => endswith r suffix
     end.

(** The test of line 155. *)
Definition is_mkv (f : string) : bool := endswith (Str.lower f) ".mkv".

(** What the driver asks of the file system before it runs a command. *)
Record FileSystem : Type := mkFileSystem {
  (** [os.path.exists] *)
  path_exists : string -> bool;
  (** [setup_logging] (lines 28-38): opens the log file, whose name it
      returns. *)
  setup_logging : string -> result string;
  (** [os.listdir] *)
  listdir : string -> result (list string)
}.

(** [analyze_and_fix_mkv_files(folder_path)] *)
Definition analyze_and_fix_mkv_files (fs : FileSystem) (tools : Tools)
    (folder_path : string) : IO unit :=
  if negb (path_exists fs folder_path) then lift (Raise ValueError)
  else
    log_file ← lift (setup_logging fs folder_path);
    names ← lift (listdir fs folder_path);
    let mkv_files := List.filter is_mkv names in
    match mkv_files with
    | [] => mret tt
    | _ => _ ← process_files tools folder_path mkv_files; mret tt
    end.

(** A folder for the examples. *)
Definition sample_fs : FileSystem :=
  mkFileSystem (fun _ => true) (fun _ => Return "m/mkv_analysis.log")
    (fun _ => Return ["notes.txt"; "A.MKV"; "b.mkv.bak"; "mkv"]).

(** ** Lower bounds on floats *)

(** The value [m * 2 ^ e] is at least [M * 2 ^ E]. *)
Definition at_least (M E m e : Z) : Prop :=
  (e <= E -> M * 2 ^ (E - e) <= m) /\ (E < e -> M <= m * 2 ^ (e - E)).

(** [f] is a positive float of at least [M * 2 ^ E], with a mantissa of at
    most 53 bits, or plus infinity. *)
Definition lower_bounded (M E : Z) (f : Num.float) : Prop :=
  f = S754_infinity false
  \/ exists m e, f = S754_finite false m e /\ Zpos m < 2 ^ 53
                 /\ at_least M E (Zpos m) e.

(** * Properties *)

Local Open Scope list_scope.

(** ** Helper lemmas on the classifier *)

Lemma element_count_of_parses t n : element_count_of t = inr n <-> parses t n.
Proof.
  unfold element_count_of, parses, getitem. split.
  - destruct (tr_element_count t) as [s|] eqn:E; cbn; [eauto | discriminate].
  - intros (s & -> & H). exact H.
Qed.

Lemma int_raises s e : Num.int s = inl e -> e = ValueError.
Proof.
  unfold Num.int.
  destruct (Str.rstrip_with _ (Str.lstrip_with _ s)) as [|[] ?] eqn:E; cbn;
    repeat match goal with
    | |- context [match ?x with _ => _ end] => destruct x
    end; cbn; unfold Raise, Return; congruence.
Qed.

Lemma int_value_raises v e :
  Num.int_value v = inl e ->
  e = ValueError \/ e = TypeError \/ e = OverflowError.
Proof.
  destruct v as [|b|n|f|s]; cbn [Num.int_value]; unfold Raise, Return.
  - intros [= <-]. auto.
  - discriminate.
  - discriminate.
  - destruct f; cbn; unfold Raise, Return; intros [= <-]; auto.
  - intros H. left. by apply int_raises in H.
Qed.

(** [a == s] for a string [s] holds for [s] alone. *)
Lemma eq_str v s : Num.eq v (VStr s) = true <-> v = VStr s.
Proof.
  destruct v as [|b|n|f|s']; cbn; rewrite ?String.eqb_eq;
    try destruct b; try destruct f; cbn; split;
    try discriminate; congruence.
Qed.

Lemma element_count_of_unusable t :
  unusable t <-> exists e, element_count_of t = inl e /\ caught e = true.
Proof.
  unfold unusable, element_count_of, getitem. split.
  - intros [-> | (v & -> & H)]; cbn.
    + by exists KeyError.
    + exists ValueError. by rewrite H.
  - intros (e & He & Hc).
    destruct (tr_element_count t) as [v|]; cbn in *; [|by left].
    right. exists v. split; [done|]. rewrite He.
    by destruct (int_value_raises _ _ He) as [-> | [-> | ->]].
Qed.

(** An element count that is absent, parses or is refused with ValueError
    raises nothing that escapes. *)
Lemma quiet_cases t : quiet t <-> unusable t \/ exists n, parses t n.
Proof.
  unfold quiet. split.
  - intros H. destruct (element_count_of t) as [x|n] eqn:E.
    + left. apply element_count_of_unusable. eauto.
    + right. exists n. by apply element_count_of_parses.
  - intros [Hu | [n Hn]] x Hx.
    + apply element_count_of_unusable in Hu as (e & He & Hc). congruence.
    + apply element_count_of_parses in Hn. congruence.
Qed.

Lemma same_language_tracks_filter (lang : string) all :
  Forall (fun t => is_Some (tr_language t)) all ->
  same_language_tracks lang all
  = inr (filter (fun t => tr_language t = Some (VStr lang)) all).
Proof.
  induction 1 as [|t r [l Hl] _ IH]; [done|].
  rewrite filter_cons. cbn [same_language_tracks]. rewrite Hl, IH; cbn.
  destruct (Num.eq l lang) eqn:E.
  - apply eq_str in E as ->. by rewrite decide_True.
  - rewrite decide_False; [done|]. intros [= ->].
    by rewrite (proj2 (eq_str lang lang) eq_refl) in E.
Qed.

Lemma same_language_tracks_raises lang all e :
  same_language_tracks lang all = inl e ->
  e = KeyError /\ Exists (fun t => tr_language t = None) all.
Proof.
  induction all as [|t r IH]; cbn; [discriminate|].
  destruct (tr_language t) as [l|] eqn:Hl; cbn.
  - destruct (same_language_tracks lang r) as [e'|rest]; cbn; [|discriminate].
    intros [= <-]. destruct (IH eq_refl) as [-> H]. auto.
  - unfold Raise. intros [= <-]. auto.
Qed.

Lemma same_language_tracks_missing lang all :
  Exists (fun t => tr_language t = None) all ->
  same_language_tracks lang all = inl KeyError.
Proof.
  induction 1 as [t r Hn | t r _ IH]; cbn.
  - by rewrite Hn.
  - destruct (tr_language t); cbn; [by rewrite IH | done].
Qed.

Lemma element_counts_Forall2 ts ns :
  element_counts ts = inr ns <-> Forall2 (fun t n => element_count_of t = inr n) ts ns.
Proof.
  revert ns. induction ts as [|t r IH]; intros ns; cbn [element_counts].
  - split; [intros [= <-]; constructor | by inversion 1].
  - destruct (element_count_of t) as [e|n] eqn:Hn; cbn [mbind result_bind].
    + split; [discriminate | inversion 1; congruence].
    + destruct (element_counts r) as [e|ns'] eqn:Hr; cbn [mbind result_bind].
      * split; [discriminate|]. inversion 1; subst.
        match goal with H : Forall2 _ r _ |- _ => by apply IH in H end.
      * split.
        -- intros [= <-]. constructor; [done | by apply IH].
        -- inversion 1; subst.
           match goal with H : Forall2 _ r _ |- _ => apply IH in H end.
           unfold Return. congruence.
Qed.

(** The generator stops at the first count that [int] refuses. *)
Lemma element_counts_first pre t post e :
  Forall (fun t => exists n, element_count_of t = inr n) pre ->
  element_count_of t = inl e ->
  element_counts (pre ++ t :: post) = inl e.
Proof.
  intros Hpre He. induction Hpre as [|t0 pre [n Hn] _ IH]; cbn [app element_counts].
  - by rewrite He.
  - by rewrite Hn, IH.
Qed.

Lemma element_counts_raises ts e :
  element_counts ts = inl e <->
  exists pre t post,
    ts = pre ++ t :: post
    /\ Forall (fun t => exists n, element_count_of t = inr n) pre
    /\ element_count_of t = inl e.
Proof.
  split.
  - revert e. induction ts as [|t r IH]; intros e; cbn [element_counts]; [discriminate|].
    destruct (element_count_of t) as [e'|n] eqn:Hn; cbn [mbind result_bind].
    + intros [= <-]. exists [], t, r. by repeat split.
    + destruct (element_counts r) as [e'|ns] eqn:Hr; cbn [mbind result_bind];
        [|discriminate].
      intros [= <-]. destruct (IH e' eq_refl) as (pre & t1 & post & -> & Hpre & He).
      exists (t :: pre), t1, post. repeat split; [|done].
      constructor; [eauto | done].
  - intros (pre & t & post & -> & Hpre & He). by apply element_counts_first.
Qed.

Lemma fold_max_spec r x :
  is_maximum (fold_left Z.max r x) (x :: r).
Proof.
  revert x. induction r as [|y r IH]; intros x; cbn.
  - split; [by left | intros n [<- | []]; lia].
  - destruct (IH (Z.max x y)) as [Hin Hle]. split.
    + destruct Hin as [<- | Hin]; [|by right; right].
      destruct (Z.max_spec x y) as [[_ ->] | [_ ->]]; cbn; auto.
    + intros n [<- | [<- | Hn]].
      * specialize (Hle (Z.max x y) (or_introl eq_refl)). lia.
      * specialize (Hle (Z.max x y) (or_introl eq_refl)). lia.
      * apply Hle. by right.
Qed.

Lemma is_maximum_unique m m' ns : is_maximum m ns -> is_maximum m' ns -> m = m'.
Proof. intros [H1 H2] [H3 H4]. apply H2 in H3. apply H4 in H1. lia. Qed.

Lemma max_is_maximum ns m : is_maximum m ns -> Num.max ns = inr m.
Proof.
  destruct ns as [|x r]; [by intros [[] _]|].
  intros H. cbn. unfold Return. f_equal.
  eapply is_maximum_unique; [apply fold_max_spec | done].
Qed.

Lemma max_raises ns e : Num.max ns = inl e -> e = ValueError /\ ns = [].
Proof. destruct ns; cbn; unfold Raise, Return; [by intros [= <-] | discriminate]. Qed.

(** Every run of the body in which the division is reached. *)
Lemma should_be_forced_reaches track all lang e ns m :
  Forall (fun t => is_Some (tr_language t)) all ->
  tr_language track = Some (VStr lang) ->
  element_count_of track = inr e ->
  Forall2 (fun t n => element_count_of t = inr n)
          (filter (fun t => tr_language t = Some (VStr lang)) all) ns ->
  is_maximum m ns ->
  should_be_forced track all
  = match percentage_of e m with
    | inl x => (if caught x then inr false else inl x, track)
    | inr p => (inr ((e <? 400) || Num.lt_20 p), set_percentage p track)
    end.
Proof.
  intros Hall Hlang He Hns Hm.
  unfold should_be_forced, try_except, should_be_forced_body.
  unfold mbind, StateExn_bind, get, lift, modify, mret, StateExn_ret.
  rewrite He, Hlang; cbn.
  rewrite (same_language_tracks_filter _ _ Hall).
  apply element_counts_Forall2 in Hns. rewrite Hns; cbn.
  rewrite (max_is_maximum _ _ Hm).
  destruct (percentage_of e m) as [x|p]; [by destruct (caught x) | done].
Qed.

(** The language group is the sublist of the records that speak the
    language. *)
Lemma speaks_str (lang : string) t :
  speaks lang t = true <-> tr_language t = Some (VStr lang).
Proof.
  unfold speaks. destruct (tr_language t) as [l|]; [|done].
  rewrite eq_str. split; congruence.
Qed.

Lemma same_language_tracks_group l all :
  Forall (fun t => is_Some (tr_language t)) all ->
  same_language_tracks l all = inr (filter (fun t => speaks l t = true) all).
Proof.
  induction 1 as [|t r [l' Hl] _ IH]; [done|].
  rewrite filter_cons. cbn [same_language_tracks]. rewrite Hl, IH; cbn.
  assert (speaks l t = Num.eq l' l) as Hs by (unfold speaks; by rewrite Hl).
  destruct (Num.eq l' l);
    [rewrite decide_True by congruence | rewrite decide_False by congruence]; done.
Qed.

Lemma same_language_tracks_inv l all same :
  same_language_tracks l all = inr same ->
  Forall (fun t => is_Some (tr_language t)) all
  /\ same = filter (fun t => speaks l t = true) all.
Proof.
  intros H.
  assert (Forall (fun t => is_Some (tr_language t)) all) as Hall.
  { apply Forall_forall. intros t Ht.
    destruct (tr_language t) eqn:E; [eauto|]. exfalso.
    rewrite same_language_tracks_missing in H; [done|].
    apply Exists_exists. eauto. }
  split; [done|]. rewrite (same_language_tracks_group _ _ Hall) in H. congruence.
Qed.

(** Every run of the body that raises before the division. *)
Lemma should_be_forced_early track all :
  (exists e, element_count_of track = inl e /\ caught e = true)
  \/ (exists n, element_count_of track = inr n)
     /\ (tr_language track = None
         \/ Exists (fun t => tr_language t = None) all
         \/ (exists language, tr_language track = Some language /\
             let same := filter (fun t => speaks language t = true) all in
             same = []
             \/ exists pre t post e,
                  same = pre ++ t :: post
                  /\ Forall (fun t => exists n, element_count_of t = inr n) pre
                  /\ element_count_of t = inl e /\ caught e = true)) ->
  exists e, caught e = true /\ should_be_forced_body all track = (inl e, track).
Proof.
  intros H.
  unfold should_be_forced_body.
  unfold mbind, StateExn_bind, get, lift, modify, mret, StateExn_ret.
  destruct H as [(e & -> & Hc) | [[n ->] H]]; [eauto|].
  destruct (tr_language track) as [l|] eqn:Hlang; cbn; [|by exists KeyError].
  destruct (same_language_tracks l all) as [e|same] eqn:Hsame.
  { apply same_language_tracks_raises in Hsame as [-> _]. by exists KeyError. }
  destruct H as [H | [H | (language & [= ->] & H)]]; try discriminate.
  { by rewrite (same_language_tracks_missing _ _ H) in Hsame. }
  apply same_language_tracks_inv in Hsame as [_ ->]. cbn in H.
  destruct H as [H | (pre & t & post & e & H & Hpre & He & Hc)].
  - rewrite H. cbn. by exists ValueError.
  - rewrite H, (element_counts_first _ _ _ _ Hpre He). cbn. eauto.
Qed.

Lemma parses_functional t n n' : parses t n -> parses t n' -> n = n'.
Proof. intros (s & Hs & H) (s' & Hs' & H'). congruence. Qed.

Lemma Forall2_parses ts ns :
  Forall2 parses ts ns ->
  Forall2 (fun t n => element_count_of t = inr n) ts ns.
Proof.
  induction 1; constructor; [by apply element_count_of_parses | done].
Qed.

Lemma Forall2_parses_In ts ns t n :
  Forall2 parses ts ns -> In t ts -> parses t n -> In n ns.
Proof.
  induction 1 as [|t' n' ts ns Hp _ IH]; cbn; [done|].
  intros [-> | Hin] Ht.
  - left. eapply parses_functional; eauto.
  - right. auto.
Qed.

(** An exception of the body leaves the dict as it was. *)
Lemma should_be_forced_body_raise all track e :
  fst (should_be_forced_body all track) = inl e ->
  snd (should_be_forced_body all track) = track.
Proof.
  unfold should_be_forced_body.
  unfold mbind, StateExn_bind, get, lift, modify, mret, StateExn_ret.
  destruct (element_count_of track); [done|].
  destruct (getitem (tr_language track)); [done|].
  destruct (same_language_tracks _ all) as [|same]; [done|].
  destruct (element_counts same) as [|ns]; [done|]. cbn.
  destruct (Num.max ns); [done|].
  destruct (percentage_of _ _); [done|].
  discriminate.
Qed.

(** ** The classifier: claims C1, C4, C5 and C10 *)

(** C1 (as amended).  Let the track be one of the siblings, let every record
    of the list carry a language, that of the track being a string, let the
    element counts of the track and of its same-language siblings parse as
    integers, with [m] their maximum, and
    let the division of the track's count by [m] not overflow.  Then
    [should_be_forced] returns a bool that is true exactly when the count is
    below 400 or the percentage of the specification, 100.0 for [m = 0] and
    [(e / m) * 100] otherwise, is below 20. *)
Theorem C1_forced_iff_count_or_percentage track all lang e ns m :
  In track all ->
  Forall (fun t => is_Some (tr_language t)) all ->
  tr_language track = Some (VStr lang) ->
  parses track e ->
  Forall2 parses (filter (fun t => tr_language t = Some (VStr lang)) all) ns ->
  is_maximum m ns ->
  divides_safely e m ->
  exists b,
    fst (should_be_forced track all) = inr b /\
    (b = true <->
     e < 400 \/ exists p, percentage_spec e m = inr p /\ Num.lt_20 p = true).
Proof.
  intros Hin Hall Hlang He Hns Hm Hdiv.
  rewrite (should_be_forced_reaches track all lang e ns m); try done;
    [| by apply element_count_of_parses | by apply Forall2_parses ].
  assert (Hle : e <= m).
  { apply Hm. eapply Forall2_parses_In; [done | | done].
    apply list_elem_of_In, list_elem_of_filter.
    split; [done | by apply list_elem_of_In]. }
  unfold percentage_of, percentage_spec.
  destruct (Z.ltb_spec 0 m) as [Hpos | Hneg].
  - destruct (Hdiv Hpos) as [q Hq]. rewrite Hq; cbn.
    destruct (Z.eqb_spec m 0) as [-> | _]; [lia|]. cbn.
    eexists; split; [done|]. rewrite orb_true_iff, Z.ltb_lt.
    split.
    + intros [? | ?]; [by left | right; eauto].
    + intros [? | (p & [= <-] & ?)]; auto.
  - cbn. exists true. split.
    + f_equal. apply orb_true_iff. left. apply Z.ltb_lt. lia.
    + split; [intros _; left; lia | done].
Qed.

(** C4 (as amended).  When the count of the track is below 400 and the
    classification reaches its return statement (every record carries a
    language, every same-language sibling has a count that parses, there is
    such a sibling, the division does not overflow), [should_be_forced] returns
    true whatever the percentage is. *)
Theorem C4_below_400_forced track all lang e ns m :
  e < 400 ->
  Forall (fun t => is_Some (tr_language t)) all ->
  tr_language track = Some (VStr lang) ->
  parses track e ->
  Forall2 parses (filter (fun t => tr_language t = Some (VStr lang)) all) ns ->
  is_maximum m ns ->
  divides_safely e m ->
  fst (should_be_forced track all) = inr true.
Proof.
  intros He400 Hall Hlang He Hns Hm Hdiv.
  rewrite (should_be_forced_reaches track all lang e ns m); try done;
    [| by apply element_count_of_parses | by apply Forall2_parses ].
  unfold percentage_of.
  destruct (Z.ltb_spec 0 m) as [Hpos | Hneg]; cbn.
  - destruct (Hdiv Hpos) as [q ->]; cbn.
    f_equal. apply orb_true_iff. left. by apply Z.ltb_lt.
  - f_equal. apply orb_true_iff. left. by apply Z.ltb_lt.
Qed.

(** C5 (as amended).  When the element count of the track is absent or is
    refused by [int] with ValueError (a string that is no integer numeral or
    has more than 4300 digits, the float NaN); or when it parses and the
    track or one of the siblings has no language, or a sibling whose
    language equals that of the track has such a count while the counts of
    the same-language siblings before it parse: [should_be_forced] does not
    raise, it returns false (and leaves the track as it was). *)
Theorem C5_ambiguous_returns_false track all :
  unusable track
  \/ (exists e, parses track e)
     /\ (tr_language track = None
         \/ Exists (fun t => tr_language t = None) all
         \/ (exists language pre t post,
               tr_language track = Some language
               /\ filter (fun t => speaks language t = true) all
                  = pre ++ t :: post
               /\ Forall (fun t => exists n, parses t n) pre
               /\ unusable t)) ->
  should_be_forced track all = (inr false, track).
Proof.
  intros H.
  destruct (should_be_forced_early track all) as (e & Hc & Hbody).
  { destruct H as [H | [[e He] H]].
    - left. by apply element_count_of_unusable.
    - right. split; [exists e; by apply element_count_of_parses|].
      destruct H as [H | [H | (lang & pre & t & post & Hl & Hsame & Hpre & Hu)]];
        [auto | auto |].
      right; right. exists lang. split; [done|]. right.
      apply element_count_of_unusable in Hu as (x & Hx & Hcx).
      exists pre, t, post, x. split; [done|]. split; [|done].
      eapply Forall_impl; [exact Hpre|]. intros t0 [n Hn]. exists n.
      by apply element_count_of_parses. }
  unfold should_be_forced, try_except. by rewrite Hbody, Hc.
Qed.

(** C10.  Whenever the body of [should_be_forced] raises, the track is left
    exactly as it was passed in; so when the exception is one the except
    clause catches, the call returns false with the track unchanged, and in
    particular without a 'percentage' key it did not have. *)
Theorem C10_exception_path_keeps_track track all e :
  fst (should_be_forced_body all track) = inl e ->
  caught e = true ->
  should_be_forced track all = (inr false, track)
  /\ tr_percentage (snd (should_be_forced track all)) = tr_percentage track.
Proof.
  intros He Hc.
  assert (should_be_forced track all = (inr false, track)) as ->; [|done].
  pose proof (should_be_forced_body_raise _ _ _ He) as Hs.
  unfold should_be_forced, try_except.
  destruct (should_be_forced_body all track) as [r s]; cbn in *; subst.
  by rewrite Hc.
Qed.

Ltac solve_parses :=
  eexists; split; [reflexivity | vm_compute; reflexivity].

Ltac compute_filter :=
  match goal with
  | |- context [filter ?P ?l] =>
      let r := eval vm_compute in (filter P l) in
      change (filter P l) with r
  end.

Ltac solve_all_parse :=
  compute_filter; repeat (constructor; [solve_parses|]); constructor.

(** C1 at the second end-to-end scenario of the specification: language
    "de", counts 500 and 3000. *)
Lemma C1_forced_iff_count_or_percentage_witness :
  exists b,
    fst (should_be_forced (sample_track "1" "de" "500")
           [sample_track "1" "de" "500"; sample_track "2" "de" "3000"]) = inr b /\
    (b = true <->
     500 < 400 \/ exists p, percentage_spec 500 3000 = inr p /\ Num.lt_20 p = true).
Proof.
  apply (C1_forced_iff_count_or_percentage
           (sample_track "1" "de" "500")
           [sample_track "1" "de" "500"; sample_track "2" "de" "3000"]
           "de" 500 [500; 3000] 3000).
  - left. reflexivity.
  - repeat constructor; eexists; reflexivity.
  - reflexivity.
  - solve_parses.
  - solve_all_parse.
  - split; [right; left; reflexivity | intros n [<- | [<- | []]]; lia].
  - intros _. eexists. vm_compute. reflexivity.
Defined.

(** C1 as stated fails: a count that parses as a large negative integer makes
    the division raise OverflowError, which the except clause does not catch,
    although the count is below 400. *)
Lemma C1_counterexample_overflow :
  let track := sample_track "1" "en" (minus_power_of_ten 309) in
  let all := [track; sample_track "2" "en" "1"] in
  In track all
  /\ parses track (- 10 ^ 309)
  /\ Forall2 parses (filter (fun t => tr_language t = Some (VStr "en")) all) [- 10 ^ 309; 1]
  /\ is_maximum 1 [- 10 ^ 309; 1]
  /\ (- 10 ^ 309 <? 400) = true
  /\ fst (should_be_forced track all) = inl OverflowError.
Proof.
  cbv zeta. split; [|split; [|split; [|split; [|split]]]].
  - left. reflexivity.
  - solve_parses.
  - solve_all_parse.
  - split; [right; left; reflexivity|].
    intros n [<- | [<- | []]]; [|lia].
    apply Z.leb_le. vm_compute. reflexivity.
  - vm_compute. reflexivity.
  - vm_compute. reflexivity.
Qed.

(** C4 at the first end-to-end scenario: language "en", counts 50 and 1000. *)
Lemma C4_below_400_forced_witness :
  fst (should_be_forced (sample_track "1" "en" "50")
         [sample_track "1" "en" "50"; sample_track "2" "en" "1000"]) = inr true.
Proof.
  apply (C4_below_400_forced
           (sample_track "1" "en" "50")
           [sample_track "1" "en" "50"; sample_track "2" "en" "1000"]
           "en" 50 [50; 1000] 1000).
  - lia.
  - repeat constructor; eexists; reflexivity.
  - reflexivity.
  - solve_parses.
  - solve_all_parse.
  - split; [right; left; reflexivity | intros n [<- | [<- | []]]; lia].
  - intros _. eexists. vm_compute. reflexivity.
Defined.

(** C4 as stated fails: a track with 5 elements is not forced when a sibling
    of the same language has a count that is not a number. *)
Lemma C4_counterexample_sibling :
  let track := sample_track "1" "en" "5" in
  let all := [track; sample_track "2" "en" "abc"] in
  parses track 5 /\ 5 < 400 /\ should_be_forced track all = (inr false, track).
Proof.
  cbv zeta. split; [|split].
  - solve_parses.
  - lia.
  - vm_compute. reflexivity.
Qed.

(** C5 at a track whose count is the text "abc". *)
Lemma C5_ambiguous_returns_false_witness :
  should_be_forced (sample_track "1" "en" "abc") [sample_track "1" "en" "abc"]
  = (inr false, sample_track "1" "en" "abc").
Proof.
  apply (C5_ambiguous_returns_false (sample_track "1" "en" "abc")
           [sample_track "1" "en" "abc"]).
  left. right. exists (VStr "abc"). split; [reflexivity | vm_compute; reflexivity].
Defined.

(** The claim as it was made fails at a count the reader reports as null:
    [int] refuses it with TypeError, which the except clause does not
    catch. *)
Lemma C5_counterexample_null_count :
  (forall n, Num.int_value VNone <> inr n)
  /\ tr_element_count
       (subtitle_track {[ "@type" := VStr "Text"; "Count_of_elements" := VNone ]})
     = Some VNone
  /\ should_be_forced (null_count_track "1" "en") [null_count_track "1" "en"]
     = (inl TypeError, null_count_track "1" "en")
  /\ analyze_subtitle_tracks
       [ {[ "@type" := VStr "Text"; "Count_of_elements" := VNone ]} ]
     = inl TypeError.
Proof.
  split; [discriminate|]. split; [vm_compute; reflexivity|].
  split; vm_compute; reflexivity.
Qed.

(** C10 at a track whose sibling has the count "abc". *)
Lemma C10_exception_path_keeps_track_witness :
  should_be_forced (sample_track "1" "en" "5")
    [sample_track "1" "en" "5"; sample_track "2" "en" "abc"]
  = (inr false, sample_track "1" "en" "5")
  /\ tr_percentage
       (snd (should_be_forced (sample_track "1" "en" "5")
               [sample_track "1" "en" "5"; sample_track "2" "en" "abc"]))
     = tr_percentage (sample_track "1" "en" "5").
Proof.
  apply (C10_exception_path_keeps_track (sample_track "1" "en" "5")
           [sample_track "1" "en" "5"; sample_track "2" "en" "abc"] ValueError).
  - vm_compute. reflexivity.
  - reflexivity.
Defined.

(** ** Helper lemmas on the reconciler *)

Ltac list_assoc :=
  repeat (progress (cbn [app]; rewrite <- ?app_assoc)); try reflexivity.

(** One line of the loop is one step of the state machine, and it never
    raises as long as [current_track] has both keys or neither. *)
Lemma parse_line_refines m cur raw :
  well_formed cur ->
  exists m' cur',
    parse_line (m, cur) raw = inr (m', cur')
    /\ well_formed cur'
    /\ (m', in_progress cur') = reconcile_step (m, in_progress cur) (classify raw).
Proof.
  intros Hwf. unfold parse_line, classify.
  destruct (Str.contains "| + Track" (Str.strip raw)).
  { exists m, (Some empty_track). split; [done|]. split; [|done].
    split; intros H; by apply is_Some_None in H. }
  destruct cur as [cur|].
  - destruct (Str.contains "Track number:" (Str.strip raw)).
    { destruct (extract_ids (Str.strip raw)) as [e|[n i]].
      - exists m, (Some cur). split; [done|]. split; [exact Hwf | done].
      - exists m, (Some (mkCurrent (Some n) (Some i))).
        split; [done|]. split; [|done]. split; eauto. }
    destruct (Str.contains "Track type:" (Str.strip raw)); cbn [andb].
    + destruct (Str.contains "subtitles" (Str.lower (Str.strip raw))).
      * destruct (number cur) as [n|] eqn:Hn.
        -- destruct Hwf as [Hwf _]. destruct Hwf as [i Hi].
           { rewrite Hn. eauto. }
           rewrite Hi. exists (<[n:=i]> m), None.
           split; [done|]. split; [done|]. cbn. by rewrite Hn, Hi.
        -- exists m, None. split; [done|]. split; [done|]. cbn. by rewrite Hn.
      * exists m, None. split; [done|]. split; [done|]. done.
    + exists m, (Some cur). split; [done|]. split; [exact Hwf | done].
  - exists m, None. split; [done|]. split; [done|]. cbn.
    destruct (Str.contains "Track number:" (Str.strip raw)).
    { by destruct (extract_ids (Str.strip raw)) as [?|[? ?]]. }
    destruct (Str.contains "Track type:" (Str.strip raw)); [|done].
    by destruct (Str.contains "subtitles" (Str.lower (Str.strip raw))).
Qed.

Lemma parse_lines_refines lines m cur :
  well_formed cur ->
  exists m' cur',
    parse_lines (m, cur) lines = inr (m', cur')
    /\ well_formed cur'
    /\ (m', in_progress cur')
       = fold_left reconcile_step (map classify lines) (m, in_progress cur).
Proof.
  revert m cur. induction lines as [|l r IH]; intros m cur Hwf.
  - exists m, cur. by repeat split.
  - destruct (parse_line_refines m cur l Hwf) as (m1 & c1 & H1 & Hwf1 & Hs1).
    destruct (IH m1 c1 Hwf1) as (m2 & c2 & H2 & Hwf2 & Hs2).
    exists m2, c2. cbn [parse_lines]. rewrite H1. cbn [mbind result_bind].
    split; [exact H2|]. split; [exact Hwf2|].
    cbn [map fold_left]. by rewrite Hs2, Hs1.
Qed.

(** The reconciler never raises, and computes the state machine. *)
Lemma parse_mkvinfo_output_reconcile dump :
  parse_mkvinfo_output dump = inr (reconcile (events dump)).
Proof.
  unfold parse_mkvinfo_output, reconcile, events.
  destruct (parse_lines_refines (Str.split newline dump) ∅ None I)
    as (m & c & -> & _ & Hs).
  apply (f_equal fst) in Hs. cbn [mbind result_bind fst] in *.
  unfold Return. f_equal. exact Hs.
Qed.

Lemma has_commit_app evs ys k v :
  has_commit evs k v -> has_commit (evs ++ ys) k v.
Proof.
  intros (pre & mid1 & mid2 & post & -> & H1 & H2).
  exists pre, mid1, mid2, (post ++ ys). split; [list_assoc | done].
Qed.

Lemma run_keeps_indices mid st :
  Forall keeps_indices mid -> fold_left reconcile_step mid st = st.
Proof.
  intros H. revert st. induction H as [|x r Hx _ IH]; intros [m c]; [done|].
  cbn [fold_left]. destruct x as [|[]| | |]; try done; apply IH.
Qed.

Lemma run_keeps_open mid m r :
  Forall keeps_open mid ->
  exists r', fold_left reconcile_step mid (m, Some r) = (m, Some r').
Proof.
  intros H. revert r. induction H as [|x l Hx _ IH]; intros r; [by exists r|].
  cbn [fold_left]. destruct x as [|[]| | |]; try done; apply IH.
Qed.

Lemma run_dom evs m c k :
  is_Some (m !! k) -> is_Some (fst (fold_left reconcile_step evs (m, c)) !! k).
Proof.
  revert m c. induction evs as [|x r IH]; intros m c Hk; [done|].
  cbn [fold_left].
  destruct x as [|[]| | |]; cbn; try (by apply IH).
  - destruct c; by apply IH.
  - destruct c as [[[k' v']|]|]; try (by apply IH).
    apply IH. destruct (decide (k' = k)) as [->|];
      [by rewrite lookup_insert_eq | by rewrite lookup_insert_ne].
Qed.

(** What the state machine holds after a prefix of the dump. *)
Lemma run_invariant m0 evs :
  forall m r, fold_left reconcile_step evs (m0, None) = (m, r) ->
  (forall k v, m !! k = Some v -> m0 !! k = Some v \/ has_commit evs k v)
  /\ (r <> None ->
      exists pre mid, evs = pre ++ NewTrack :: mid /\ Forall keeps_open mid)
  /\ (forall k v, r = Some (Some (k, v)) ->
      exists pre mid1 mid2,
        evs = pre ++ NewTrack :: mid1 ++ TrackNumber (Some (k, v)) :: mid2
        /\ Forall keeps_open mid1 /\ Forall keeps_indices mid2).
Proof.
  induction evs as [|x evs IH] using rev_ind; intros m r Hrun.
  { injection Hrun as <- <-. repeat split; [auto | done | done]. }
  rewrite fold_left_app in Hrun. cbn [fold_left] in Hrun.
  destruct (fold_left reconcile_step evs (m0, None)) as [m1 r1].
  destruct (IH m1 r1 eq_refl) as (Hmap & Hopen & Hids).
  assert (Hkeep : forall k v, m1 !! k = Some v ->
            m0 !! k = Some v \/ has_commit (evs ++ [x]) k v).
  { intros k v Hk. destruct (Hmap k v Hk); [auto | right].
    by apply has_commit_app. }
  assert (Hopen' : keeps_open x -> r1 <> None ->
            exists pre mid, evs ++ [x] = pre ++ NewTrack :: mid
                            /\ Forall keeps_open mid).
  { intros Hx Hr. destruct (Hopen Hr) as (pre & mid & -> & Hmid).
    exists pre, (mid ++ [x]). split; [list_assoc|].
    apply Forall_app. auto. }
  assert (Hids' : keeps_indices x -> forall k v, r1 = Some (Some (k, v)) ->
            exists pre mid1 mid2,
              evs ++ [x] = pre ++ NewTrack :: mid1 ++ TrackNumber (Some (k, v)) :: mid2
              /\ Forall keeps_open mid1 /\ Forall keeps_indices mid2).
  { intros Hx k v Hr. destruct (Hids k v Hr) as (pre & mid1 & mid2 & -> & H1 & H2).
    exists pre, mid1, (mid2 ++ [x]). split; [list_assoc|].
    split; [done|]. apply Forall_app. auto. }
  destruct x as [|[[n i]|]| | |]; cbn in Hrun.
  - injection Hrun as <- <-. repeat split; [done | | done].
    intros _. exists evs, []. by split.
  - destruct r1 as [r1|]; injection Hrun as <- <-.
    + repeat split; [done | by intros _; apply Hopen' |].
      intros k v [= -> ->].
      destruct Hopen as (pre & mid & -> & Hmid); [done|].
      exists pre, mid, []. split; [list_assoc | by split].
    + by repeat split.
  - injection Hrun as <- <-. repeat split; [done | by apply Hopen' | by apply Hids'].
  - destruct r1 as [[[k0 v0]|]|]; injection Hrun as <- <-;
      (repeat split; [|done|done]); try done.
    intros k v Hk. destruct (decide (k0 = k)) as [->|Hne].
    + rewrite lookup_insert_eq in Hk. injection Hk as ->. right.
      destruct (Hids k v eq_refl) as (pre & mid1 & mid2 & -> & H1 & H2).
      exists pre, mid1, mid2, []. split; [list_assoc | done].
    + rewrite lookup_insert_ne in Hk by done. auto.
  - injection Hrun as <- <-. by repeat split.
  - injection Hrun as <- <-. repeat split; [done | by apply Hopen' | by apply Hids'].
Qed.

(** Running a track entry that commits [k -> v], from any state. *)
Lemma run_commit_block mid1 mid2 k v m r :
  Forall keeps_open mid1 -> Forall keeps_indices mid2 ->
  fold_left reconcile_step
    (NewTrack :: mid1 ++ TrackNumber (Some (k, v)) :: mid2 ++ [TypeSubtitles]) (m, r)
  = (<[k := v]> m, None).
Proof.
  intros H1 H2. cbn [fold_left reconcile_step].
  rewrite fold_left_app.
  destruct (run_keeps_open mid1 m None H1) as [r' ->].
  cbn [fold_left reconcile_step]. rewrite fold_left_app.
  by rewrite (run_keeps_indices mid2 _ H2).
Qed.

(** The last entry that commits a reader index decides its value. *)
Lemma reconcile_last_commit pre mid1 mid2 post k v :
  Forall keeps_open mid1 -> Forall keeps_indices mid2 ->
  (forall v', ~ has_commit post k v') ->
  reconcile (pre ++ NewTrack :: mid1 ++ TrackNumber (Some (k, v))
                 :: mid2 ++ TypeSubtitles :: post) !! k = Some v.
Proof.
  intros H1 H2 Hpost. unfold reconcile.
  replace (pre ++ NewTrack :: mid1 ++ TrackNumber (Some (k, v))
               :: mid2 ++ TypeSubtitles :: post)
    with (pre ++ (NewTrack :: mid1 ++ TrackNumber (Some (k, v))
                    :: mid2 ++ [TypeSubtitles]) ++ post) by list_assoc.
  rewrite !fold_left_app.
  destruct (fold_left reconcile_step pre (∅, None)) as [m1 r1].
  rewrite (run_commit_block mid1 mid2 k v m1 r1 H1 H2).
  destruct (fold_left reconcile_step post (<[k:=v]> m1, None)) as [m2 r2] eqn:Hrun.
  pose proof (run_dom post (<[k:=v]> m1) None k) as Hdom.
  rewrite Hrun in Hdom. cbn in *.
  destruct Hdom as [v' Hv']; [by rewrite lookup_insert_eq|].
  destruct (run_invariant _ _ _ _ Hrun) as (Hmap & _).
  destruct (Hmap k v' Hv') as [Hk | Hk].
  - rewrite lookup_insert_eq in Hk. congruence.
  - by apply Hpost in Hk.
Qed.

Lemma split_without_separator c s :
  Str.contains (String c EmptyString) s = false -> Str.split c s = [s].
Proof.
  induction s as [|a s IH]; [done|].
  cbn. destruct (ascii_dec c a) as [->|Hne].
  - by destruct s.
  - intros H. destruct (Ascii.eqb_spec a c) as [->|_]; [done|].
    assert (Str.contains (String c "") s = false) as Hs.
    { by destruct s. }
    by rewrite (IH Hs).
Qed.

(** A line without an opening parenthesis never yields the two indices. *)
Lemma extract_ids_without_parenthesis line :
  Str.contains "(" line = false -> exists e, extract_ids line = inl e.
Proof.
  intros H. unfold extract_ids. rewrite (split_without_separator _ _ H).
  cbn. destruct (Str.index (Str.split ":" line) 1); cbn; eauto.
Qed.

Lemma no_commit_in_nil k v : ~ has_commit [] k v.
Proof. intros (pre & ? & ? & ? & H & _). by destruct pre. Qed.

(** ** The reconciler: claims C2, C6 and C9 *)

(** C2.  For every dump the reconciler returns, without raising, the mapping
    of the state machine of section 4.2: an entry is committed exactly for the
    track entries in which, after the new-track line, a track-number line gave
    both indices and a later type line says subtitles, with no new-track line
    and no type line in between.  A line of any other type closes the
    in-progress record without a commit, and a new-track line replaces it by
    an empty one. *)
Theorem C2_commits_exactly_subtitle_entries dump :
  exists m,
    parse_mkvinfo_output dump = inr m
    /\ m = reconcile (events dump)
    /\ (forall k v, m !! k = Some v -> has_commit (events dump) k v)
    /\ (forall k v, has_commit (events dump) k v -> is_Some (m !! k))
    /\ (forall mapping cur raw, classify raw = TypeOther ->
          parse_line (mapping, cur) raw = inr (mapping, None))
    /\ (forall mapping cur raw, classify raw = NewTrack ->
          parse_line (mapping, cur) raw = inr (mapping, Some empty_track)).
Proof.
  exists (reconcile (events dump)).
  split; [apply parse_mkvinfo_output_reconcile|]. split; [done|].
  repeat split.
  - intros k v Hk. unfold reconcile in Hk.
    destruct (fold_left reconcile_step (events dump) (∅, None)) as [m r] eqn:Hrun.
    destruct (run_invariant _ _ _ _ Hrun) as (Hmap & _).
    by destruct (Hmap k v Hk).
  - intros k v (pre & mid1 & mid2 & post & -> & H1 & H2). unfold reconcile.
    replace (pre ++ NewTrack :: mid1 ++ TrackNumber (Some (k, v))
                 :: mid2 ++ TypeSubtitles :: post)
      with (pre ++ (NewTrack :: mid1 ++ TrackNumber (Some (k, v))
                      :: mid2 ++ [TypeSubtitles]) ++ post) by list_assoc.
    rewrite !fold_left_app.
    destruct (fold_left reconcile_step pre (∅, None)) as [m1 r1].
    rewrite (run_commit_block mid1 mid2 k v m1 r1 H1 H2).
    apply run_dom. by rewrite lookup_insert_eq.
  - intros mapping cur raw. unfold classify, parse_line.
    destruct (Str.contains "| + Track" (Str.strip raw)); [done|].
    destruct (Str.contains "Track number:" (Str.strip raw)); [done|].
    destruct (Str.contains "Track type:" (Str.strip raw)); [|done].
    destruct (Str.contains "subtitles" (Str.lower (Str.strip raw))); [done|].
    by destruct cur.
  - intros mapping cur raw. unfold classify, parse_line.
    destruct (Str.contains "| + Track" (Str.strip raw)); [done|].
    destruct (Str.contains "Track number:" (Str.strip raw)); [done|].
    destruct (Str.contains "Track type:" (Str.strip raw)); [|done].
    by destruct (Str.contains "subtitles" (Str.lower (Str.strip raw))).
Qed.

(** The reconciler on the sample dump: the subtitle track is committed, the
    video track is not. *)
Example parse_sample_dump :
  parse_mkvinfo_output sample_dump = inr {["3" := "2"]}.
Proof. vm_compute. reflexivity. Qed.

(** C6 (as amended).  Let a line of the dump be a track-number line from which
    the two indices cannot be extracted (it has no opening parenthesis, or no
    colon on one side of it).  Then the reconciler does not raise, returns
    what it returns for the dump without that line, and every entry of the
    mapping comes from a track entry of the other lines whose track-number
    line gave both indices. *)
Theorem C6_unextractable_line_is_skipped dump pre l post :
  Str.split newline dump = pre ++ l :: post ->
  classify l = TrackNumber None ->
  exists m,
    parse_mkvinfo_output dump = inr m
    /\ m = reconcile (map classify (pre ++ post))
    /\ (forall k v, m !! k = Some v -> has_commit (map classify (pre ++ post)) k v).
Proof.
  intros Hsplit Hl.
  assert (Heq : reconcile (events dump) = reconcile (map classify (pre ++ post))).
  { unfold reconcile, events. rewrite Hsplit, !map_app, !fold_left_app.
    cbn [map fold_left]. rewrite Hl.
    by destruct (fold_left reconcile_step (map classify pre) (∅, None)). }
  exists (reconcile (map classify (pre ++ post))).
  split; [by rewrite parse_mkvinfo_output_reconcile, Heq|]. split; [done|].
  intros k v Hk. unfold reconcile in Hk.
  destruct (fold_left reconcile_step (map classify (pre ++ post)) (∅, None))
    as [m r] eqn:Hrun.
  destruct (run_invariant _ _ _ _ Hrun) as (Hmap & _).
  by destruct (Hmap k v Hk).
Qed.

(** C6 at a dump whose first entry has a track-number line without its
    opening parenthesis: only the second entry is committed. *)
Lemma C6_unextractable_line_is_skipped_witness :
  exists m,
    parse_mkvinfo_output unopened_dump = inr m
    /\ m = reconcile
             (map classify
                (["| + Track"] ++
                 ["|  + Track type: subtitles";
                  "| + Track";
                  "|  + Track number: 4 (track ID for mkvmerge & mkvextract: 3)";
                  "|  + Track type: subtitles"]))
    /\ (forall k v, m !! k = Some v ->
        has_commit
          (map classify
             (["| + Track"] ++
              ["|  + Track type: subtitles";
               "| + Track";
               "|  + Track number: 4 (track ID for mkvmerge & mkvextract: 3)";
               "|  + Track type: subtitles"])) k v).
Proof.
  apply (C6_unextractable_line_is_skipped unopened_dump
           ["| + Track"]
           "|  + Track number: 3 track ID for mkvmerge & mkvextract: 2)"
           ["|  + Track type: subtitles";
            "| + Track";
            "|  + Track number: 4 (track ID for mkvmerge & mkvextract: 3)";
            "|  + Track type: subtitles"]).
  - vm_compute. reflexivity.
  - vm_compute. reflexivity.
Defined.

(** C6 as stated fails: a track-number line that lacks its closing
    parenthesis is malformed, and its track is committed all the same. *)
Lemma C6_counterexample_unclosed :
  Str.split newline unclosed_dump
  = ["| + Track";
     "|  + Track number: 3 (track ID for mkvmerge & mkvextract: 2";
     "|  + Track type: subtitles"]
  /\ Str.contains ")" "|  + Track number: 3 (track ID for mkvmerge & mkvextract: 2" = false
  /\ parse_mkvinfo_output unclosed_dump = inr {["3" := "2"]}.
Proof. repeat split; vm_compute; reflexivity. Qed.

(** C9.  When the dump holds a track entry that commits reader index [k] with
    editor index [v], and no later entry commits [k], the reconciler returns,
    without raising, a mapping that binds [k] to [v], whatever the entries
    before it committed for [k]. *)
Theorem C9_last_entry_wins dump pre mid1 mid2 post k v :
  events dump = pre ++ NewTrack :: mid1 ++ TrackNumber (Some (k, v))
                    :: mid2 ++ TypeSubtitles :: post ->
  Forall keeps_open mid1 ->
  Forall keeps_indices mid2 ->
  (forall v', ~ has_commit post k v') ->
  exists m, parse_mkvinfo_output dump = inr m /\ m !! k = Some v.
Proof.
  intros Hev H1 H2 Hpost. exists (reconcile (events dump)).
  split; [apply parse_mkvinfo_output_reconcile|].
  rewrite Hev. by apply reconcile_last_commit.
Qed.

(** C9 at a dump with two entries for reader index 3, with editor indices 2
    and then 7. *)
Lemma C9_last_entry_wins_witness :
  has_commit [NewTrack; TrackNumber (Some ("3", "2")); TypeSubtitles] "3" "2"
  /\ exists m, parse_mkvinfo_output duplicate_dump = inr m /\ m !! "3" = Some "7".
Proof.
  split.
  - exists [], [], [], []. by repeat split.
  - apply (C9_last_entry_wins duplicate_dump
             [NewTrack; TrackNumber (Some ("3", "2")); TypeSubtitles]
             [] [] [] "3" "7").
    + vm_compute. reflexivity.
    + constructor.
    + constructor.
    + intros v'. apply no_commit_in_nil.
Defined.

(** ** Helper lemmas on the apply loop *)

Lemma int_not_empty s n : Num.int s = inr n -> Str.truthy s = true.
Proof. by destruct s. Qed.

(** The flag is printed as "1" or "0"; an int below [10 ^ 4300] in absolute
    value is printed, a larger one is not. *)
Lemma str_flag (forced : bool) :
  Num.str (if forced then 1 else 0) = inr (if forced then "1" else "0").
Proof. destruct forced; vm_compute; reflexivity. Qed.

Lemma str_small n :
  Z.abs n < 10 ^ Num.max_str_digits -> Num.str n = inr (pretty n).
Proof.
  intros H. unfold Num.str.
  by destruct (Z.leb_spec (10 ^ Num.max_str_digits) (Z.abs n)); [lia|].
Qed.

Lemma str_large n :
  10 ^ Num.max_str_digits <= Z.abs n -> Num.str n = inl ValueError.
Proof.
  intros H. unfold Num.str.
  by destruct (Z.leb_spec (10 ^ Num.max_str_digits) (Z.abs n)); [|lia].
Qed.

Lemma mkvpropedit_cmd_spec file_path n forced :
  mkvpropedit_cmd file_path n forced
  = (address ← Num.str n;
     Return ["mkvpropedit"; file_path; "--edit"; String.append "track:" address;
             "--set"; if forced then "flag-forced=1" else "flag-forced=0"]).
Proof.
  unfold mkvpropedit_cmd. rewrite str_flag.
  destruct (Num.str n); [done|]. by destruct forced.
Qed.

(** [set_forced_flag] never raises; it runs the editor exactly when the index
    is an integer whose successor can be printed. *)
Lemma set_forced_flag_spec tools file_path track_id forced history :
  set_forced_flag tools file_path track_id forced history
  = match Num.int track_id ≫= fun n => mkvpropedit_cmd file_path (n + 1) forced with
    | inr cmd =>
        (inr (editor_succeeded tools history cmd), (history ++ [cmd])%list)
    | inl _ => (inr false, history)
    end.
Proof.
  unfold set_forced_flag, try_except, editor_succeeded, run, lift.
  unfold mbind at 1 2 3, StateExn_bind, mret, StateExn_ret.
  destruct (Num.int track_id) as [e|n]; [done|]. cbn [mbind result_bind].
  destruct (mkvpropedit_cmd file_path (n + 1) forced) as [e|cmd]; [done|].
  by destruct (subprocess_run tools history cmd).
Qed.





(** The records the pipeline builds carry an id and a language, and keep
    them through classification. *)
Lemma should_be_forced_keeps_keys track all :
  tr_id (snd (should_be_forced track all)) = tr_id track
  /\ tr_language (snd (should_be_forced track all)) = tr_language track.
Proof.
  unfold should_be_forced, try_except, should_be_forced_body.
  unfold mbind, StateExn_bind, get, lift, modify, mret, StateExn_ret.
  destruct (element_count_of track); [by destruct (caught _)|].
  destruct (getitem (tr_language track)); [by destruct (caught _)|].
  destruct (same_language_tracks _ all) as [|same]; [by destruct (caught _)|].
  destruct (element_counts same) as [e|ns]; cbn; [by destruct (caught e)|].
  destruct (Num.max ns) as [e|m]; [by destruct (caught e)|].
  destruct (percentage_of _ m) as [e|p]; [by destruct (caught e) | done].
Qed.

Lemma collect_subtitles_keys tracks ts :
  collect_subtitles tracks = inr ts -> Forall has_keys ts.
Proof.
  revert ts. induction tracks as [|track r IH]; intros ts; cbn [collect_subtitles].
  - intros [= <-]. constructor.
  - destruct (getitem (track !! "@type")) as [|ty]; [done|]. cbn [mbind result_bind].
    destruct (collect_subtitles r) as [|rest]; [done|]. cbn [mbind result_bind].
    intros [= <-]. destruct (Num.eq ty "Text"); [|by apply IH].
    constructor; [by split; eexists | by apply IH].
Qed.

Lemma classify_all_keys positions ts ts' :
  Forall has_keys ts -> classify_all positions ts = inr ts' -> Forall has_keys ts'.
Proof.
  revert ts. induction positions as [|i r IH]; intros ts Hts; cbn [classify_all].
  - by intros [= <-].
  - destruct (ts !! i) as [track|] eqn:Hi; [|by intros [= <-]].
    destruct (should_be_forced_keeps_keys track ts) as [Hid Hlang].
    destruct (should_be_forced track ts) as [[|b] track']; [done|].
    cbn [mbind result_bind]. apply IH.
    apply Forall_insert; [done|]. unfold has_keys in *. cbn in *.
    rewrite Hid, Hlang.
    rewrite Forall_forall in Hts. apply Hts. by eapply list_elem_of_lookup_2.
Qed.

Lemma select_tracks_keys ts sel :
  Forall has_keys ts -> select_tracks ts = inr sel -> Forall has_keys sel.
Proof.
  intros H. revert sel. induction H as [|t r Ht _ IH]; intros sel; cbn [select_tracks].
  - intros [= <-]. constructor.
  - destruct (getitem (tr_should_be_forced t)) as [|b]; [done|]. cbn [mbind result_bind].
    destruct (select_tracks r) as [|rest]; [done|]. cbn [mbind result_bind].
    intros [= <-]. destruct b; [constructor|]; auto.
Qed.

Lemma analyze_subtitle_tracks_keys data subtitle_tracks :
  analyze_subtitle_tracks data = inr subtitle_tracks ->
  Forall has_keys subtitle_tracks.
Proof.
  unfold analyze_subtitle_tracks. intros Ha.
  destruct (collect_subtitles data) as [|info] eqn:Hc; [done|].
  cbn [mbind result_bind] in Ha.
  eapply classify_all_keys; [|done]. by eapply collect_subtitles_keys.
Qed.

Lemma tracks_to_force_ids data subtitle_tracks tracks_to_force :
  analyze_subtitle_tracks data = inr subtitle_tracks ->
  select_tracks subtitle_tracks = inr tracks_to_force ->
  Forall (fun t => is_Some (tr_id t)) tracks_to_force.
Proof.
  intros Ha Hs.
  assert (Forall has_keys tracks_to_force) as Hkeys.
  { eapply select_tracks_keys; [|done]. by eapply analyze_subtitle_tracks_keys. }
  eapply Forall_impl; [exact Hkeys|]. intros t Ht. apply Ht.
Qed.

(** ** The apply loop: claim C3 *)

(** C3 (as amended).  For a track selected for modification whose editor
    index is present in the identity map and is an integer [n] such that
    [n + 1] can be printed (it has at most 4300 digits), the iteration runs
    the editor once, on the track address [n + 1], and records its success;
    an editor index "2" gives the address "track:3". *)
Theorem C3_editor_address_is_index_plus_one
    tools full_path track_mapping track id mkvmerge_id n history :
  tr_id track = Some (VStr id) ->
  track_mapping !! id = Some mkvmerge_id ->
  Num.int mkvmerge_id = inr n ->
  Z.abs (n + 1) < 10 ^ Num.max_str_digits ->
  let cmd := ["mkvpropedit"; full_path; "--edit";
              String.append "track:" (pretty (n + 1));
              "--set"; "flag-forced=1"] in
  apply_change tools full_path track_mapping track history
  = (inr (set_modified (editor_succeeded tools history cmd) track),
     (history ++ [cmd])%list)
  /\ (mkvmerge_id = "2" -> String.append "track:" (pretty (n + 1)) = "track:3").
Proof.
  intros Hid Hmap Hint Hdigits cmd. split.
  - unfold apply_change, lift.
    unfold mbind at 1, StateExn_bind, mret, StateExn_ret. rewrite Hid.
    cbn [getitem Return mapping_get].
    rewrite Hmap, (int_not_empty _ _ Hint).
    unfold mbind at 1, StateExn_bind.
    rewrite set_forced_flag_spec, Hint. cbn [mbind result_bind].
    rewrite mkvpropedit_cmd_spec, (str_small _ Hdigits). reflexivity.
  - intros ->. by injection Hint as <-.
Qed.

(** C3 end to end: the sample dump maps reader index 3 to editor index 2, and
    the editor is run on track 3. *)
Lemma C3_editor_address_is_index_plus_one_witness :
  parse_mkvinfo_output sample_dump = inr {["3" := "2"]}
  /\ apply_change quiet_tools "a.mkv" {["3" := "2"]} (sample_track "3" "en" "50") []
     = (inr (set_modified true (sample_track "3" "en" "50")),
        [["mkvpropedit"; "a.mkv"; "--edit"; "track:3"; "--set"; "flag-forced=1"]]).
Proof.
  split; [vm_compute; reflexivity|].
  apply (C3_editor_address_is_index_plus_one quiet_tools "a.mkv" {["3" := "2"]}
           (sample_track "3" "en" "50") "3" "2" 2 []).
  - reflexivity.
  - vm_compute. reflexivity.
  - vm_compute. reflexivity.
  - vm_compute. reflexivity.
Defined.

(** C3 as stated fails: an editor index that is present in the identity map
    but is not an integer ("2a") leads to no editor call at all. *)
Lemma C3_counterexample_not_an_integer :
  ({["3" := "2a"]} : gmap string string) !! "3" = Some "2a"
  /\ apply_change quiet_tools "a.mkv" {["3" := "2a"]} (sample_track "3" "en" "50") []
     = (inr (set_modified false (sample_track "3" "en" "50")), []).
Proof. split; vm_compute; reflexivity. Qed.

(** Nor is the editor called for the one integer index whose successor is
    too long to be printed, 4300 nines: the f-string of line 135 raises
    inside the [try]. *)
Example unprintable_address_runs_nothing :
  Num.int longest_index = inr (10 ^ 4300 - 1)
  /\ apply_change quiet_tools "a.mkv" {["3" := longest_index]}
       (sample_track "3" "en" "50") []
     = (inr (set_modified false (sample_track "3" "en" "50")), []).
Proof. split; vm_compute; reflexivity. Qed.

(** ** Helper lemmas on rounding

    The mantissa and location arithmetic of [binary_round_aux] at binary64. *)

Lemma shifted_refl x : shifted 0 x x.
Proof.
  intros H. rewrite Z.pow_0_r, Z.div_1_r. auto.
Qed.

Lemma shifted_shr_1 x : shifted 1 x (shr_1 x).
Proof.
  destruct x as [m r s]. intros Hm. cbn in Hm. change (2 ^ 1) with 2.
  destruct m as [|[p|p|]|]; cbn [shr_1 shr_m shr_r shr_s]; [| | | |lia].
  - split; [lia|]. split; [reflexivity|]. intros -> ->. auto.
  - split; [lia|]. split; [rewrite Pos2Z.inj_xI; Z.div_mod_to_equations; lia|].
    intros _ _ H. rewrite Pos2Z.inj_xI in H. Z.div_mod_to_equations. lia.
  - split; [lia|]. split; [rewrite Pos2Z.inj_xO; Z.div_mod_to_equations; lia|].
    intros -> ->. auto.
  - split; [lia|]. split; [reflexivity|]. intros _ _ H. discriminate H.
Qed.

Lemma shifted_trans k j x y z :
  0 <= k -> 0 <= j -> shifted k x y -> shifted j y z -> shifted (k + j) x z.
Proof.
  intros Hk Hj Hxy Hyz Hx.
  destruct (Hxy Hx) as (Hy & Hmy & Hey).
  destruct (Hyz Hy) as (Hz & Hmz & Hez).
  assert (0 < 2 ^ k) by (apply Z.pow_pos_nonneg; lia).
  assert (0 < 2 ^ j) by (apply Z.pow_pos_nonneg; lia).
  split; [done|]. rewrite Z.pow_add_r by done. split.
  - rewrite Hmz, Hmy. rewrite Z.div_div by lia. reflexivity.
  - intros Hr Hs Hmod. rewrite Z.rem_mul_r in Hmod by lia.
    pose proof (Z.mod_pos_bound (shr_m x) (2 ^ k) ltac:(lia)).
    pose proof (Z.mod_pos_bound (shr_m x / 2 ^ k) (2 ^ j) ltac:(lia)).
    assert (shr_m x mod 2 ^ k = 0) by nia.
    assert ((shr_m x / 2 ^ k) mod 2 ^ j = 0) by nia.
    destruct (Hey Hr Hs) as [Hr' Hs']; [done|].
    apply Hez; [done | done |]. by rewrite Hmy.
Qed.

Lemma shifted_iter p x : shifted (Zpos p) x (SpecFloat.iter_pos shr_1 p x).
Proof.
  revert x. induction p as [p IH | p IH |]; intros x; cbn [SpecFloat.iter_pos].
  - replace (Zpos p~1) with (1 + Zpos p + Zpos p) by lia.
    eapply shifted_trans; [lia | lia | | apply IH].
    eapply shifted_trans; [lia | lia | apply shifted_shr_1 | apply IH].
  - replace (Zpos p~0) with (Zpos p + Zpos p) by lia.
    eapply shifted_trans; [lia | lia | apply IH | apply IH].
  - apply shifted_shr_1.
Qed.

Lemma shifted_shr x e n :
  shifted (Z.max 0 n) x (fst (shr x e n)) /\ snd (shr x e n) = e + Z.max 0 n.
Proof.
  destruct n as [|p|p]; cbn [shr fst snd].
  - split; [apply shifted_refl | lia].
  - replace (Z.max 0 (Zpos p)) with (Zpos p) by lia.
    split; [apply shifted_iter | done].
  - replace (Z.max 0 (Zneg p)) with 0 by lia.
    split; [apply shifted_refl | lia].
Qed.

Lemma digits2_pos_lower p : 2 ^ (Zpos (digits2_pos p) - 1) <= Zpos p.
Proof.
  induction p as [p IH | p IH |]; cbn [digits2_pos].
  - rewrite Pos2Z.inj_succ. replace (Z.succ (Zpos (digits2_pos p)) - 1)
      with (Z.succ (Zpos (digits2_pos p) - 1)) by lia.
    rewrite Z.pow_succ_r by lia. lia.
  - rewrite Pos2Z.inj_succ. replace (Z.succ (Zpos (digits2_pos p)) - 1)
      with (Z.succ (Zpos (digits2_pos p) - 1)) by lia.
    rewrite Z.pow_succ_r by lia. lia.
  - done.
Qed.

Lemma Zdigits2_le m K : 0 <= m -> 0 <= K -> m < 2 ^ K -> Zdigits2 m <= K.
Proof.
  intros Hm HK Hlt. destruct m as [|p|p]; cbn [Zdigits2]; [lia | | lia].
  pose proof (digits2_pos_lower p) as Hp.
  assert (2 ^ (Zpos (digits2_pos p) - 1) < 2 ^ K) as H by lia.
  apply Z.pow_lt_mono_r_iff in H; lia.
Qed.

Lemma shr_record_of_loc_m m l : shr_m (shr_record_of_loc m l) = m.
Proof. by destruct l as [|[]]. Qed.

Lemma loc_of_shr_record_exact y :
  shr_r y = false -> shr_s y = false -> loc_of_shr_record y = loc_Exact.
Proof. destruct y as [m r s]. cbn. by intros -> ->. Qed.

Lemma round_nearest_even_bounds m l :
  m <= round_nearest_even m l <= m + 1
  /\ (l = loc_Exact -> round_nearest_even m l = m).
Proof.
  destruct l as [|[]]; cbn; try destruct (Z.even m); split; try lia; try done.
Qed.

(** One alignment step keeps the mantissa below a bound that the format
    can represent: [M * 2 ^ E] with [M] of at most 53 bits. *)
Lemma shr_fexp_le M E m e l :
  0 <= m -> 0 < M < 2 ^ 53 -> -1074 <= E -> e <= E ->
  m <= M * 2 ^ (E - e) ->
  (l <> loc_Exact -> m + 1 <= M * 2 ^ (E - e)) ->
  exists y e',
    shr_fexp 53 1024 m e l = (y, e')
    /\ e <= e' <= E
    /\ 0 <= shr_m y
    /\ shr_m y <= M * 2 ^ (E - e')
    /\ (loc_of_shr_record y <> loc_Exact -> shr_m y + 1 <= M * 2 ^ (E - e')).
Proof.
  intros Hm HM HE He Hle Hstrict. unfold shr_fexp.
  set (n := fexp 53 1024 (Zdigits2 m + e) - e).
  destruct (shifted_shr (shr_record_of_loc m l) e n) as [Hsh He'].
  destruct (shr (shr_record_of_loc m l) e n) as [y e'].
  cbn [fst snd] in *. exists y, e'. split; [done|].
  assert (0 < 2 ^ (E - e)) as Hpow by (apply Z.pow_pos_nonneg; lia).
  assert (Hn : n <= E - e).
  { assert (Zdigits2 m <= 53 + (E - e)) as Hd.
    { apply Zdigits2_le; [lia | lia |].
      rewrite Z.pow_add_r by lia. nia. }
    unfold n, fexp, emin. lia. }
  set (k := Z.max 0 n) in *.
  assert (0 <= k <= E - e) as Hk by lia.
  split; [lia|].
  unfold shifted in Hsh. rewrite !shr_record_of_loc_m in Hsh.
  destruct (Hsh Hm) as (Hy & Hmy & Hexact).
  split; [done|].
  assert (0 < 2 ^ k) as Hpk by (apply Z.pow_pos_nonneg; lia).
  assert (2 ^ (E - e) = 2 ^ k * 2 ^ (E - e')) as Hsplit.
  { rewrite <- Z.pow_add_r by lia. f_equal. lia. }
  set (C := M * 2 ^ (E - e')) in *.
  assert (M * 2 ^ (E - e) = 2 ^ k * C) as HC by (unfold C; rewrite Hsplit; lia).
  rewrite HC in *.
  split.
  - rewrite Hmy. by apply Z.div_le_upper_bound.
  - intros Hloc. rewrite Hmy.
    assert (m < 2 ^ k * C) as Hlt.
    { destruct (Z.lt_ge_cases m (2 ^ k * C)) as [|Hge]; [done|].
      exfalso. apply Hloc.
      assert (m = 2 ^ k * C) as Heq by lia.
      assert (l = loc_Exact) as ->.
      { destruct l as [|c]; [done|]. assert (m + 1 <= 2 ^ k * C); [by apply Hstrict | lia]. }
      destruct Hexact as [Hr Hs]; [done | done | | by apply loc_of_shr_record_exact].
      rewrite Heq, Z.mul_comm. apply Z_mod_mult. }
    pose proof (Z.div_lt_upper_bound m (2 ^ k) C Hpk Hlt). lia.
Qed.

(** Rounding to nearest never exceeds a bound that the format represents. *)
Lemma round_le M E mx ex lx :
  0 <= mx -> 0 < M < 2 ^ 53 -> -1074 <= E <= 971 -> ex <= E ->
  mx <= M * 2 ^ (E - ex) ->
  (lx <> loc_Exact -> mx + 1 <= M * 2 ^ (E - ex)) ->
  upper_bounded M E (binary_round_aux 53 1024 false mx ex lx).
Proof.
  intros Hm HM HE He Hle Hstrict. unfold binary_round_aux.
  destruct (shr_fexp_le M E mx ex lx) as (y1 & e1 & -> & He1 & Hy1 & Hle1 & Hs1);
    try done; try lia.
  pose proof (round_nearest_even_bounds (shr_m y1) (loc_of_shr_record y1))
    as [Hr Hrx].
  set (m1 := round_nearest_even (shr_m y1) (loc_of_shr_record y1)) in *.
  assert (m1 <= M * 2 ^ (E - e1)) as Hm1.
  { destruct (loc_of_shr_record y1) as [|c] eqn:Hloc.
    - rewrite Hrx; done.
    - assert (shr_m y1 + 1 <= M * 2 ^ (E - e1)); [by apply Hs1 | lia]. }
  destruct (shr_fexp_le M E m1 e1 loc_Exact) as (y2 & e2 & -> & He2 & Hy2 & Hle2 & _);
    try done; try lia.
  destruct (shr_m y2) as [|m2|m2] eqn:Hm2; [by left | | lia].
  right. replace (e2 <=? 1024 - 53) with true by (symmetry; apply Z.leb_le; lia).
  exists m2, e2. split; [done|]. split; [lia | done].
Qed.

(** The quotient of two counts [0 <= a <= b] is a float from 0 to 1: the
    division does not overflow. *)
Lemma truediv_le_one a b :
  0 <= a <= b -> 0 < b ->
  exists q, Num.truediv a b = inr q /\ upper_bounded 1 0 q.
Proof.
  intros Ha Hb. unfold Num.truediv.
  destruct (Z.eqb_spec b 0) as [|_]; [lia|].
  replace (a <? 0) with false by (symmetry; apply Z.ltb_ge; lia).
  replace (b <? 0) with false by (symmetry; apply Z.ltb_ge; lia).
  cbn [xorb].
  destruct (Z.eqb_spec a 0) as [->|Hne].
  { eexists. split; [done | by left]. }
  rewrite !Z.abs_eq by lia.
  unfold SFdiv_core_binary, Num.prec, Num.emax.
  set (e' := Z.min (fexp 53 1024 (Zdigits2 a + 0 - (Zdigits2 b + 0))) (0 - 0)).
  assert (e' <= 0) as He' by (unfold e'; lia).
  set (s := 0 - 0 - e').
  assert (match s with
          | Z0 => a
          | Zpos _ => Z.shiftl a s
          | Zneg _ => 0
          end = a * 2 ^ s) as ->.
  { destruct s as [|p|p] eqn:Hs; [lia | | lia].
    rewrite Z.shiftl_mul_pow2; lia. }
  assert (0 < 2 ^ s) as Hpow by (apply Z.pow_pos_nonneg; lia).
  pose proof (Z_div_mod (a * 2 ^ s) b ltac:(lia)) as Hdiv.
  destruct (Z.div_eucl (a * 2 ^ s) b) as [q r].
  destruct Hdiv as [Hqr Hr].
  assert (upper_bounded 1 0 (binary_round_aux 53 1024 false q e' (new_location b r)))
    as Hbound.
  { apply round_le; try lia.
    - nia.
    - replace (0 - e') with s by lia. nia.
    - intros Hloc. replace (0 - e') with s by lia.
      assert (r <> 0) as Hr0.
      { intros ->. apply Hloc. unfold new_location, new_location_even, new_location_odd.
        by destruct (Z.even b). }
      nia. }
  destruct Hbound as [-> | (m & e & -> & Hb1 & Hb2)]; eexists; split; try done.
  - by left.
  - right. eauto.
Qed.

(** So the division of the classifier is safe for every non-negative count
    that does not exceed the maximum of its group. *)
Lemma divides_safely_nonnegative e m : 0 <= e <= m -> divides_safely e m.
Proof.
  intros He Hm. destruct (truediv_le_one e m He Hm) as (q & Hq & _). eauto.
Qed.

(** A float from 0 to 1 times 100.0 is a float from 0 to 100. *)
Lemma fmul_hundred_le q :
  upper_bounded 1 0 q ->
  upper_bounded 7036874417766400 (-46) (Num.fmul q Num.hundred).
Proof.
  intros [-> | (m & e & -> & He & Hm)]; [by left|].
  unfold Num.fmul, Num.hundred, SFmul, Num.prec, Num.emax. cbn [xorb].
  assert (0 < 2 ^ (0 - e)) as Hpow by (apply Z.pow_pos_nonneg; lia).
  apply round_le; try lia.
  - replace (-46 - (e + -46)) with (0 - e) by lia.
    rewrite Pos2Z.inj_mul. nia.
  - done.
Qed.

Lemma upper_bounded_hundred f :
  upper_bounded 7036874417766400 (-46) f -> float_in_range 0 100 f.
Proof.
  intros [-> | (m & e & -> & He & Hm)]; cbn; [lia|].
  destruct (Z.leb_spec 0 e) as [|_]; [lia|].
  replace (- e) with (46 + (-46 - e)) by lia.
  rewrite Z.pow_add_r by lia.
  change (2 ^ 46) with 70368744177664. lia.
Qed.

(** A count divided by itself is 1.0. *)
Lemma truediv_self a :
  0 < a -> Num.truediv a a = inr (S754_finite false 4503599627370496 (-52)).
Proof.
  intros Ha. unfold Num.truediv.
  destruct (Z.eqb_spec a 0) as [|_]; [lia|].
  replace (a <? 0) with false by (symmetry; apply Z.ltb_ge; lia).
  cbn [xorb]. rewrite !Z.abs_eq by lia.
  unfold SFdiv_core_binary, Num.prec, Num.emax.
  replace (Zdigits2 a + 0 - (Zdigits2 a + 0)) with 0 by lia.
  change (Z.min (fexp 53 1024 0) (0 - 0)) with (-53).
  change (0 - 0 - -53) with 53.
  cbv beta iota zeta.
  rewrite Z.shiftl_mul_pow2 by lia.
  pose proof (Z_div_mod (a * 2 ^ 53) a ltac:(lia)) as Hdiv.
  destruct (Z.div_eucl (a * 2 ^ 53) a) as [q r].
  destruct Hdiv as [Hqr Hr].
  assert (forall P, a * P = a * q + r -> r = 0 /\ q = P) as Hgen.
  { intros P HP. assert (P - q = 0 \/ P - q <= -1 \/ 1 <= P - q) as [|[|]] by lia; nia. }
  destruct (Hgen _ Hqr) as [-> ->].
  replace (new_location a 0) with loc_Exact.
  2: { unfold new_location, new_location_even, new_location_odd.
       by destruct (Z.even a). }
  vm_compute. reflexivity.
Qed.

(** ** The stored percentage: claim C8 *)

(** C8.  Let the track be one of the siblings, each of them with a language
    as the script builds them, and let the element counts of its language
    group parse as non-negative integers with maximum [m].  Then
    classification stores a percentage on the track; it lies between 0 and
    100 when [m] is positive, it is 100 when [m] is 0, and it is 100.0 when
    the group is the track alone and its count is positive. *)
Theorem C8_percentage_between_0_and_100 track all lang e ns m :
  In track all ->
  Forall (fun t => is_Some (tr_language t)) all ->
  tr_language track = Some (VStr lang) ->
  parses track e ->
  Forall2 parses (filter (fun t => tr_language t = Some (VStr lang)) all) ns ->
  Forall (fun n => 0 <= n) ns ->
  is_maximum m ns ->
  exists p,
    tr_percentage (snd (should_be_forced track all)) = Some p
    /\ (0 < m -> number_in_range 0 100 p)
    /\ (m = 0 -> p = Num.Int 100)
    /\ (filter (fun t => tr_language t = Some (VStr lang)) all = [track] -> 0 < e ->
        p = Num.Float Num.hundred).
Proof.
  intros Hin Hall Hlang He Hns Hpos Hm.
  rewrite (should_be_forced_reaches track all lang e ns m); try done;
    [| by apply element_count_of_parses | by apply Forall2_parses ].
  assert (Hens : In e ns).
  { eapply Forall2_parses_In; [done | | done].
    apply list_elem_of_In, list_elem_of_filter.
    split; [done | by apply list_elem_of_In]. }
  assert (0 <= e <= m) as Hle.
  { split; [|by apply Hm].
    rewrite Forall_forall in Hpos. by apply Hpos, list_elem_of_In. }
  unfold percentage_of.
  destruct (Z.ltb_spec 0 m) as [Hmpos | Hmneg].
  - destruct (truediv_le_one e m Hle Hmpos) as (q & Hq & Hbound).
    rewrite Hq. cbn [mbind result_bind Return snd tr_percentage set_percentage].
    eexists. split; [done|]. split; [|split].
    + intros _. by apply upper_bounded_hundred, fmul_hundred_le.
    + lia.
    + intros Hone Hepos. rewrite Hone in Hns.
      inversion Hns as [|t n ts ns' Hn Hnil]; subst.
      inversion Hnil; subst.
      assert (n = e) as -> by (eapply parses_functional; eauto).
      assert (m = e) as ->.
      { destruct Hm as [[<- | []] _]. done. }
      rewrite (truediv_self e Hepos) in Hq. injection Hq as <-.
      f_equal.
  - cbn [snd tr_percentage set_percentage].
    eexists. split; [done|]. split; [lia|]. split; [done|].
    intros Hone Hepos. rewrite Hone in Hns.
    inversion Hns as [|t n ts ns' Hn Hnil]; subst.
    inversion Hnil; subst.
    assert (n = e) as -> by (eapply parses_functional; eauto).
    destruct Hm as [[<- | []] _]. lia.
Qed.

(** C8 at the second end-to-end scenario: 500 of 3000 is 16.66...%. *)
Lemma C8_percentage_between_0_and_100_witness :
  exists p,
    tr_percentage
      (snd (should_be_forced (sample_track "1" "de" "500")
              [sample_track "1" "de" "500"; sample_track "2" "de" "3000"])) = Some p
    /\ (0 < 3000 -> number_in_range 0 100 p)
    /\ (3000 = 0 -> p = Num.Int 100)
    /\ (filter (fun t => tr_language t = Some (VStr "de"))
               [sample_track "1" "de" "500"; sample_track "2" "de" "3000"]
        = [sample_track "1" "de" "500"] -> 0 < 500 ->
        p = Num.Float Num.hundred).
Proof.
  apply (C8_percentage_between_0_and_100
           (sample_track "1" "de" "500")
           [sample_track "1" "de" "500"; sample_track "2" "de" "3000"]
           "de" 500 [500; 3000] 3000).
  - left. reflexivity.
  - repeat constructor; eexists; reflexivity.
  - reflexivity.
  - solve_parses.
  - solve_all_parse.
  - repeat constructor; lia.
  - split; [right; left; reflexivity | intros n [<- | [<- | []]]; lia].
Defined.

(** The percentage of a track that is alone in its language group. *)
Example percentage_of_single_track :
  tr_percentage (snd (should_be_forced (sample_track "1" "en" "1000")
                        [sample_track "1" "en" "1000"]))
  = Some (Num.Float Num.hundred).
Proof. vm_compute. reflexivity. Qed.
(** * Further properties of the classifier *)

Lemma max_inv ns m : Num.max ns = inr m -> is_maximum m ns.
Proof.
  destruct ns as [|x r]; [done|]. cbn. intros [= <-]. apply fold_max_spec.
Qed.

Lemma percentage_of_raises e m x :
  percentage_of e m = inl x -> x = OverflowError /\ 0 < m.
Proof.
  unfold percentage_of. destruct (Z.ltb_spec 0 m) as [Hm|]; [|done].
  unfold Num.truediv. destruct (Z.eqb_spec m 0); [lia|].
  destruct (e =? 0); [done|].
  destruct (SFdiv_core_binary _ _ _ _ _ _) as [[q e'] l].
  destruct (binary_round_aux _ _ _ _ _ _); cbn; try done.
  by intros [= <-].
Qed.

(** ** The language group *)

(** The body of the [try], with the two comprehensions taken together. *)
Lemma should_be_forced_group_max track all :
  should_be_forced track all
  = match element_count_of track with
    | inl x => (if caught x then inr false else inl x, track)
    | inr e =>
        match tr_language track with
        | None => (inr false, track)
        | Some lang =>
            match group_max lang all with
            | inl x => (if caught x then inr false else inl x, track)
            | inr m =>
                match percentage_of e m with
                | inl x => (if caught x then inr false else inl x, track)
                | inr p => (inr ((e <? 400) || Num.lt_20 p), set_percentage p track)
                end
            end
        end
    end.
Proof.
  unfold should_be_forced, try_except, should_be_forced_body, group_max.
  unfold mbind at 1 2 3 4 5 6 7, StateExn_bind, get, lift, modify, mret, StateExn_ret.
  destruct (element_count_of track) as [x|e]; [by destruct (caught x)|].
  destruct (tr_language track) as [lang|]; cbn [getitem Return Raise]; [|done].
  destruct (same_language_tracks lang all) as [x|same]; cbn [mbind result_bind];
    [by destruct (caught x)|].
  destruct (element_counts same) as [x|ns]; cbn [mbind result_bind];
    [by destruct (caught x)|].
  destruct (Num.max ns) as [x|m]; [by destruct (caught x)|].
  destruct (percentage_of e m) as [x|p]; [by destruct (caught x) | done].
Qed.

(** What [group_max] raises: an exception that is caught, or the one [int]
    raises at a count of the group. *)
Lemma group_max_raises l all x :
  group_max l all = inl x ->
  caught x = true
  \/ exists t, t ∈ all /\ speaks l t = true /\ element_count_of t = inl x.
Proof.
  unfold group_max.
  destruct (same_language_tracks l all) as [y|same] eqn:Hs; cbn [mbind result_bind].
  { intros [= <-]. left. by apply same_language_tracks_raises in Hs as [-> _]. }
  apply same_language_tracks_inv in Hs as [_ ->].
  destruct (element_counts _) as [y|ns] eqn:Hn; cbn [mbind result_bind].
  { intros [= <-]. right.
    apply element_counts_raises in Hn as (pre & t & post & Hf & _ & Ht).
    exists t. assert (t ∈ filter (fun t => speaks l t = true) all) as Hin.
    { rewrite Hf. apply elem_of_app. right. by left. }
    apply list_elem_of_filter in Hin as [? ?]. by repeat split. }
  intros H. left. by apply max_raises in H as [-> _].
Qed.

Lemma group_max_raises_quiet l all x :
  Forall quiet all -> group_max l all = inl x -> caught x = true.
Proof.
  intros Hq H. destruct (group_max_raises _ _ _ H) as [|(t & Ht & _ & Hx)]; [done|].
  rewrite Forall_forall in Hq. by apply (Hq t Ht).
Qed.

Lemma Forall2_parses_exists ts :
  Forall (fun t => exists n, parses t n) ts -> exists ns, Forall2 parses ts ns.
Proof.
  induction 1 as [|t r [n Hn] _ [ns IH]]; [by exists [] | exists (n :: ns); by constructor].
Qed.

Lemma Forall2_parses_In_r ts ns n :
  Forall2 parses ts ns -> In n ns -> exists t, t ∈ ts /\ parses t n.
Proof.
  induction 1 as [|t n' ts ns Hp _ IH]; cbn; [done|].
  intros [<- | Hin].
  - exists t. split; [by left | done].
  - destruct (IH Hin) as (t' & Ht' & Hp'). exists t'. split; [by right | done].
Qed.

(** What [group_max] returns, by membership only. *)
Lemma group_max_spec l all m :
  group_max l all = inr m <->
  Forall (fun t => is_Some (tr_language t)) all
  /\ (forall t, t ∈ all -> speaks l t = true -> exists n, parses t n /\ n <= m)
  /\ (exists t, t ∈ all /\ speaks l t = true /\ parses t m).
Proof.
  unfold group_max. split.
  - destruct (same_language_tracks l all) as [y|same] eqn:Hs;
      cbn [mbind result_bind]; [done|].
    apply same_language_tracks_inv in Hs as [Hall ->].
    destruct (element_counts _) as [y|ns] eqn:Hn; cbn [mbind result_bind]; [done|].
    intros Hm. apply max_inv in Hm as [Hin Hle].
    apply element_counts_Forall2 in Hn.
    assert (Forall2 parses (filter (fun t => speaks l t = true) all) ns) as Hp.
    { clear -Hn. induction Hn; constructor; [by apply element_count_of_parses | done]. }
    split; [done|]. split.
    + intros t Ht Hl.
      assert (t ∈ filter (fun t => speaks l t = true) all) as Hf
        by (by apply list_elem_of_filter).
      apply list_elem_of_In in Hf.
      clear -Hp Hf Hle. revert Hf Hle.
      induction Hp as [|t' n ts ns Hpn _ IH]; intros Hf Hle; [done|].
      destruct Hf as [-> | Hf].
      * exists n. split; [done | apply Hle; by left].
      * apply IH; [done|]. intros k Hk. apply Hle. by right.
    + destruct (Forall2_parses_In_r _ _ _ Hp Hin) as (t & Ht & Hpt).
      apply list_elem_of_filter in Ht as [Hl Ht]. eauto.
  - intros (Hall & Hle & (t0 & Ht0 & Hl0 & Hp0)).
    rewrite (same_language_tracks_group _ _ Hall). cbn [mbind result_bind].
    destruct (Forall2_parses_exists (filter (fun t => speaks l t = true) all))
      as [ns Hns].
    { apply Forall_forall. intros t Ht. apply list_elem_of_filter in Ht as [Hl Ht].
      destruct (Hle t Ht Hl) as (n & Hn & _). eauto. }
    rewrite (proj2 (element_counts_Forall2 _ _) (Forall2_parses _ _ Hns)).
    cbn [mbind result_bind]. apply max_is_maximum. split.
    + eapply Forall2_parses_In; [done | | done].
      apply list_elem_of_In. by apply list_elem_of_filter.
    + intros n Hn. destruct (Forall2_parses_In_r _ _ _ Hns Hn) as (t & Ht & Hpt).
      apply list_elem_of_filter in Ht as [Hl Ht].
      destruct (Hle t Ht Hl) as (n' & Hn' & Hle').
      by rewrite (parses_functional _ _ _ Hpt Hn').
Qed.

Lemma same_reading_parses t t' n : same_reading t t' -> parses t n -> parses t' n.
Proof. intros [_ Hc] (s & Hs & Hn). exists s. split; [congruence | done]. Qed.

Lemma same_reading_speaks l t t' : same_reading t t' -> speaks l t = speaks l t'.
Proof. intros [Hl _]. unfold speaks. by rewrite Hl. Qed.

Lemma same_reading_count t t' :
  same_reading t t' -> element_count_of t = element_count_of t'.
Proof. intros [_ Hc]. unfold element_count_of. by rewrite Hc. Qed.

Lemma same_reading_sym t t' : same_reading t t' -> same_reading t' t.
Proof. intros [? ?]. by split. Qed.

Lemma group_max_covered l all all' m :
  covered_by all all' -> covered_by all' all ->
  group_max l all = inr m -> group_max l all' = inr m.
Proof.
  intros H12 H21 Hm. apply group_max_spec in Hm as (Hall & Hle & (t0 & Ht0 & Hl0 & Hp0)).
  apply group_max_spec. split; [|split].
  - apply Forall_forall. intros t' Ht'.
    destruct (H21 t' Ht') as (t & Ht & [Hl _]). rewrite Hl.
    rewrite Forall_forall in Hall. by apply Hall.
  - intros t' Ht' Hl'. destruct (H21 t' Ht') as (t & Ht & Hr).
    destruct (Hle t Ht) as (n & Hn & Hnm).
    { by rewrite <- (same_reading_speaks l _ _ Hr). }
    exists n. split; [|done]. eapply same_reading_parses; [|done].
    by apply same_reading_sym.
  - destruct (H12 t0 Ht0) as (t' & Ht' & Hr). exists t'.
    split; [done|]. split; [by rewrite <- (same_reading_speaks l _ _ Hr)|].
    by eapply same_reading_parses.
Qed.

(** Records that read the same, position by position, give the same group
    maximum or the same exception. *)
Lemma group_max_same_reading l all all' :
  Forall2 same_reading all all' -> group_max l all = group_max l all'.
Proof.
  intros HF. unfold group_max.
  assert (match same_language_tracks l all, same_language_tracks l all' with
          | inl x, inl x' => x = x'
          | inr same, inr same' => Forall2 same_reading same same'
          | _, _ => False
          end) as Hs.
  { induction HF as [|t t' r r' Hr _ IH]; cbn [same_language_tracks]; [constructor|].
    destruct Hr as [Hl Hc]. rewrite <- Hl.
    destruct (tr_language t) as [l0|] eqn:E;
      cbn [getitem Return Raise mbind result_bind]; [|done].
    destruct (same_language_tracks l r) as [x|same],
             (same_language_tracks l r') as [x'|same'];
      cbn [mbind result_bind]; try done.
    unfold Return. destruct (Num.eq l0 l); [|done].
    constructor; [split; congruence | done]. }
  destruct (same_language_tracks l all) as [x|same],
           (same_language_tracks l all') as [x'|same'];
    cbn [mbind result_bind]; try done; [by subst|].
  assert (element_counts same = element_counts same') as ->; [|done].
  induction Hs as [|t t' r r' Hr _ IH]; [done|]. cbn [element_counts].
  by rewrite (same_reading_count _ _ Hr), IH.
Qed.

Lemma should_be_forced_same_reading track all all' :
  Forall2 same_reading all all' ->
  should_be_forced track all = should_be_forced track all'.
Proof.
  intros HF. rewrite !should_be_forced_group_max.
  destruct (element_count_of track) as [x|e]; [done|].
  destruct (tr_language track) as [l|]; [|done].
  by rewrite (group_max_same_reading l _ _ HF).
Qed.

Lemma covered_by_quiet all all' :
  covered_by all' all -> Forall quiet all -> Forall quiet all'.
Proof.
  intros Hc Hq. apply Forall_forall. intros t' Ht'.
  destruct (Hc t' Ht') as (t & Ht & Hr).
  rewrite Forall_forall in Hq. specialize (Hq t Ht).
  unfold quiet in *. by rewrite (same_reading_count _ _ Hr).
Qed.

(** ** What escapes, and what is written *)

Lemma should_be_forced_frame track all :
  snd (should_be_forced track all) = track
  \/ exists p b, should_be_forced track all = (inr b, set_percentage p track).
Proof.
  rewrite should_be_forced_group_max.
  destruct (element_count_of track) as [x|e]; [by left|].
  destruct (tr_language track) as [lang|]; [|by left].
  destruct (group_max lang all) as [x|m]; [by left|].
  destruct (percentage_of e m) as [x|p]; [by left | right; eauto].
Qed.

Lemma element_count_of_raises t x :
  element_count_of t = inl x ->
  caught x = true \/ x = TypeError \/ x = OverflowError.
Proof.
  unfold element_count_of, getitem.
  destruct (tr_element_count t) as [v|]; cbn.
  - intros H. destruct (int_value_raises _ _ H) as [-> | [-> | ->]]; auto.
  - unfold Raise. intros [= <-]. auto.
Qed.

(** X1.  An exception that leaves [should_be_forced] is TypeError or
    OverflowError, and the track is then as it was.  When no element count
    consulted makes [int] raise one of the two (the counts are strings, or
    numbers other than an infinite float), it is OverflowError, from the
    division; and if the track, with a string as its language, is one of
    the siblings, its count is then negative. *)
Theorem should_be_forced_escapes_type_or_overflow track all x :
  fst (should_be_forced track all) = inl x ->
  (x = TypeError \/ x = OverflowError)
  /\ snd (should_be_forced track all) = track
  /\ (quiet track -> Forall quiet all ->
      x = OverflowError
      /\ forall lang, tr_language track = Some (VStr lang) -> In track all ->
         exists e, parses track e /\ e < 0).
Proof.
  rewrite should_be_forced_group_max.
  destruct (element_count_of track) as [y|e] eqn:He.
  { destruct (caught y) eqn:Hc; [done|]. cbn. intros [= ->].
    split; [|split; [done|]].
    - destruct (element_count_of_raises _ _ He) as [|]; [congruence | done].
    - intros Hq. specialize (Hq x He). congruence. }
  destruct (tr_language track) as [l|] eqn:Hl; [|done].
  destruct (group_max l all) as [y|m] eqn:Hm.
  { destruct (caught y) eqn:Hc; [done|]. cbn. intros [= ->].
    split; [|split; [done|]].
    - destruct (group_max_raises _ _ _ Hm) as [|(t & _ & _ & Ht)]; [congruence|].
      destruct (element_count_of_raises _ _ Ht) as [|]; [congruence | done].
    - intros _ Hq. pose proof (group_max_raises_quiet _ _ _ Hq Hm). congruence. }
  destruct (percentage_of e m) as [y|p] eqn:Hp; [|done].
  destruct (percentage_of_raises _ _ _ Hp) as [-> Hmpos].
  cbn. intros [= <-]. split; [by right|]. split; [done|].
  intros _ _. split; [done|]. intros lang [= ->] Hin.
  exists e. split; [by apply element_count_of_parses|].
  destruct (Z.lt_ge_cases e 0) as [|Hge]; [done|]. exfalso.
  assert (e <= m) as Hle.
  { apply group_max_spec in Hm as (_ & Hle & _).
    destruct (Hle track) as (n & Hn & Hnm).
    - by apply list_elem_of_In.
    - by apply speaks_str.
    - apply element_count_of_parses in He.
      by rewrite (parses_functional _ _ _ He Hn). }
  destruct (truediv_le_one e m ltac:(lia) Hmpos) as (q & Hq & _).
  unfold percentage_of in Hp.
  destruct (Z.ltb_spec 0 m); [|lia]. by rewrite Hq in Hp.
Qed.

Lemma should_be_forced_escapes_type_or_overflow_witness :
  OverflowError = OverflowError
  /\ exists e, parses (sample_track "1" "en" (minus_power_of_ten 309)) e /\ e < 0.
Proof.
  destruct (should_be_forced_escapes_type_or_overflow
              (sample_track "1" "en" (minus_power_of_ten 309))
              [sample_track "1" "en" (minus_power_of_ten 309);
               sample_track "2" "en" "1"] OverflowError)
    as (_ & _ & H).
  - vm_compute. reflexivity.
  - destruct H as [Hx He].
    + intros x Hx. vm_compute in Hx. discriminate.
    + repeat constructor; intros x Hx; vm_compute in Hx; discriminate.
    + split; [done|]. apply (He "en"); [reflexivity | by left].
Defined.

(** X2.  A track that is alone in its language group is forced exactly when
    its count is below 400, whatever the sign of the count. *)
Theorem single_track_group_forced_iff_below_400 track all lang e :
  Forall (fun t => is_Some (tr_language t)) all ->
  filter (fun t => tr_language t = Some (VStr lang)) all = [track] ->
  parses track e ->
  fst (should_be_forced track all) = inr (e <? 400).
Proof.
  intros Hall Hone He.
  assert (tr_language track = Some (VStr lang)) as Hlang.
  { assert (track ∈ filter (fun t => tr_language t = Some (VStr lang)) all) as Hin
      by (rewrite Hone; by left).
    by apply list_elem_of_filter in Hin as [? _]. }
  rewrite (should_be_forced_reaches track all lang e [e] e); try done.
  - unfold percentage_of. destruct (Z.ltb_spec 0 e) as [Hpos|Hneg].
    + rewrite (truediv_self e Hpos). cbn [mbind result_bind Return fst].
      f_equal. apply orb_false_r.
    + cbn. f_equal. apply orb_false_r.
  - by apply element_count_of_parses.
  - rewrite Hone. constructor; [by apply element_count_of_parses | constructor].
  - split; [by left | intros n [<- | []]; lia].
Qed.

Lemma single_track_group_forced_iff_below_400_witness :
  fst (should_be_forced (sample_track "1" "en" "1000")
         [sample_track "1" "en" "1000"; sample_track "2" "de" "7"])
  = inr (1000 <? 400).
Proof.
  apply (single_track_group_forced_iff_below_400
           (sample_track "1" "en" "1000")
           [sample_track "1" "en" "1000"; sample_track "2" "de" "7"] "en" 1000).
  - repeat constructor; eexists; reflexivity.
  - vm_compute. reflexivity.
  - solve_parses.
Defined.

(** X3.  When no sibling has an element count that makes [int] raise
    TypeError or OverflowError, classification reads the siblings as a set
    of (language, count) pairs: two sibling lists that hold the same pairs,
    in any order and any number of times, with whatever other fields, give
    the same result and leave the track the same. *)
Theorem should_be_forced_reads_language_and_count track all all' :
  Forall quiet all ->
  covered_by all all' -> covered_by all' all ->
  should_be_forced track all = should_be_forced track all'.
Proof.
  intros Hq H12 H21. rewrite !should_be_forced_group_max.
  pose proof (covered_by_quiet _ _ H21 Hq) as Hq'.
  destruct (element_count_of track) as [x|e]; [done|].
  destruct (tr_language track) as [lang|]; [|done].
  destruct (group_max lang all) as [x|m] eqn:H1.
  - destruct (group_max lang all') as [x'|m'] eqn:H2.
    + by rewrite (group_max_raises_quiet _ _ _ Hq H1),
                 (group_max_raises_quiet _ _ _ Hq' H2).
    + by rewrite (group_max_covered _ _ _ _ H21 H12 H2) in H1.
  - by rewrite (group_max_covered _ _ _ _ H12 H21 H1).
Qed.

Lemma should_be_forced_reads_language_and_count_witness :
  should_be_forced (sample_track "1" "de" "500")
    [sample_track "1" "de" "500"; sample_track "2" "de" "3000";
     sample_track "3" "de" "abc"]
  = should_be_forced (sample_track "1" "de" "500")
      [sample_track "9" "de" "abc"; sample_track "1" "de" "500";
       sample_track "7" "de" "3000"; sample_track "8" "de" "3000"].
Proof.
  apply (should_be_forced_reads_language_and_count (sample_track "1" "de" "500")
           [sample_track "1" "de" "500"; sample_track "2" "de" "3000";
            sample_track "3" "de" "abc"]
           [sample_track "9" "de" "abc"; sample_track "1" "de" "500";
            sample_track "7" "de" "3000"; sample_track "8" "de" "3000"]).
  - repeat constructor; intros x Hx; vm_compute in Hx;
      by (discriminate || injection Hx as <-).
  - intros t Ht. apply list_elem_of_In in Ht. destruct Ht as [<- | [<- | [<- | []]]].
    + exists (sample_track "1" "de" "500").
      split; [apply list_elem_of_In; cbn; auto | by split].
    + exists (sample_track "7" "de" "3000").
      split; [apply list_elem_of_In; cbn; auto | by split].
    + exists (sample_track "9" "de" "abc").
      split; [apply list_elem_of_In; cbn; auto | by split].
  - intros t Ht. apply list_elem_of_In in Ht.
    destruct Ht as [<- | [<- | [<- | [<- | []]]]].
    + exists (sample_track "3" "de" "abc").
      split; [apply list_elem_of_In; cbn; auto | by split].
    + exists (sample_track "1" "de" "500").
      split; [apply list_elem_of_In; cbn; auto | by split].
    + exists (sample_track "2" "de" "3000").
      split; [apply list_elem_of_In; cbn; auto | by split].
    + exists (sample_track "2" "de" "3000").
      split; [apply list_elem_of_In; cbn; auto | by split].
Defined.

(** X4.  Tracks of other languages do not matter: as long as every record
    has a language, classifying against the whole file and against the
    language group of the track alone is the same. *)
Theorem should_be_forced_ignores_other_languages track all lang :
  Forall (fun t => is_Some (tr_language t)) all ->
  tr_language track = Some (VStr lang) ->
  should_be_forced track all
  = should_be_forced track (filter (fun t => tr_language t = Some (VStr lang)) all).
Proof.
  intros Hall Hlang. rewrite !should_be_forced_group_max, Hlang.
  destruct (element_count_of track) as [x|e]; [done|].
  assert (Forall (fun t => is_Some (tr_language t))
            (filter (fun t => tr_language t = Some (VStr lang)) all)) as Hall'.
  { apply Forall_forall. intros t Ht. apply list_elem_of_filter in Ht as [-> _]. eauto. }
  assert (group_max lang all
          = group_max lang (filter (fun t => tr_language t = Some (VStr lang)) all))
    as ->; [|done].
  unfold group_max.
  rewrite (same_language_tracks_filter _ _ Hall), (same_language_tracks_filter _ _ Hall').
  by rewrite list_filter_filter_l.
Qed.

Lemma should_be_forced_ignores_other_languages_witness :
  should_be_forced (sample_track "1" "en" "1000")
    [sample_track "1" "en" "1000"; sample_track "2" "de" "7"]
  = should_be_forced (sample_track "1" "en" "1000")
      (filter (fun t => tr_language t = Some (VStr "en"))
         [sample_track "1" "en" "1000"; sample_track "2" "de" "7"]).
Proof.
  apply (should_be_forced_ignores_other_languages (sample_track "1" "en" "1000")
           [sample_track "1" "en" "1000"; sample_track "2" "de" "7"] "en").
  - repeat constructor; eexists; reflexivity.
  - reflexivity.
Defined.

(** X5.  A call writes nothing but 'percentage': the track comes back
    untouched, or with its 'percentage' set and a bool returned. *)
Theorem should_be_forced_writes_percentage_only track all :
  snd (should_be_forced track all) = track
  \/ exists p b, should_be_forced track all = (inr b, set_percentage p track).
Proof. apply should_be_forced_frame. Qed.

(** * Further properties of [analyze_subtitle_tracks] *)

(** X6.  The first loop keeps the tracks of type 'Text', in the reader's
    order; one track without a '@type' makes it raise KeyError, whatever the
    other tracks are. *)
Theorem collect_subtitles_spec tracks :
  collect_subtitles tracks
  = if decide (Forall (fun track => is_Some (track !! "@type")) tracks)
    then inr (map subtitle_track (text_tracks tracks))
    else inl KeyError.
Proof.
  unfold text_tracks. induction tracks as [|track r IH]; [done|].
  cbn [collect_subtitles]. rewrite filter_cons.
  destruct (track !! "@type") as [ty|] eqn:Hty; cbn [getitem Return Raise mbind result_bind].
  - rewrite IH. destruct (decide (Forall _ r)) as [Hr|Hr]; cbn [mbind result_bind].
    + rewrite decide_True by (constructor; [by rewrite Hty | done]).
      destruct (Num.eq ty "Text") eqn:E.
      * apply eq_str in E as ->. by rewrite decide_True.
      * rewrite decide_False; [done|]. intros [= ->].
        by rewrite (proj2 (eq_str "Text" "Text") eq_refl) in E.
    + rewrite decide_False; [done|]. intros H. apply Hr. by inversion H.
  - rewrite decide_False; [done|]. intros H. inversion H as [|? ? Hs _]; subst.
    rewrite Hty in Hs. by apply is_Some_None in Hs.
Qed.

Lemma should_be_forced_keeps_reading track all :
  same_reading (snd (should_be_forced track all)) track.
Proof.
  destruct (should_be_forced_frame track all)
    as [-> | (p & b & ->)]; by split.
Qed.

Lemma classify_one_reading info track track' :
  classify_one info track = inr track' -> same_reading track' track.
Proof.
  unfold classify_one.
  pose proof (should_be_forced_keeps_reading track info) as [Hl Hc].
  destruct (should_be_forced track info) as [[x|b] t]; [done|].
  cbn [mbind result_bind]. intros [= <-]. by split.
Qed.

Lemma Forall2_same_reading_refl ts : Forall2 same_reading ts ts.
Proof. induction ts; constructor; [by split | done]. Qed.

Lemma map_result_app {A B} (f : A -> result B) xs ys :
  map_result f (xs ++ ys)
  = (a ← map_result f xs; b ← map_result f ys; Return (a ++ b)).
Proof.
  induction xs as [|x xs IH]; cbn [map_result app mbind result_bind].
  - by destruct (map_result f ys).
  - destruct (f x) as [|y]; [done|]. cbn [mbind result_bind]. rewrite IH.
    destruct (map_result f xs) as [|a]; [done|]. cbn [mbind result_bind].
    by destruct (map_result f ys).
Qed.

Lemma map_result_Forall2 {A B} (f : A -> result B) xs ys :
  map_result f xs = inr ys <-> Forall2 (fun x y => f x = inr y) xs ys.
Proof.
  revert ys. induction xs as [|x xs IH]; intros ys; cbn [map_result].
  - split; [intros [= <-]; constructor | by inversion 1].
  - destruct (f x) as [e|y] eqn:Hy; cbn [mbind result_bind].
    + split; [done | inversion 1; congruence].
    + destruct (map_result f xs) as [e|zs]; cbn [mbind result_bind].
      * split; [done|]. inversion 1; subst.
        match goal with H : Forall2 _ xs _ |- _ => by apply IH in H end.
      * split.
        -- intros [= <-]. constructor; [done | by apply IH].
        -- inversion 1; subst.
           match goal with H : Forall2 _ xs _ |- _ => apply IH in H end.
           unfold Return. congruence.
Qed.

(** The in-place loop from position [i] on, when the tracks before [i] have
    been classified already. *)
Lemma classify_all_from info k : forall i done,
  (i + k = length info)%nat ->
  map_result (classify_one info) (take i info) = inr done ->
  classify_all (seq i k) (done ++ drop i info)
  = (rest ← map_result (classify_one info) (drop i info); Return (done ++ rest)).
Proof.
  induction k as [|k IH]; intros i done Hlen Hdone.
  - rewrite drop_ge by lia. cbn. by rewrite !app_nil_r.
  - pose proof (proj1 (map_result_Forall2 _ _ _) Hdone) as HF.
    assert (length done = i) as Hd.
    { rewrite <- (Forall2_length _ _ _ HF), length_take. lia. }
    destruct (lookup_lt_is_Some_2 info i ltac:(lia)) as [track Htrack].
    rewrite (drop_S _ _ _ Htrack).
    cbn [seq classify_all map_result].
    rewrite lookup_app_r by lia. rewrite Hd, Nat.sub_diag. cbn [lookup list_lookup].
    assert (should_be_forced track (done ++ track :: drop (S i) info)
            = should_be_forced track info) as ->.
    { assert (Forall2 same_reading (done ++ track :: drop (S i) info) info) as HR.
      { rewrite <- (take_drop i info) at 2. rewrite (drop_S _ _ _ Htrack).
        apply Forall2_app; [|apply Forall2_same_reading_refl].
        clear -HF. induction HF; constructor; [by eapply classify_one_reading | done]. }
      by apply should_be_forced_same_reading. }
    assert (forall K : Track -> result (list Track),
              (let '(res, track') := should_be_forced track info in
               b ← res; K (set_should_be_forced b track'))
              = (t1 ← classify_one info track; K t1)) as Hstep.
    { intros K. unfold classify_one.
      by destruct (should_be_forced track info) as [[x|b] t]. }
    rewrite (Hstep (fun t1 => classify_all (seq (S i) k)
                                (<[i:=t1]> (done ++ track :: drop (S i) info)))).
    destruct (classify_one info track) as [x|t1] eqn:Hc; [done|].
    cbn [mbind result_bind].
    rewrite insert_app_r_alt by lia. rewrite Hd, Nat.sub_diag. cbn [insert list_insert].
    specialize (IH (S i) (done ++ [t1]) ltac:(lia)).
    rewrite <- app_assoc in IH. cbn [app] in IH. rewrite IH.
    + destruct (map_result (classify_one info) (drop (S i) info)) as [|rest]; [done|].
      cbn [mbind result_bind]. by rewrite <- app_assoc.
    + rewrite (take_S_r _ _ _ Htrack), map_result_app, Hdone.
      cbn [mbind result_bind map_result]. by rewrite Hc.
Qed.

Lemma analyze_subtitle_tracks_map tracks :
  analyze_subtitle_tracks tracks
  = (subtitle_info ← collect_subtitles tracks;
     map_result (classify_one subtitle_info) subtitle_info).
Proof.
  unfold analyze_subtitle_tracks.
  destruct (collect_subtitles tracks) as [x|info]; [done|]. cbn [mbind result_bind].
  pose proof (classify_all_from info (length info) 0 [] eq_refl eq_refl) as H.
  rewrite drop_0 in H. cbn [app] in H. rewrite H.
  by destruct (map_result (classify_one info) info).
Qed.

(** X7.  The in-place loop is a plain map: every track is classified as if
    the list were the one the first loop built, untouched.  What earlier
    iterations wrote to the shared dicts changes no later result, and the
    first exception that escapes a classification is the one the whole
    analysis raises. *)
Theorem analyze_subtitle_tracks_classifies_against_original tracks :
  analyze_subtitle_tracks tracks
  = (subtitle_info ← collect_subtitles tracks;
     map_result (classify_one subtitle_info) subtitle_info).
Proof. apply analyze_subtitle_tracks_map. Qed.

Lemma group_max_exists (lang : string) all :
  Forall (fun t => is_Some (tr_language t)) all ->
  (forall t, t ∈ all -> tr_language t = Some (VStr lang) -> exists n, parses t n) ->
  (exists t, t ∈ all /\ tr_language t = Some (VStr lang)) ->
  exists m, group_max lang all = inr m.
Proof.
  intros Hall Hp (t0 & Ht0 & Hl0). unfold group_max.
  rewrite (same_language_tracks_filter _ _ Hall). cbn [mbind result_bind].
  destruct (Forall2_parses_exists (filter (fun t => tr_language t = Some (VStr lang)) all))
    as [ns Hns].
  { apply Forall_forall. intros t Ht. apply list_elem_of_filter in Ht as [Hl Ht]. auto. }
  rewrite (proj2 (element_counts_Forall2 _ _) (Forall2_parses _ _ Hns)).
  cbn [mbind result_bind].
  destruct ns as [|n ns]; [|by eexists].
  inversion Hns as [Hnil|]; subst.
  assert (t0 ∈ filter (fun t => tr_language t = Some (VStr lang)) all) as Hin
    by (by apply list_elem_of_filter).
  rewrite <- Hnil in Hin. by apply elem_of_nil in Hin.
Qed.

(** X8.  A subtitle track for which the reader gives no element count, under
    none of the three spellings, counts as having 0 elements; with a string
    as its language (the reader's, or the default) it is therefore
    classified as forced whenever the counts of its language group parse. *)
Theorem track_without_count_is_forced track subtitle_info :
  track !! "Count_of_elements" = None ->
  track !! "Count of elements" = None ->
  track !! "ElementCount" = None ->
  (forall v, track !! "Language" = Some v -> exists s, v = VStr s) ->
  Forall (fun t => is_Some (tr_language t)) subtitle_info ->
  subtitle_track track ∈ subtitle_info ->
  (forall t, t ∈ subtitle_info ->
     tr_language t = tr_language (subtitle_track track) -> exists n, parses t n) ->
  tr_element_count (subtitle_track track) = Some (VStr "0")
  /\ fst (should_be_forced (subtitle_track track) subtitle_info) = inr true.
Proof.
  intros H1 H2 H3 Hstr Hall Hin Hp.
  assert (tr_element_count (subtitle_track track) = Some (VStr "0")) as Hc.
  { unfold subtitle_track, dict_get. cbn [tr_element_count].
    by rewrite H1, H2, H3. }
  split; [done|].
  rewrite should_be_forced_group_max.
  unfold element_count_of. rewrite Hc. cbn [getitem Return mbind result_bind].
  change (Num.int_value "0") with (@inr exn Z 0).
  assert (exists lang : string,
            tr_language (subtitle_track track) = Some (VStr lang)) as [lang Hlang].
  { unfold subtitle_track, dict_get. cbn [tr_language].
    destruct (track !! "Language") as [v|] eqn:E; cbn [default]; [|by eexists].
    destruct (Hstr v eq_refl) as [s ->]. by eexists. }
  rewrite Hlang in *.
  destruct (group_max_exists lang subtitle_info Hall) as [m Hm].
  { intros t Ht Hl. by apply Hp. }
  { eauto. }
  rewrite Hm. unfold percentage_of.
  destruct (0 <? m) eqn:Hpos; [|done].
  unfold Num.truediv. apply Z.ltb_lt in Hpos.
  destruct (Z.eqb_spec m 0); [lia|]. done.
Qed.

Lemma track_without_count_is_forced_witness :
  tr_element_count (subtitle_track {[ "@type" := VStr "Text"; "ID" := VInt 3 ]})
  = Some (VStr "0")
  /\ fst (should_be_forced
            (subtitle_track {[ "@type" := VStr "Text"; "ID" := VInt 3 ]})
            [subtitle_track {[ "@type" := VStr "Text"; "ID" := VInt 3 ]};
             sample_track "4" "unknown" "5000"]) = inr true.
Proof.
  apply (track_without_count_is_forced
           {[ "@type" := VStr "Text"; "ID" := VInt 3 ]}
           [subtitle_track {[ "@type" := VStr "Text"; "ID" := VInt 3 ]};
            sample_track "4" "unknown" "5000"]).
  - vm_compute. reflexivity.
  - vm_compute. reflexivity.
  - vm_compute. reflexivity.
  - intros v Hv. vm_compute in Hv. discriminate.
  - repeat constructor; eexists; reflexivity.
  - by left.
  - intros t Ht _. apply list_elem_of_In in Ht. destruct Ht as [<- | [<- | []]].
    + exists 0. eexists. split; [vm_compute; reflexivity | vm_compute; reflexivity].
    + exists 5000. solve_parses.
Defined.

(** * Further properties of the reconciler *)

Lemma parse_lines_app st a b :
  parse_lines st (a ++ b) = (st' ← parse_lines st a; parse_lines st' b).
Proof.
  revert st. induction a as [|l a IH]; intros st; cbn [parse_lines app].
  - done.
  - destruct (parse_line st l) as [x|st1]; [done|]. cbn [mbind result_bind]. apply IH.
Qed.

(** What one line adds to the mapping does not depend on the mapping. *)
Lemma parse_line_delta cur raw :
  well_formed cur ->
  exists d cur',
    well_formed cur'
    /\ forall base, parse_line (base, cur) raw = inr (d ∪ base, cur').
Proof.
  intros Hwf. unfold parse_line.
  destruct (Str.contains "| + Track" (Str.strip raw)).
  { exists ∅, (Some empty_track). split.
    - split; intros H; by apply is_Some_None in H.
    - intros base. by rewrite (left_id_L ∅ (∪)). }
  destruct cur as [cur|].
  2: { exists ∅, None. split; [done|]. intros base. by rewrite (left_id_L ∅ (∪)). }
  destruct (Str.contains "Track number:" (Str.strip raw)).
  { destruct (extract_ids (Str.strip raw)) as [e|[n i]].
    - exists ∅, (Some cur). split; [done|]. intros base. by rewrite (left_id_L ∅ (∪)).
    - exists ∅, (Some (mkCurrent (Some n) (Some i))). split; [split; eauto|].
      intros base. by rewrite (left_id_L ∅ (∪)). }
  destruct (Str.contains "Track type:" (Str.strip raw)); cbn [andb].
  2: { exists ∅, (Some cur). split; [done|]. intros base. by rewrite (left_id_L ∅ (∪)). }
  destruct (Str.contains "subtitles" (Str.lower (Str.strip raw))).
  2: { exists ∅, None. split; [done|]. intros base. by rewrite (left_id_L ∅ (∪)). }
  destruct (number cur) as [n|] eqn:Hn.
  2: { exists ∅, None. split; [done|]. intros base. by rewrite (left_id_L ∅ (∪)). }
  destruct Hwf as [Hwf _]. destruct Hwf as [i Hi]; [rewrite Hn; eauto|].
  exists {[ n := i ]}, None. split; [done|]. intros base.
  rewrite Hi. cbn [getitem Return mbind result_bind].
  by rewrite insert_union_singleton_l.
Qed.

Lemma parse_lines_delta lines cur :
  well_formed cur ->
  exists d cur',
    forall base, parse_lines (base, cur) lines = inr (d ∪ base, cur').
Proof.
  revert cur. induction lines as [|l r IH]; intros cur Hwf.
  - exists ∅, cur. intros base. cbn. by rewrite (left_id_L ∅ (∪)).
  - destruct (parse_line_delta cur l Hwf) as (d1 & c1 & Hwf1 & H1).
    destruct (IH c1 Hwf1) as (d2 & c2 & H2).
    exists (d2 ∪ d1), c2. intros base. cbn [parse_lines].
    rewrite H1. cbn [mbind result_bind]. rewrite H2.
    by rewrite (assoc_L (∪)).
Qed.

(** X9.  Dumps compose: when the lines [a] leave no track entry open, the
    lines [a ++ b] give the mapping of [b] laid over the mapping of [a]: the
    entries of [b] win, the other entries of [a] stay. *)
Theorem parse_lines_of_concatenation a b ma mb cb :
  parse_lines (∅, None) a = inr (ma, None) ->
  parse_lines (∅, None) b = inr (mb, cb) ->
  parse_lines (∅, None) (a ++ b) = inr (mb ∪ ma, cb).
Proof.
  intros Ha Hb. rewrite parse_lines_app, Ha. cbn [mbind result_bind].
  destruct (parse_lines_delta b None I) as (d & c & Hd).
  rewrite (Hd ∅), (right_id_L ∅ (∪)) in Hb. injection Hb as -> ->.
  apply Hd.
Qed.

Lemma parse_lines_of_concatenation_witness :
  parse_lines (∅, None)
    (Str.split newline duplicate_dump ++ Str.split newline sample_dump)
  = inr ({["3" := "2"]} ∪ {["3" := "7"]}, None).
Proof.
  apply (parse_lines_of_concatenation
           (Str.split newline duplicate_dump) (Str.split newline sample_dump)
           {["3" := "7"]} {["3" := "2"]} None).
  - vm_compute. reflexivity.
  - vm_compute. reflexivity.
Defined.

(** X10.  Without a new-track line nothing is committed, whatever the other
    lines say. *)
Theorem no_new_track_line_no_mapping dump :
  Forall (fun raw => Str.contains "| + Track" (Str.strip raw) = false)
         (Str.split newline dump) ->
  parse_mkvinfo_output dump = inr ∅.
Proof.
  intros H. unfold parse_mkvinfo_output.
  assert (parse_lines (∅, None) (Str.split newline dump) = inr (∅, None)) as ->; [|done].
  induction H as [|l r Hl _ IH]; [done|].
  cbn [parse_lines]. unfold parse_line. rewrite Hl. cbn [mbind result_bind]. exact IH.
Qed.

Lemma no_new_track_line_no_mapping_witness :
  parse_mkvinfo_output
    (join_lines ["|  + Track number: 3 (track ID for mkvmerge & mkvextract: 2)";
                 "|  + Track type: subtitles"]) = inr ∅.
Proof.
  apply (no_new_track_line_no_mapping
           (join_lines ["|  + Track number: 3 (track ID for mkvmerge & mkvextract: 2)";
                        "|  + Track type: subtitles"])).
  vm_compute. repeat constructor.
Defined.

(** ** Strings: characters, splitting and stripping *)

Lemma contains_char c s : Str.contains (String c EmptyString) s = has_char c s.
Proof.
  induction s as [|a r IH]; [done|].
  cbn [Str.contains String.prefix has_char].
  destruct (ascii_dec c a) as [->|Hne].
  - rewrite Ascii.eqb_refl. by destruct r.
  - rewrite IH. destruct (Ascii.eqb_spec a c) as [->|_]; [done|]. done.
Qed.

Lemma append_cons a r s : String.append (String a r) s = String a (String.append r s).
Proof. reflexivity. Qed.

Lemma has_char_app c s1 s2 :
  has_char c (String.append s1 s2) = has_char c s1 || has_char c s2.
Proof.
  induction s1 as [|a r IH]; [done|]. rewrite append_cons. cbn [has_char].
  rewrite IH. by rewrite orb_assoc.
Qed.

Lemma split_not_nil c s : Str.split c s <> [].
Proof.
  destruct s as [|a r]; [done|]. cbn.
  destruct (Ascii.eqb a c); [done|]. by destruct (Str.split c r).
Qed.

Lemma split_no_char c s : has_char c s = false -> Str.split c s = [s].
Proof.
  induction s as [|a r IH]; [done|]. cbn.
  destruct (Ascii.eqb a c); [done|]. cbn. intros H. by rewrite (IH H).
Qed.

Lemma split_app c s1 s2 :
  has_char c s1 = false ->
  Str.split c (String.append s1 (String c s2)) = s1 :: Str.split c s2.
Proof.
  induction s1 as [|a r IH].
  - intros _. change (String.append EmptyString (String c s2)) with (String c s2).
    cbn [Str.split]. by rewrite Ascii.eqb_refl.
  - rewrite append_cons. cbn [Str.split has_char].
    destruct (Ascii.eqb a c); [done|]. cbn [orb]. intros H. by rewrite (IH H).
Qed.

(** A piece of a split holds no separator, and no character the string did
    not hold. *)
Lemma split_pieces c d s p :
  p ∈ Str.split c s ->
  has_char c p = false /\ (has_char d s = false -> has_char d p = false).
Proof.
  revert p. induction s as [|a r IH]; intros p; cbn [Str.split].
  - intros Hp. apply list_elem_of_singleton in Hp as ->. done.
  - destruct (Ascii.eqb_spec a c) as [->|Hne].
    + intros Hp. apply elem_of_cons in Hp as [-> | Hp].
      * done.
      * destruct (IH p Hp) as [H1 H2]. split; [done|]. cbn.
        intros H. apply orb_false_iff in H as [_ H]. auto.
    + pose proof (split_not_nil c r) as Hnil.
      destruct (Str.split c r) as [|q qs] eqn:Hs; [done|].
      intros Hp. apply elem_of_cons in Hp as [-> | Hp].
      * destruct (IH q ltac:(by left)) as [H1 H2]. cbn. split.
        -- rewrite H1. by destruct (Ascii.eqb_spec a c).
        -- intros H. apply orb_false_iff in H as [Ha H]. rewrite Ha. cbn. auto.
      * destruct (IH p ltac:(by right)) as [H1 H2]. split; [done|]. cbn.
        intros H. apply orb_false_iff in H as [_ H]. auto.
Qed.

Lemma index_elem_of {A} (l : list A) i x : Str.index l i = inr x -> x ∈ l.
Proof.
  unfold Str.index. destruct (l !! i) eqn:E; [|done].
  intros [= <-]. by eapply list_elem_of_lookup_2.
Qed.

Lemma lstrip_has_char sp c s :
  has_char c s = false -> has_char c (Str.lstrip_with sp s) = false.
Proof.
  induction s as [|a r IH]; [done|]. cbn [Str.lstrip_with].
  destruct (sp a); [|done]. cbn. intros H. apply orb_false_iff in H as [_ H]. auto.
Qed.

Lemma rstrip_has_char sp c s :
  has_char c s = false -> has_char c (Str.rstrip_with sp s) = false.
Proof.
  induction s as [|a r IH]; [done|]. cbn [Str.rstrip_with has_char].
  intros H. apply orb_false_iff in H as [Ha H]. specialize (IH H).
  destruct (Str.rstrip_with sp r) as [|b r'].
  - destruct (sp a); [done|]. cbn. by rewrite Ha.
  - cbn [has_char] in *. by rewrite Ha.
Qed.

Lemma strip_has_char c s : has_char c s = false -> has_char c (Str.strip s) = false.
Proof. intros H. by apply rstrip_has_char, lstrip_has_char. Qed.

Lemma rstrip_idempotent sp s :
  Str.rstrip_with sp (Str.rstrip_with sp s) = Str.rstrip_with sp s.
Proof.
  induction s as [|a r IH]; [done|]. cbn [Str.rstrip_with].
  destruct (Str.rstrip_with sp r) as [|b r'] eqn:Hr.
  - destruct (sp a) eqn:Ha; [done|]. cbn. by rewrite Ha.
  - cbn [Str.rstrip_with]. cbn [Str.rstrip_with] in IH. by rewrite IH.
Qed.

(** The string does not start with a character that [sp] accepts. *)
Lemma lstrip_fixed sp s :
  match s with EmptyString => True | String a _ => sp a = false end ->
  Str.lstrip_with sp s = s.
Proof. destruct s as [|a r]; [done|]. cbn. by intros ->. Qed.

Lemma lstrip_starts sp s :
  match Str.lstrip_with sp s with
  | EmptyString => True
  | String a _ => sp a = false
  end.
Proof.
  induction s as [|a r IH]; [done|]. cbn [Str.lstrip_with].
  by destruct (sp a) eqn:Ha.
Qed.

Lemma rstrip_starts sp s :
  match s with EmptyString => True | String a _ => sp a = false end ->
  match Str.rstrip_with sp s with
  | EmptyString => True
  | String a _ => sp a = false
  end.
Proof.
  destruct s as [|a r]; [done|]. cbn [Str.rstrip_with]. intros Ha.
  destruct (Str.rstrip_with sp r); [by rewrite Ha | done].
Qed.

Lemma strip_idempotent s : Str.strip (Str.strip s) = Str.strip s.
Proof.
  unfold Str.strip.
  rewrite (lstrip_fixed _ (Str.rstrip_with _ _)).
  - apply rstrip_idempotent.
  - apply rstrip_starts, lstrip_starts.
Qed.

Lemma lstrip_all_space s : all_space s = true -> Str.lstrip_with Str.is_space s = EmptyString.
Proof.
  induction s as [|a r IH]; [done|]. cbn.
  intros H. apply andb_true_iff in H as [-> H]. auto.
Qed.

Lemma rstrip_all_space s : all_space s = true -> Str.rstrip_with Str.is_space s = EmptyString.
Proof.
  induction s as [|a r IH]; [done|]. cbn.
  intros H. apply andb_true_iff in H as [Ha H]. by rewrite (IH H), Ha.
Qed.

Lemma lstrip_pad pad s :
  all_space pad = true ->
  Str.lstrip_with Str.is_space (String.append pad s) = Str.lstrip_with Str.is_space s.
Proof.
  induction pad as [|a r IH]; [done|]. rewrite append_cons.
  cbn [all_space Str.lstrip_with].
  intros H. apply andb_true_iff in H as [-> H]. auto.
Qed.

Lemma rstrip_pad s pad :
  all_space pad = true ->
  Str.rstrip_with Str.is_space (String.append s pad) = Str.rstrip_with Str.is_space s.
Proof.
  intros Hpad. induction s as [|a r IH].
  - by apply rstrip_all_space.
  - rewrite append_cons. cbn [Str.rstrip_with]. by rewrite IH.
Qed.

Lemma strip_pad pad s pad' :
  all_space pad = true -> all_space pad' = true ->
  Str.strip (String.append pad (String.append s pad')) = Str.strip s.
Proof.
  intros Hp Hp'. unfold Str.strip. rewrite (lstrip_pad _ _ Hp).
  induction s as [|a r IH].
  - change (String.append EmptyString pad') with pad'.
    by rewrite (lstrip_all_space _ Hp').
  - rewrite append_cons. cbn [Str.lstrip_with].
    destruct (Str.is_space a); [done|].
    rewrite <- append_cons. by apply rstrip_pad.
Qed.

(** X11.  Leading and trailing whitespace of a line (indentation, a carriage
    return at its end) never changes what the line does. *)
Theorem parse_line_ignores_surrounding_whitespace st pad raw pad' :
  all_space pad = true -> all_space pad' = true ->
  parse_line st (String.append pad (String.append raw pad')) = parse_line st raw.
Proof.
  intros Hp Hp'. unfold parse_line. by rewrite (strip_pad _ _ _ Hp Hp').
Qed.

Lemma parse_line_ignores_surrounding_whitespace_witness :
  parse_line (∅, Some (mkCurrent (Some "3") (Some "2")))
    (String.append (String (ascii_of_N 9) " ")
       (String.append "| + Track type: subtitles" (String (ascii_of_N 13) EmptyString)))
  = parse_line (∅, Some (mkCurrent (Some "3") (Some "2"))) "| + Track type: subtitles".
Proof.
  apply (parse_line_ignores_surrounding_whitespace
           (∅, Some (mkCurrent (Some "3") (Some "2")))
           (String (ascii_of_N 9) " ") "| + Track type: subtitles"
           (String (ascii_of_N 13) EmptyString)); reflexivity.
Defined.

Lemma string_app_assoc (x y z : string) :
  String.append (String.append x y) z = String.append x (String.append y z).
Proof. induction x as [|c x IH]; [done|]. rewrite !append_cons. by rewrite IH. Qed.

(** X12.  Round trip of the track-number line: from the line in the format
    of the comment of line 108, built from two indices that carry no
    surrounding whitespace and none of the punctuation the line is split
    on, [extract_ids] gives the two indices back. *)
Theorem extract_ids_of_track_number_line a b :
  Str.strip a = a -> Str.strip b = b ->
  Str.contains ":" a = false -> Str.contains "(" a = false ->
  Str.contains ":" b = false -> Str.contains "(" b = false ->
  Str.contains ")" b = false ->
  extract_ids (track_number_line a b) = inr (a, b).
Proof.
  rewrite !contains_char. intros Ha Hb Ha1 Ha2 Hb1 Hb2 Hb3.
  unfold extract_ids, track_number_line.
  change (String.append "|  + Track number: "
            (String.append a
               (String.append " (track ID for mkvmerge & mkvextract: "
                  (String.append b ")"))))
    with (String.append "|  + Track number"
            (String ":" (String.append " "
               (String.append a
                  (String " " (String "("
                     (String.append "track ID for mkvmerge & mkvextract"
                        (String ":" (String " " (String.append b ")")))))))))).
  assert (forall x y z : string,
            String.append x (String ":" (String.append " " (String.append y (String " " z))))
            = String.append
                (String.append x (String ":" (String.append " " (String.append y " ")))) z)
    as Hassoc.
  { intros x y z. rewrite !string_app_assoc. rewrite !append_cons.
    change (String.append EmptyString ?t) with t.
    rewrite !string_app_assoc. reflexivity. }
  rewrite Hassoc. rewrite split_app.
  2: { rewrite !has_char_app. cbn. rewrite !has_char_app, Ha2. done. }
  rewrite split_no_char.
  2: { rewrite !has_char_app. cbn. rewrite !has_char_app, Hb2. done. }
  cbn [Str.index lookup list_lookup Return mbind result_bind].
  rewrite (split_app ":" "|  + Track number") by done.
  rewrite (split_app ":" "track ID for mkvmerge & mkvextract") by done.
  rewrite (split_no_char ":" (String.append " " (String.append a " "))).
  2: { rewrite !has_char_app, Ha1. done. }
  rewrite (split_no_char ":" (String " " (String.append b ")"))).
  2: { cbn [has_char]. rewrite has_char_app, Hb1. done. }
  cbn [Str.index lookup list_lookup Return mbind result_bind].
  change (String " " (String.append b ")")) with
    (String.append (String.append " " b) (String ")" EmptyString)).
  rewrite (split_app ")" (String.append " " b) EmptyString).
  2: { rewrite has_char_app, Hb3. done. }
  cbn [Str.index lookup list_lookup Return mbind result_bind].
  rewrite (strip_pad " " a " ") by done.
  replace (String.append " " b) with (String.append " " (String.append b EmptyString)).
  2: { f_equal. clear. induction b as [|c b IH]; [done | by rewrite append_cons, IH]. }
  rewrite (strip_pad " " b EmptyString) by done.
  by rewrite Ha, Hb.
Qed.

Lemma extract_ids_of_track_number_line_witness :
  extract_ids "|  + Track number: 45 (track ID for mkvmerge & mkvextract: 33)"
  = inr ("45", "33").
Proof.
  apply (extract_ids_of_track_number_line "45" "33"); vm_compute; reflexivity.
Defined.

(** ** What the mapping holds *)

Lemma extract_ids_clean line a b :
  has_char newline line = false ->
  extract_ids line = inr (a, b) -> clean_number a /\ clean_id b.
Proof.
  intros Hnl. unfold extract_ids.
  destruct (Str.index (Str.split "(" line) 0) as [|p0] eqn:E0; [done|].
  cbn [mbind result_bind].
  destruct (Str.index (Str.split ":" p0) 1) as [|n] eqn:E1; [done|].
  cbn [mbind result_bind].
  destruct (Str.index (Str.split "(" line) 1) as [|p1] eqn:E2; [done|].
  cbn [mbind result_bind].
  destruct (Str.index (Str.split ":" p1) 1) as [|a1] eqn:E3; [done|].
  cbn [mbind result_bind].
  destruct (Str.index (Str.split ")" a1) 0) as [|b1] eqn:E4; [done|].
  cbn [mbind result_bind Return]. intros [= <- <-].
  apply index_elem_of in E0, E1, E2, E3, E4.
  destruct (split_pieces "(" newline _ _ E0) as [H0 H0'].
  destruct (split_pieces "(" newline _ _ E2) as [H2 H2'].
  destruct (split_pieces ":" "(" _ _ E1) as [H1 H1'].
  destruct (split_pieces ":" newline _ _ E1) as [_ H1''].
  destruct (split_pieces ":" "(" _ _ E3) as [H3 H3'].
  destruct (split_pieces ":" newline _ _ E3) as [_ H3''].
  destruct (split_pieces ")" "(" _ _ E4) as [H4 H4'].
  destruct (split_pieces ")" ":" _ _ E4) as [_ H4''].
  destruct (split_pieces ")" newline _ _ E4) as [_ H4'''].
  unfold clean_id, clean_number.
  rewrite !strip_idempotent.
  repeat split; apply strip_has_char; auto.
Qed.

Lemma parse_line_clean st st' raw :
  has_char newline raw = false ->
  clean_mapping (fst st) -> clean_current (snd st) ->
  parse_line st raw = inr st' ->
  clean_mapping (fst st') /\ clean_current (snd st').
Proof.
  destruct st as [m cur]. cbn [fst snd]. intros Hnl Hm Hc. unfold parse_line.
  destruct (Str.contains "| + Track" (Str.strip raw)).
  { intros [= <-]. split; [done|]. intros c [= <-]. by split. }
  destruct cur as [c|]; [|by intros [= <-]].
  destruct (Str.contains "Track number:" (Str.strip raw)).
  { destruct (extract_ids (Str.strip raw)) as [|[a b]] eqn:E; [by intros [= <-]|].
    intros [= <-]. split; [done|].
    destruct (extract_ids_clean _ _ _ (strip_has_char _ _ Hnl) E) as [Ha Hb].
    intros c' [= <-]. cbn. split; by intros ? [= <-]. }
  destruct (Str.contains "Track type:" (Str.strip raw)
            && Str.contains "subtitles" (Str.lower (Str.strip raw))).
  { destruct (Hc c eq_refl) as [Hn Hi].
    destruct (number c) as [n|] eqn:En.
    - destruct (mkvmerge_id c) as [i|] eqn:Ei; [|done].
      cbn. intros [= <-]. cbn [fst snd]. split; [|done].
      intros k v. destruct (decide (k = n)) as [->|Hne].
      + rewrite lookup_insert_eq. intros [= <-]. auto.
      + rewrite lookup_insert_ne by done. apply Hm.
    - intros [= <-]. by split. }
  destruct (Str.contains "Track type:" (Str.strip raw)).
  { intros [= <-]. by split. }
  by intros [= <-].
Qed.

Lemma parse_lines_clean lines : forall st st',
  Forall (fun l => has_char newline l = false) lines ->
  clean_mapping (fst st) -> clean_current (snd st) ->
  parse_lines st lines = inr st' ->
  clean_mapping (fst st') /\ clean_current (snd st').
Proof.
  induction lines as [|l r IH]; intros st st' Hall Hm Hc; cbn [parse_lines].
  - by intros [= <-].
  - inversion Hall as [|? ? Hl Hr]; subst.
    destruct (parse_line st l) as [|st1] eqn:E; [done|]. cbn [mbind result_bind].
    destruct (parse_line_clean _ _ _ Hl Hm Hc E) as [Hm1 Hc1].
    by apply IH.
Qed.

(** X13.  What the reconciler maps: every reader index of the mapping and
    every editor index it is mapped to is a piece of one line of the dump
    with its surrounding whitespace removed; neither holds an opening
    parenthesis, a colon or a line feed, and the editor index holds no
    closing parenthesis either. *)
Theorem mapping_holds_stripped_pieces dump m k v :
  parse_mkvinfo_output dump = inr m -> m !! k = Some v ->
  clean_number k /\ clean_id v.
Proof.
  unfold parse_mkvinfo_output.
  destruct (parse_lines (∅, None) (Str.split newline dump)) as [|st] eqn:E; [done|].
  cbn. intros [= <-].
  assert (clean_mapping (fst st)) as H; [|by apply H].
  eapply (parse_lines_clean _ (∅, None) st); [| |done|exact E].
  - apply Forall_forall. intros l Hl. exact (proj1 (split_pieces newline newline _ _ Hl)).
  - intros ? ?. cbn [fst]. by rewrite lookup_empty.
Qed.

Lemma mapping_holds_stripped_pieces_witness :
  clean_number "3" /\ clean_id "2".
Proof.
  apply (mapping_holds_stripped_pieces
           (String.append "| + Track"
              (String newline
                 (String.append (track_number_line "3" "2")
                    (String newline "|  + Track type: subtitles"))))
           {[ "3" := "2" ]} "3" "2").
  - vm_compute. reflexivity.
  - apply lookup_singleton_eq.
Defined.

(** ** The editor call and the apply loop *)

(** X14.  [set_forced_flag] never raises, whatever the editor does.  It runs
    no command when the index is not an integer, or is one whose successor
    has more than 4300 digits and cannot be printed; otherwise it runs one
    command, on the index plus one, and returns true exactly when that
    command completed with exit status 0. *)
Theorem set_forced_flag_never_raises tools file_path track_id forced history :
  exists b cmds,
    set_forced_flag tools file_path track_id forced history
    = (inr b, (history ++ cmds)%list)
    /\ (forall x, Num.int track_id = inl x -> b = false /\ cmds = [])
    /\ (forall n, Num.int track_id = inr n ->
          (10 ^ Num.max_str_digits <= Z.abs (n + 1) -> b = false /\ cmds = [])
          /\ (Z.abs (n + 1) < 10 ^ Num.max_str_digits ->
              let cmd := ["mkvpropedit"; file_path; "--edit";
                          String.append "track:" (pretty (n + 1)); "--set";
                          if forced then "flag-forced=1" else "flag-forced=0"] in
              cmds = [cmd]
              /\ (b = true <->
                  exists completed,
                    subprocess_run tools history cmd = inr completed
                    /\ returncode completed = 0))).
Proof.
  rewrite set_forced_flag_spec.
  destruct (Num.int track_id) as [e|n] eqn:E; cbn [mbind result_bind].
  { exists false, []. rewrite app_nil_r. by repeat split. }
  rewrite mkvpropedit_cmd_spec.
  destruct (Z.le_gt_cases (10 ^ Num.max_str_digits) (Z.abs (n + 1))) as [Hbig|Hsmall].
  - rewrite (str_large _ Hbig). cbn [mbind result_bind].
    exists false, []. rewrite app_nil_r. split; [done|]. split; [done|].
    intros ? [= <-]. split; [done | lia].
  - rewrite (str_small _ Hsmall). cbn [mbind result_bind Return].
    eexists _, _. split; [reflexivity|]. split; [done|].
    intros ? [= <-]. split; [lia|]. intros _. split; [done|].
    unfold editor_succeeded.
    destruct (subprocess_run tools history _) as [e|c].
    + split; [done|]. by intros (? & [=] & _).
    + rewrite Z.eqb_eq. split; [by eauto|]. by intros (? & [= <-] & ?).
Qed.

(** The editor call of a track, spelled out. *)
Lemma editor_command_spec full_path track_mapping track cmd :
  editor_command full_path track_mapping track = Some cmd <->
  exists (id mkvmerge_id : string) n,
    tr_id track = Some (VStr id)
    /\ track_mapping !! id = Some mkvmerge_id
    /\ Num.int mkvmerge_id = inr n
    /\ Z.abs (n + 1) < 10 ^ Num.max_str_digits
    /\ cmd = ["mkvpropedit"; full_path; "--edit";
              String.append "track:" (pretty (n + 1)); "--set"; "flag-forced=1"].
Proof.
  unfold editor_command. split.
  - destruct (tr_id track) as [[| | | |id]|]; cbn; try done.
    destruct (track_mapping !! id) as [s|] eqn:Hs; cbn; [|done].
    destruct (Str.truthy s); [|done].
    destruct (Num.int s) as [|n] eqn:Hn; cbn [mbind result_bind]; [done|].
    rewrite mkvpropedit_cmd_spec.
    destruct (Z.le_gt_cases (10 ^ Num.max_str_digits) (Z.abs (n + 1))) as [Hbig|Hsmall].
    + by rewrite (str_large _ Hbig).
    + rewrite (str_small _ Hsmall). cbn. intros [= <-]. by exists id, s, n.
  - intros (id & s & n & -> & Hs & Hn & Hsmall & ->). cbn. rewrite Hs. cbn.
    rewrite (int_not_empty _ _ Hn), Hn. cbn [mbind result_bind].
    by rewrite mkvpropedit_cmd_spec, (str_small _ Hsmall).
Qed.

Lemma apply_change_spec tools full_path track_mapping track history :
  is_Some (tr_id track) ->
  apply_change tools full_path track_mapping track history
  = match editor_command full_path track_mapping track with
    | Some cmd =>
        (inr (set_modified (editor_succeeded tools history cmd) track),
         (history ++ [cmd])%list)
    | None => (inr (set_modified false track), history)
    end.
Proof.
  intros [id Hid]. unfold apply_change, editor_command, lift.
  unfold mbind at 1, StateExn_bind, mret, StateExn_ret. rewrite Hid. cbn.
  destruct (mapping_get track_mapping id) as [s|]; cbn; [|done].
  destruct (Str.truthy s); [|done].
  unfold mbind at 1, StateExn_bind.
  rewrite set_forced_flag_spec. by destruct (Num.int s ≫= _).
Qed.

Lemma apply_changes_spec tools full_path track_mapping tracks : forall history,
  Forall (fun t => is_Some (tr_id t)) tracks ->
  exists tracks',
    apply_changes tools full_path track_mapping tracks history
    = (inr tracks',
       (history ++ omap (editor_command full_path track_mapping) tracks)%list)
    /\ Forall2 (fun t t' =>
                  exists b, t' = set_modified b t
                    /\ (b = true ->
                        is_Some (editor_command full_path track_mapping t)))
               tracks tracks'.
Proof.
  induction tracks as [|t r IH]; intros history Hall.
  - exists []. cbn. rewrite app_nil_r. by split; [|constructor].
  - inversion Hall as [|? ? Ht Hr]; subst.
    cbn [apply_changes omap list_omap].
    unfold mbind at 1, StateExn_bind.
    rewrite (apply_change_spec _ _ _ _ _ Ht).
    destruct (editor_command full_path track_mapping t) as [cmd|] eqn:E.
    + destruct (IH (history ++ [cmd])%list Hr) as (r' & Hr' & HF).
      unfold mbind at 1, StateExn_bind. rewrite Hr'.
      eexists. cbn. split; [by rewrite <- app_assoc|].
      constructor; [|done]. eexists. split; [done|]. by rewrite E.
    + destruct (IH history Hr) as (r' & Hr' & HF).
      unfold mbind at 1, StateExn_bind. rewrite Hr'.
      eexists. cbn. split; [done|].
      constructor; [|done]. by exists false.
Qed.

(** X15.  The apply loop, for tracks that have an id: it never raises, it
    runs exactly the editor calls of the tracks whose id is a string that
    the dump maps to an integer index whose successor can be printed (it
    has at most 4300 digits), in the order of the tracks and after the
    commands run before, and it changes nothing of a track but 'modified',
    which is true only for a track whose editor call was made. *)
Theorem apply_changes_runs_the_editor_calls
    tools full_path track_mapping tracks history :
  Forall (fun t => is_Some (tr_id t)) tracks ->
  exists tracks',
    apply_changes tools full_path track_mapping tracks history
    = (inr tracks',
       (history ++ omap (editor_command full_path track_mapping) tracks)%list)
    /\ Forall2 (fun t t' =>
                  exists b, t' = set_modified b t
                    /\ (b = true ->
                        is_Some (editor_command full_path track_mapping t)))
               tracks tracks'
    /\ (forall t cmd,
          editor_command full_path track_mapping t = Some cmd <->
          exists (id mkvmerge_id : string) n,
            tr_id t = Some (VStr id)
            /\ track_mapping !! id = Some mkvmerge_id
            /\ Num.int mkvmerge_id = inr n
            /\ Z.abs (n + 1) < 10 ^ Num.max_str_digits
            /\ cmd = ["mkvpropedit"; full_path; "--edit";
                      String.append "track:" (pretty (n + 1)); "--set";
                      "flag-forced=1"]).
Proof.
  intros Hids.
  destruct (apply_changes_spec tools full_path track_mapping tracks history Hids)
    as (tracks' & H & HF).
  exists tracks'. split; [done|]. split; [done|].
  intros t cmd. apply editor_command_spec.
Qed.

Lemma apply_changes_runs_the_editor_calls_witness :
  exists tracks',
    apply_changes quiet_tools "a.mkv"
      {[ "3" := "2"; "4" := "x"; "5" := "7"; "6" := longest_index ]}
      [sample_track "3" "en" "10"; sample_track "4" "en" "10";
       sample_track "9" "en" "10"; sample_track "6" "en" "10";
       sample_track "5" "de" "10"]
      [["mkvinfo"; "a.mkv"]]
    = (inr tracks',
       [["mkvinfo"; "a.mkv"];
        ["mkvpropedit"; "a.mkv"; "--edit"; "track:3"; "--set"; "flag-forced=1"];
        ["mkvpropedit"; "a.mkv"; "--edit"; "track:8"; "--set"; "flag-forced=1"]]).
Proof.
  destruct (apply_changes_runs_the_editor_calls quiet_tools "a.mkv"
              {[ "3" := "2"; "4" := "x"; "5" := "7"; "6" := longest_index ]}
              [sample_track "3" "en" "10"; sample_track "4" "en" "10";
               sample_track "9" "en" "10"; sample_track "6" "en" "10";
               sample_track "5" "de" "10"]
              [["mkvinfo"; "a.mkv"]]) as (tracks' & H & _).
  - repeat constructor; by eexists.
  - exists tracks'. rewrite H. apply f_equal. vm_compute. reflexivity.
Defined.

(** ** One file and the loop over the files *)

Lemma apply_change_trace tools full_path track_mapping track history :
  exists edits,
    snd (apply_change tools full_path track_mapping track history)
    = (history ++ edits)%list
    /\ Forall (sets_forced_flag full_path) edits.
Proof.
  destruct (tr_id track) as [id|] eqn:Hid.
  - rewrite apply_change_spec by (by eexists).
    unfold editor_command. rewrite Hid. cbn.
    destruct (mapping_get track_mapping id) as [s|]; cbn;
      [|exists []; by rewrite app_nil_r].
    destruct (Str.truthy s); [|exists []; by rewrite app_nil_r].
    destruct (Num.int s) as [|n]; cbn [mbind result_bind];
      [exists []; by rewrite app_nil_r|].
    destruct (mkvpropedit_cmd full_path (n + 1) true) as [|cmd] eqn:Hcmd;
      [exists []; by rewrite app_nil_r|].
    exists [cmd]. split; [done|]. constructor; [|done]. by exists (n + 1).
  - unfold apply_change, lift. unfold mbind, StateExn_bind. rewrite Hid. cbn.
    exists []. by rewrite app_nil_r.
Qed.

Lemma apply_changes_trace tools full_path track_mapping tracks : forall history,
  exists edits,
    snd (apply_changes tools full_path track_mapping tracks history)
    = (history ++ edits)%list
    /\ Forall (sets_forced_flag full_path) edits.
Proof.
  induction tracks as [|t r IH]; intros history.
  - exists []. cbn. by rewrite app_nil_r.
  - cbn [apply_changes]. unfold mbind at 1, StateExn_bind.
    destruct (apply_change_trace tools full_path track_mapping t history)
      as (e1 & H1 & HF1).
    destruct (apply_change tools full_path track_mapping t history) as [[x|t'] h1];
      cbn [snd] in H1; subst h1; [by exists e1|].
    unfold mbind at 1, StateExn_bind.
    destruct (IH (history ++ e1)%list) as (e2 & H2 & HF2).
    destruct (apply_changes tools full_path track_mapping r (history ++ e1)%list)
      as [[x|r'] h2]; cbn [snd] in H2; subst h2;
      exists (e1 ++ e2)%list; cbn; rewrite app_assoc;
      (split; [done | by apply Forall_app]).
Qed.

(** When the reader call raises, nothing else is run. *)
Lemma process_file_body_reader_raises tools full_path history x :
  subprocess_run tools history (mediainfo_cmd full_path) = inl x ->
  process_file_body tools full_path history
  = (inl x, (history ++ [mediainfo_cmd full_path])%list).
Proof.
  intros E. unfold process_file_body, run. fold (mediainfo_cmd full_path).
  unfold mbind at 1, StateExn_bind. by rewrite E.
Qed.

(** After the two read calls: what is left of the body. *)
Lemma process_file_body_reads tools full_path history c1 c2 :
  subprocess_run tools history (mediainfo_cmd full_path) = inr c1 ->
  subprocess_run tools (history ++ [mediainfo_cmd full_path])
    (mkvinfo_cmd full_path) = inr c2 ->
  process_file_body tools full_path history
  = (if (returncode c1 =? 0) && (returncode c2 =? 0) then
       mediainfo_data ← lift (json_tracks tools (stdout c1));
       track_mapping ← lift (parse_mkvinfo_output (stdout c2));
       subtitle_tracks ← lift (analyze_subtitle_tracks mediainfo_data);
       match subtitle_tracks with
       | [] => mret NoSubtitles
       | _ =>
           tracks_to_force ← lift (select_tracks subtitle_tracks);
           final ← apply_changes tools full_path track_mapping tracks_to_force;
           mret (Done final)
       end
     else mret ToolFailed)
      (history ++ [mediainfo_cmd full_path; mkvinfo_cmd full_path])%list.
Proof.
  intros E1 E2. unfold process_file_body, run.
  fold (mediainfo_cmd full_path). fold (mkvinfo_cmd full_path).
  unfold mbind at 1, StateExn_bind. rewrite E1.
  unfold mbind at 1, StateExn_bind. rewrite E2.
  by rewrite <- app_assoc.
Qed.

Lemma process_file_body_trace tools full_path history :
  exists cmds,
    snd (process_file_body tools full_path history) = (history ++ cmds)%list
    /\ ((exists x, subprocess_run tools history (mediainfo_cmd full_path) = inl x)
        /\ cmds = [mediainfo_cmd full_path]
        \/ (exists c1, subprocess_run tools history (mediainfo_cmd full_path) = inr c1)
           /\ exists edits,
                cmds = mediainfo_cmd full_path :: mkvinfo_cmd full_path :: edits
                /\ Forall (sets_forced_flag full_path) edits
                /\ (edits <> [] ->
                    exists c1 c2,
                      subprocess_run tools history (mediainfo_cmd full_path) = inr c1
                      /\ returncode c1 = 0
                      /\ subprocess_run tools (history ++ [mediainfo_cmd full_path])
                           (mkvinfo_cmd full_path) = inr c2
                      /\ returncode c2 = 0)).
Proof.
  destruct (subprocess_run tools history (mediainfo_cmd full_path)) as [x|c1] eqn:E1.
  { rewrite (process_file_body_reader_raises _ _ _ _ E1).
    exists [mediainfo_cmd full_path]. split; [done|]. left. eauto. }
  assert (forall (r : result FileOutcome) edits,
            Forall (sets_forced_flag full_path) edits ->
            (edits <> [] ->
             exists c2, subprocess_run tools (history ++ [mediainfo_cmd full_path])
                          (mkvinfo_cmd full_path) = inr c2
                        /\ returncode c1 = 0 /\ returncode c2 = 0) ->
            exists cmds,
              snd (r, ((history ++ [mediainfo_cmd full_path; mkvinfo_cmd full_path])
                       ++ edits)%list) = (history ++ cmds)%list
              /\ ((exists x, @inr exn Completed c1 = inl x)
                  /\ cmds = [mediainfo_cmd full_path]
                  \/ (exists c, @inr exn Completed c1 = inr c)
                     /\ exists edits,
                          cmds = mediainfo_cmd full_path :: mkvinfo_cmd full_path :: edits
                          /\ Forall (sets_forced_flag full_path) edits
                          /\ (edits <> [] ->
                              exists c c2,
                                @inr exn Completed c1 = inr c
                                /\ returncode c = 0
                                /\ subprocess_run tools
                                     (history ++ [mediainfo_cmd full_path])
                                     (mkvinfo_cmd full_path) = inr c2
                                /\ returncode c2 = 0))) as Hend.
  { intros r edits HF Hgate.
    exists (mediainfo_cmd full_path :: mkvinfo_cmd full_path :: edits).
    cbn [snd]. rewrite <- app_assoc. split; [done|]. right. split; [eauto|].
    exists edits. split; [done|]. split; [done|]. intros Hne.
    destruct (Hgate Hne) as (c2 & ? & ? & ?). by exists c1, c2. }
  assert (forall r : result FileOutcome,
            exists cmds,
              snd (r, (history ++ [mediainfo_cmd full_path; mkvinfo_cmd full_path])%list)
              = (history ++ cmds)%list
              /\ ((exists x, @inr exn Completed c1 = inl x)
                  /\ cmds = [mediainfo_cmd full_path]
                  \/ (exists c, @inr exn Completed c1 = inr c)
                     /\ exists edits,
                          cmds = mediainfo_cmd full_path :: mkvinfo_cmd full_path :: edits
                          /\ Forall (sets_forced_flag full_path) edits
                          /\ (edits <> [] ->
                              exists c c2,
                                @inr exn Completed c1 = inr c
                                /\ returncode c = 0
                                /\ subprocess_run tools
                                     (history ++ [mediainfo_cmd full_path])
                                     (mkvinfo_cmd full_path) = inr c2
                                /\ returncode c2 = 0))) as Hstop.
  { intros r. destruct (Hend r [] ltac:(constructor) ltac:(done)) as (cmds & H & ?).
    rewrite app_nil_r in H. eauto. }
  destruct (subprocess_run tools (history ++ [mediainfo_cmd full_path])
              (mkvinfo_cmd full_path)) as [x|c2] eqn:E2.
  { unfold process_file_body, run.
    fold (mediainfo_cmd full_path). fold (mkvinfo_cmd full_path).
    unfold mbind at 1, StateExn_bind. rewrite E1.
    unfold mbind at 1, StateExn_bind. rewrite E2.
    rewrite <- app_assoc. apply Hstop. }
  rewrite (process_file_body_reads _ _ _ _ _ E1 E2).
  destruct ((returncode c1 =? 0) && (returncode c2 =? 0)) eqn:Hrc; [|apply Hstop].
  apply andb_true_iff in Hrc as [Hrc1 Hrc2]. apply Z.eqb_eq in Hrc1, Hrc2.
  unfold lift. unfold mbind at 1, StateExn_bind.
  destruct (json_tracks tools (stdout c1)) as [x|data]; [apply Hstop|].
  unfold mbind at 1, StateExn_bind.
  destruct (parse_mkvinfo_output (stdout c2)) as [x|track_mapping]; [apply Hstop|].
  unfold mbind at 1, StateExn_bind.
  destruct (analyze_subtitle_tracks data) as [x|subtitle_tracks]; [apply Hstop|].
  destruct subtitle_tracks as [|t ts]; [apply Hstop|].
  unfold mbind at 1, StateExn_bind.
  destruct (select_tracks (t :: ts)) as [x|tracks_to_force]; [apply Hstop|].
  unfold mbind at 1, StateExn_bind.
  destruct (apply_changes_trace tools full_path track_mapping tracks_to_force
              (history ++ [mediainfo_cmd full_path; mkvinfo_cmd full_path])%list)
    as (edits & Hedits & HF).
  destruct (apply_changes tools full_path track_mapping tracks_to_force _)
    as [[x|final] h]; cbn [snd] in Hedits; subst h;
    apply Hend; try done; intros _; by exists c2.
Qed.

Lemma process_file_total tools full_path history :
  exists outcome,
    process_file tools full_path history
    = (inr outcome, snd (process_file_body tools full_path history)).
Proof.
  unfold process_file.
  destruct (process_file_body tools full_path history) as [[x|o] h]; by eexists.
Qed.

(** X16.  One file never stops the script, and nothing is edited unless
    both readers succeeded: processing a file raises nothing.  If the
    reader call itself raises, it is the only command run.  Otherwise the
    reader call is followed by the dumper call and then only by editor
    calls that set the forced flag of a track of this file, and an editor
    call is made only if reader and dumper both completed with exit
    status 0. *)
Theorem process_file_edits_only_after_both_readers tools full_path history :
  exists outcome cmds,
    process_file tools full_path history = (inr outcome, (history ++ cmds)%list)
    /\ ((exists x, subprocess_run tools history (mediainfo_cmd full_path) = inl x)
        /\ cmds = [mediainfo_cmd full_path]
        \/ (exists c1, subprocess_run tools history (mediainfo_cmd full_path) = inr c1)
           /\ exists edits,
                cmds = mediainfo_cmd full_path :: mkvinfo_cmd full_path :: edits
                /\ Forall (sets_forced_flag full_path) edits
                /\ (edits <> [] ->
                    exists c1 c2,
                      subprocess_run tools history (mediainfo_cmd full_path) = inr c1
                      /\ returncode c1 = 0
                      /\ subprocess_run tools (history ++ [mediainfo_cmd full_path])
                           (mkvinfo_cmd full_path) = inr c2
                      /\ returncode c2 = 0)).
Proof.
  destruct (process_file_total tools full_path history) as (o & Ho).
  destruct (process_file_body_trace tools full_path history) as (cmds & Hc & H).
  exists o, cmds. by rewrite Ho, Hc.
Qed.

Lemma analyze_subtitle_tracks_sets_flag data subtitle_tracks :
  analyze_subtitle_tracks data = inr subtitle_tracks ->
  Forall (fun t => is_Some (tr_should_be_forced t)) subtitle_tracks.
Proof.
  rewrite analyze_subtitle_tracks_map.
  destruct (collect_subtitles data) as [x|info]; [done|]. cbn [mbind result_bind].
  intros H. apply map_result_Forall2 in H.
  generalize dependent info. intros info. generalize info at 1. intros all H.
  induction H as [|t t' ts ts' Ht _ IH]; constructor; [|done].
  unfold classify_one in Ht.
  destruct (should_be_forced t all) as [[x|b] u]; [done|].
  cbn [mbind result_bind] in Ht. injection Ht as <-. by eexists.
Qed.

Lemma select_tracks_spec subtitle_tracks :
  Forall (fun t => is_Some (tr_should_be_forced t)) subtitle_tracks ->
  select_tracks subtitle_tracks = inr (forced_tracks subtitle_tracks).
Proof.
  induction 1 as [|t r [b Hb] _ IH]; [done|].
  cbn [select_tracks]. rewrite Hb, IH. cbn. fold (forced_tracks r).
  destruct (decide _) as [Hd|Hd]; rewrite Hb in Hd.
  - by injection Hd as ->.
  - destruct b; [done|]. done.
Qed.

Lemma forced_tracks_ids data subtitle_tracks :
  analyze_subtitle_tracks data = inr subtitle_tracks ->
  Forall (fun t => is_Some (tr_id t)) (forced_tracks subtitle_tracks).
Proof.
  intros Ha. eapply tracks_to_force_ids; [exact Ha|].
  by apply select_tracks_spec, (analyze_subtitle_tracks_sets_flag data).
Qed.

(** A file whose two read calls succeed and whose reader output is analysed
    to a track list that is not empty: the rest is the apply loop. *)
Lemma process_file_done tools full_path history c1 c2 data track_mapping
    subtitle_tracks tracks_to_force final history' :
  subprocess_run tools history (mediainfo_cmd full_path) = inr c1 ->
  returncode c1 = 0 ->
  subprocess_run tools (history ++ [mediainfo_cmd full_path])
    (mkvinfo_cmd full_path) = inr c2 ->
  returncode c2 = 0 ->
  json_tracks tools (stdout c1) = inr data ->
  parse_mkvinfo_output (stdout c2) = inr track_mapping ->
  analyze_subtitle_tracks data = inr subtitle_tracks ->
  subtitle_tracks <> [] ->
  select_tracks subtitle_tracks = inr tracks_to_force ->
  apply_changes tools full_path track_mapping tracks_to_force
    (history ++ [mediainfo_cmd full_path; mkvinfo_cmd full_path])%list
  = (inr final, history') ->
  process_file tools full_path history = (inr (Done final), history').
Proof.
  intros E1 Hrc1 E2 Hrc2 Hjson Hmap Han Hne Hsel Happly.
  unfold process_file. rewrite (process_file_body_reads _ _ _ _ _ E1 E2).
  rewrite Hrc1, Hrc2. cbn [Z.eqb andb].
  unfold lift. unfold mbind at 1, StateExn_bind. rewrite Hjson.
  unfold mbind at 1, StateExn_bind. rewrite Hmap.
  unfold mbind at 1, StateExn_bind. rewrite Han.
  destruct subtitle_tracks as [|t ts]; [done|].
  unfold mbind at 1, StateExn_bind. rewrite Hsel.
  unfold mbind at 1, StateExn_bind. by rewrite Happly.
Qed.

(** X17.  What is done to a file whose reader and dumper both complete with
    exit status 0 and whose reader output parses: after the two read calls,
    the editor is called exactly for the tracks classified as forced whose
    id is a string that the dump maps to an integer index whose successor
    can be printed, in track order, each call setting the forced flag of
    the track at that index plus one.  The outcome lists the forced tracks
    with 'modified' added, or reports that there are no subtitle tracks. *)
Theorem process_file_calls_editor_for_forced_tracks
    tools full_path history r1 r2 data track_mapping subtitle_tracks :
  subprocess_run tools history (mediainfo_cmd full_path) = inr r1 ->
  returncode r1 = 0 ->
  subprocess_run tools (history ++ [mediainfo_cmd full_path])
    (mkvinfo_cmd full_path) = inr r2 ->
  returncode r2 = 0 ->
  json_tracks tools (stdout r1) = inr data ->
  parse_mkvinfo_output (stdout r2) = inr track_mapping ->
  analyze_subtitle_tracks data = inr subtitle_tracks ->
  exists outcome,
    process_file tools full_path history
    = (inr outcome,
       (history ++ mediainfo_cmd full_path :: mkvinfo_cmd full_path
          :: omap (editor_command full_path track_mapping)
               (forced_tracks subtitle_tracks))%list)
    /\ (subtitle_tracks = [] -> outcome = NoSubtitles)
    /\ (subtitle_tracks <> [] ->
        exists final,
          outcome = Done final
          /\ Forall2 (fun t t' =>
                        exists b, t' = set_modified b t
                          /\ (b = true ->
                              is_Some (editor_command full_path track_mapping t)))
               (forced_tracks subtitle_tracks) final)
    /\ (forall t cmd,
          editor_command full_path track_mapping t = Some cmd <->
          exists (id mkvmerge_id : string) n,
            tr_id t = Some (VStr id)
            /\ track_mapping !! id = Some mkvmerge_id
            /\ Num.int mkvmerge_id = inr n
            /\ Z.abs (n + 1) < 10 ^ Num.max_str_digits
            /\ cmd = ["mkvpropedit"; full_path; "--edit";
                      String.append "track:" (pretty (n + 1)); "--set";
                      "flag-forced=1"]).
Proof.
  intros E1 Hrc1 E2 Hrc2 Hjson Hmap Han.
  destruct subtitle_tracks as [|t ts].
  { exists NoSubtitles. split; [|split; [done|split; [done|]]].
    - unfold process_file. rewrite (process_file_body_reads _ _ _ _ _ E1 E2).
      rewrite Hrc1, Hrc2. cbn [Z.eqb andb].
      unfold lift. unfold mbind at 1, StateExn_bind. rewrite Hjson.
      unfold mbind at 1, StateExn_bind. rewrite Hmap.
      unfold mbind at 1, StateExn_bind. rewrite Han. by cbn.
    - intros ? ?. apply editor_command_spec. }
  set (tracks := t :: ts) in *.
  destruct (apply_changes_spec tools full_path track_mapping (forced_tracks tracks)
              (history ++ [mediainfo_cmd full_path; mkvinfo_cmd full_path])%list
              (forced_tracks_ids data tracks Han)) as (final & Hfinal & HF).
  exists (Done final). split; [|split; [done|split]].
  - rewrite (process_file_done tools full_path history r1 r2 data track_mapping
               tracks (forced_tracks tracks) final _ E1 Hrc1 E2 Hrc2 Hjson Hmap Han
               ltac:(done)
               (select_tracks_spec _ (analyze_subtitle_tracks_sets_flag _ _ Han))
               Hfinal).
    by rewrite <- app_assoc.
  - intros _. by exists final.
  - intros ? ?. apply editor_command_spec.
Qed.

Lemma process_file_calls_editor_for_forced_tracks_witness :
  exists outcome,
    process_file sample_tools "m/a.mkv" []
    = (inr outcome,
       [["mediainfo"; "--Full"; "--Output=JSON"; "m/a.mkv"];
        ["mkvinfo"; "m/a.mkv"];
        ["mkvpropedit"; "m/a.mkv"; "--edit"; "track:3"; "--set"; "flag-forced=1"]]).
Proof.
  destruct (process_file_calls_editor_for_forced_tracks
              sample_tools "m/a.mkv" []
              (mkCompleted 0 sample_dump EmptyString)
              (mkCompleted 0 sample_dump EmptyString)
              sample_reader_tracks {[ "3" := "2" ]} sample_selected)
    as (outcome & H & _).
  - reflexivity.
  - reflexivity.
  - reflexivity.
  - reflexivity.
  - reflexivity.
  - vm_compute. reflexivity.
  - vm_compute. reflexivity.
  - exists outcome. rewrite H. f_equal.
Defined.

Lemma process_files_cons tools folder_path mkv_file rest history o h1 os h2 :
  process_file tools (path_join tools folder_path mkv_file) history = (inr o, h1) ->
  process_files tools folder_path rest h1 = (inr os, h2) ->
  process_files tools folder_path (mkv_file :: rest) history = (inr (o :: os), h2).
Proof.
  intros H1 H2. cbn [process_files].
  unfold mbind at 1, StateExn_bind. rewrite H1.
  unfold mbind at 1, StateExn_bind. by rewrite H2.
Qed.

Lemma process_files_trace tools folder_path mkv_files : forall history,
  exists outcomes per_file,
    process_files tools folder_path mkv_files history
    = (inr outcomes, (history ++ concat per_file)%list)
    /\ length outcomes = length mkv_files
    /\ Forall2 (fun mkv_file cmds =>
                  head cmds = Some (mediainfo_cmd (path_join tools folder_path mkv_file))
                  /\ Forall (command_on (path_join tools folder_path mkv_file)) cmds)
               mkv_files per_file.
Proof.
  induction mkv_files as [|f r IH]; intros history.
  - exists [], []. cbn. rewrite app_nil_r. by repeat split; constructor.
  - set (p := path_join tools folder_path f).
    destruct (process_file_total tools p history) as (o & Ho).
    destruct (process_file_body_trace tools p history) as (cmds & Hc & H).
    rewrite Hc in Ho.
    destruct (IH (history ++ cmds)%list) as (os & pf & Hos & Hlen & HF).
    exists (o :: os), (cmds :: pf).
    rewrite (process_files_cons _ _ _ _ _ _ _ _ _ Ho Hos). cbn.
    rewrite <- app_assoc, Hlen. split; [done|]. split; [done|].
    constructor; [|done].
    destruct H as [[_ ->] | (_ & edits & -> & Hedits & _)].
    + split; [done|]. constructor; [by left | constructor].
    + split; [done|].
      constructor; [by left|]. constructor; [by right; left|].
      eapply Forall_impl; [exact Hedits|]. intros c Hcmd. by right; right.
Qed.

(** X18.  The loop over the files never raises and touches only the files
    of its list: the commands it runs are, file by file in list order, a
    group that starts with the reader call on that file and holds nothing
    but the reader call, the dumper call and editor calls that set the
    forced flag of a track of that file.  No command clears a forced flag
    and none names another file. *)
Theorem process_files_touch_only_listed_files
    tools folder_path mkv_files history :
  exists outcomes per_file,
    process_files tools folder_path mkv_files history
    = (inr outcomes, (history ++ concat per_file)%list)
    /\ length outcomes = length mkv_files
    /\ Forall2 (fun mkv_file cmds =>
                  head cmds = Some (mediainfo_cmd (path_join tools folder_path mkv_file))
                  /\ Forall (command_on (path_join tools folder_path mkv_file)) cmds)
               mkv_files per_file.
Proof. apply process_files_trace. Qed.

(** ** The apply loop and the loop over the files: claim C7 *)




(** ** The driver *)

Lemma endswith_spec s suffix :
  endswith s suffix = true <-> exists pre, s = String.append pre suffix.
Proof.
  induction s as [|a r IH]; cbn [endswith].
  - rewrite orb_false_r, String.eqb_eq. split.
    + intros <-. by exists EmptyString.
    + intros [[|c pre] H]; [done | by rewrite append_cons in H].
  - rewrite orb_true_iff, String.eqb_eq, IH. split.
    + intros [<- | [pre ->]]; [by exists EmptyString | by exists (String a pre)].
    + intros [[|c pre] H]; [by left|]. right. exists pre.
      rewrite append_cons in H. by injection H.
Qed.

(** X19.  The driver, for a folder that exists, whose log file can be opened
    and whose listing is [names]: it returns without raising, and the
    commands it runs are, in listing order, one group per name whose
    lower-cased form ends with ".mkv" -- the reader call on that file first,
    and nothing but reader, dumper and forced-flag-setting editor calls on
    that file.  Names with another ending are never passed to a tool. *)
Theorem analyze_and_fix_mkv_files_touches_only_mkv_files
    fs tools folder_path log_file names history :
  path_exists fs folder_path = true ->
  setup_logging fs folder_path = inr log_file ->
  listdir fs folder_path = inr names ->
  exists per_file,
    analyze_and_fix_mkv_files fs tools folder_path history
    = (inr tt, (history ++ concat per_file)%list)
    /\ Forall2 (fun mkv_file cmds =>
                  head cmds = Some (mediainfo_cmd (path_join tools folder_path mkv_file))
                  /\ Forall (command_on (path_join tools folder_path mkv_file)) cmds)
               (List.filter is_mkv names) per_file.
Proof.
  intros Hex Hlog Hls. unfold analyze_and_fix_mkv_files, lift.
  rewrite Hex. cbn [negb].
  unfold mbind at 1, StateExn_bind. rewrite Hlog.
  unfold mbind at 1, StateExn_bind. rewrite Hls.
  destruct (process_files_trace tools folder_path (List.filter is_mkv names) history)
    as (os & pf & Hos & _ & HF).
  exists pf. split; [|done].
  destruct (List.filter is_mkv names) as [|f r].
  - inversion HF; subst. cbn. by rewrite app_nil_r.
  - unfold mbind at 1, StateExn_bind. by rewrite Hos.
Qed.

Lemma analyze_and_fix_mkv_files_touches_only_mkv_files_witness :
  exists per_file,
    analyze_and_fix_mkv_files sample_fs sample_tools "m" []
    = (inr tt, ([] ++ concat per_file)%list)
    /\ Forall2 (fun mkv_file cmds =>
                  head cmds = Some (mediainfo_cmd (path_join sample_tools "m" mkv_file))
                  /\ Forall (command_on (path_join sample_tools "m" mkv_file)) cmds)
               ["A.MKV"] per_file.
Proof.
  apply (analyze_and_fix_mkv_files_touches_only_mkv_files
           sample_fs sample_tools "m" "m/mkv_analysis.log"
           ["notes.txt"; "A.MKV"; "b.mkv.bak"; "mkv"] []); reflexivity.
Defined.

(** ** The percentage test in integers *)

Lemma digits2_pos_upper p : Zpos p < 2 ^ Zpos (digits2_pos p).
Proof.
  induction p as [p IH | p IH |]; cbn [digits2_pos]; [| |done].
  - rewrite Pos2Z.inj_succ, Z.pow_succ_r by lia. lia.
  - rewrite Pos2Z.inj_succ, Z.pow_succ_r by lia. lia.
Qed.

Lemma Zdigits2_bounds m :
  0 < m -> 2 ^ (Zdigits2 m - 1) <= m < 2 ^ Zdigits2 m /\ 0 < Zdigits2 m.
Proof.
  destruct m as [|p|p]; [lia | | lia]. intros _. cbn [Zdigits2].
  pose proof (digits2_pos_lower p). pose proof (digits2_pos_upper p). lia.
Qed.

Lemma at_least_pos M E m e : 0 < M -> at_least M E m e -> 0 < m.
Proof.
  intros HM [H1 H2]. destruct (Z.le_gt_cases e E) as [He|He].
  - specialize (H1 He). assert (0 < 2 ^ (E - e)) by (apply Z.pow_pos_nonneg; lia). nia.
  - specialize (H2 He). assert (0 < 2 ^ (e - E)) by (apply Z.pow_pos_nonneg; lia). nia.
Qed.

Lemma at_least_mono M E m m' e : m <= m' -> at_least M E m e -> at_least M E m' e.
Proof.
  intros Hm [H1 H2]. split; intros He.
  - specialize (H1 He). lia.
  - specialize (H2 He). assert (0 < 2 ^ (e - E)) by (apply Z.pow_pos_nonneg; lia). nia.
Qed.

(** One alignment step keeps the mantissa, cut to 53 bits, at or above a
    bound that is a normal float. *)
Lemma shr_fexp_ge M E m e l :
  2 ^ 52 <= M < 2 ^ 53 -> -1074 <= E ->
  at_least M E m e ->
  exists y e',
    shr_fexp 53 1024 m e l = (y, e')
    /\ e <= e'
    /\ shr_m y < 2 ^ 53
    /\ (m < 2 ^ 53 -> e' = e \/ e' = -1074)
    /\ at_least M E (shr_m y) e'.
Proof.
  intros HM HE Hat.
  assert (0 < m) as Hm by (apply (at_least_pos M E m e); [lia | done]).
  unfold shr_fexp.
  set (d := Zdigits2 m).
  set (n := fexp 53 1024 (d + e) - e).
  destruct (shifted_shr (shr_record_of_loc m l) e n) as [Hsh He'].
  destruct (shr (shr_record_of_loc m l) e n) as [y e'].
  cbn [fst snd] in *. exists y, e'. split; [done|].
  unfold shifted in Hsh. rewrite !shr_record_of_loc_m in Hsh.
  destruct (Hsh ltac:(lia)) as (Hy & Hmy & _).
  destruct (Zdigits2_bounds m Hm) as [[Hlo Hhi] Hd]. fold d in Hlo, Hhi, Hd.
  set (k := Z.max 0 n) in *.
  assert (0 < 2 ^ k) as Hpk by (apply Z.pow_pos_nonneg; lia).
  split; [lia|].
  assert (d - 53 <= n) as Hn by (unfold n, fexp, emin; lia).
  split.
  { rewrite Hmy. apply Z.div_lt_upper_bound; [done|].
    destruct (Z.le_gt_cases d 53) as [Hd53|Hd53].
    - assert (2 ^ d <= 2 ^ 53) by (apply Z.pow_le_mono_r; lia). nia.
    - assert (2 ^ d = 2 ^ (d - 53) * 2 ^ 53) as Hs.
      { rewrite <- Z.pow_add_r by lia. f_equal. lia. }
      assert (2 ^ (d - 53) <= 2 ^ k) by (apply Z.pow_le_mono_r; lia).
      nia. }
  split.
  { intros Hm53. assert (d <= 53) by (apply Zdigits2_le; lia).
    unfold n, fexp, emin in *. lia. }
  destruct (Z.le_gt_cases n 0) as [Hn0|Hn0].
  { replace k with 0 in * by lia. rewrite Z.pow_0_r, Z.div_1_r in Hmy.
    rewrite Hmy. replace e' with e by lia. done. }
  replace k with n in * by lia.
  destruct Hat as [H1 H2]. split; intros HeE.
  - assert (e <= E) as HeE' by lia. specialize (H1 HeE').
    rewrite Hmy. apply Z.div_le_lower_bound; [done|].
    replace (E - e) with (n + (E - e')) in H1 by lia.
    rewrite Z.pow_add_r in H1 by lia. lia.
  - assert (n = d - 53) as Hnd by (unfold n, fexp, emin in *; lia).
    assert (2 ^ 52 <= shr_m y) as Hbig.
    { rewrite Hmy. apply Z.div_le_lower_bound; [done|].
      replace (d - 1) with (n + 52) in Hlo by lia.
      rewrite Z.pow_add_r in Hlo by lia. lia. }
    assert (2 <= 2 ^ (e' - E)).
    { change 2 with (2 ^ 1) at 1. apply Z.pow_le_mono_r; lia. }
    change (2 ^ 53) with (2 * 2 ^ 52) in HM. nia.
Qed.

(** Rounding to nearest never falls below a bound that is a normal float. *)
Lemma round_ge M E mx ex lx :
  2 ^ 52 <= M < 2 ^ 53 -> -1074 <= E ->
  at_least M E mx ex ->
  lower_bounded M E (binary_round_aux 53 1024 false mx ex lx).
Proof.
  intros HM HE Hat. unfold binary_round_aux.
  destruct (shr_fexp_ge M E mx ex lx HM HE Hat)
    as (y1 & e1 & -> & He1 & Hy1 & _ & Hat1).
  pose proof (round_nearest_even_bounds (shr_m y1) (loc_of_shr_record y1))
    as [Hr _].
  set (m1 := round_nearest_even (shr_m y1) (loc_of_shr_record y1)) in *.
  assert (at_least M E m1 e1) as Hat1' by (apply (at_least_mono _ _ (shr_m y1)); [lia|done]).
  destruct (shr_fexp_ge M E m1 e1 loc_Exact HM HE Hat1')
    as (y2 & e2 & -> & He2 & Hy2 & _ & Hat2).
  pose proof (at_least_pos M E _ _ ltac:(lia) Hat2) as Hpos.
  destruct (shr_m y2) as [|m2|m2] eqn:Hm2; [lia | | lia].
  destruct (e2 <=? 1024 - 53); [|by left].
  right. by exists m2, e2.
Qed.

Lemma shiftl_scaled a s :
  0 <= s ->
  match s with
  | Z0 => a
  | Zpos _ => Z.shiftl a s
  | Zneg _ => 0
  end = a * 2 ^ s.
Proof.
  intros Hs. destruct s as [|p|p]; [lia | | lia].
  rewrite Z.shiftl_mul_pow2; lia.
Qed.

(** The division core on [a / b] with [b / 5 <= a <= b]: the truncated
    quotient is at least the float just below one fifth. *)
Lemma div_core_ge_fifth a b q e l :
  0 < a <= b -> b <= 5 * a ->
  SFdiv_core_binary 53 1024 a 0 b 0 = (q, e, l) ->
  at_least 7205759403792793 (-55) q e.
Proof.
  intros Ha Hb. unfold SFdiv_core_binary.
  destruct (Zdigits2_bounds a ltac:(lia)) as [[Halo Hahi] Hda].
  destruct (Zdigits2_bounds b ltac:(lia)) as [[Hblo Hbhi] Hdb].
  set (da := Zdigits2 a) in *. set (db := Zdigits2 b) in *.
  assert (da <= db) as Hdab.
  { apply Zdigits2_le; lia. }
  set (e' := Z.min (fexp 53 1024 (da + 0 - (db + 0))) (0 - 0)).
  assert (e' <= -53) as He' by (unfold e', fexp, emin; lia).
  set (s := 0 - 0 - e').
  rewrite (shiftl_scaled a s) by lia.
  assert (0 < 2 ^ s) as Hpow by (apply Z.pow_pos_nonneg; lia).
  pose proof (Z_div_mod (a * 2 ^ s) b ltac:(lia)) as Hdiv.
  destruct (Z.div_eucl (a * 2 ^ s) b) as [q' r].
  destruct Hdiv as [Hqr Hr]. intros [= <- <- <-].
  split; intros HeE.
  - assert (s = 55 + (-55 - e')) as Hs by lia.
    rewrite Hs, Z.pow_add_r in Hqr by lia.
    assert (0 < 2 ^ (-55 - e')) as HP by (apply Z.pow_pos_nonneg; lia).
    set (P := 2 ^ (-55 - e')) in *.
    change (2 ^ 55) with 36028797018963968 in Hqr.
    destruct (Z.lt_ge_cases q' (7205759403792793 * P)) as [Hlt|]; [|lia].
    exfalso. assert (q' + 1 <= 7205759403792793 * P) as Hq1 by lia.
    assert (b * (q' + 1) <= b * (7205759403792793 * P)) as Hq2 by nia.
    nia.
  - assert (e' = da - db - 53) as Hed by (unfold e', fexp, emin in *; lia).
    assert (2 ^ 52 <= q') as Hbig.
    { assert (a * 2 ^ s >= 2 ^ 52 * 2 ^ db) as Hbig.
      { replace s with ((db - da) + 53) by lia.
        rewrite Z.pow_add_r by lia. change (2 ^ 53) with (2 * 2 ^ 52).
        assert (2 ^ db = 2 * 2 ^ (da - 1) * 2 ^ (db - da)) as ->.
        { rewrite <- Z.pow_succ_r, <- Z.pow_add_r by lia. f_equal. lia. }
        assert (0 < 2 ^ (db - da)) by (apply Z.pow_pos_nonneg; lia).
        nia. }
      destruct (Z.lt_ge_cases q' (2 ^ 52)) as [Hlt|]; [|lia].
      exfalso. assert (q' + 1 <= 2 ^ 52) as Hq1 by lia.
      assert (b * (q' + 1) <= b * 2 ^ 52) as Hq2 by nia.
      nia. }
    assert (2 <= 2 ^ (e' - -55)).
    { change 2 with (2 ^ 1) at 1. apply Z.pow_le_mono_r; lia. }
    change (2 ^ 52) with 4503599627370496 in Hbig. nia.
Qed.

Lemma truediv_ge_fifth a b :
  0 < a <= b -> b <= 5 * a ->
  exists q,
    Num.truediv a b = inr q
    /\ upper_bounded 1 0 q
    /\ lower_bounded 7205759403792793 (-55) q.
Proof.
  intros Ha Hb.
  destruct (truediv_le_one a b ltac:(lia) ltac:(lia)) as (q & Hq & Hup).
  exists q. split; [done|]. split; [done|].
  unfold Num.truediv in Hq.
  destruct (Z.eqb_spec b 0) as [|_]; [lia|].
  destruct (Z.eqb_spec a 0) as [|_]; [lia|].
  replace (a <? 0) with false in Hq by (symmetry; apply Z.ltb_ge; lia).
  replace (b <? 0) with false in Hq by (symmetry; apply Z.ltb_ge; lia).
  cbn [xorb] in Hq. rewrite !Z.abs_eq in Hq by lia.
  unfold Num.prec, Num.emax in Hq.
  destruct (SFdiv_core_binary 53 1024 a 0 b 0) as [[mq eq] lq] eqn:Hcore.
  pose proof (div_core_ge_fifth a b mq eq lq Ha Hb Hcore) as Hat.
  pose proof (round_ge 7205759403792793 (-55) mq eq lq ltac:(lia) ltac:(lia) Hat)
    as Hlow.
  destruct (binary_round_aux 53 1024 false mq eq lq) as [| | |]; try done;
    by injection Hq as <-.
Qed.

(** A float of at least the one just below one fifth is that float, or at
    least the float just above one fifth. *)
Lemma above_pred_fifth q :
  lower_bounded 7205759403792793 (-55) q ->
  q = S754_infinity false
  \/ q = S754_finite false 7205759403792793 (-55)
  \/ exists m e, q = S754_finite false m e /\ Zpos m < 2 ^ 53
                 /\ at_least 7205759403792794 (-55) (Zpos m) e.
Proof.
  intros [-> | (m & e & -> & Hm & H1 & H2)]; [by left|]. right.
  destruct (Z.le_gt_cases e (-55)) as [He|He].
  - specialize (H1 He).
    assert (e = -55) as ->.
    { destruct (Z.eq_dec e (-55)) as [|Hne]; [done|]. exfalso.
      assert (2 <= 2 ^ (-55 - e)).
      { change 2 with (2 ^ 1) at 1. apply Z.pow_le_mono_r; lia. }
      change (2 ^ 53) with 9007199254740992 in Hm. nia. }
    change (2 ^ (-55 - -55)) with 1 in H1.
    destruct (Z.eq_dec (Zpos m) 7205759403792793) as [Heq|Hne].
    + left. by injection Heq as ->.
    + right. exists m, (-55). split; [done|]. split; [done|].
      split; [intros _; change (2 ^ (-55 - -55)) with 1; lia | lia].
  - specialize (H2 He). right. exists m, e. split; [done|]. split; [done|].
    split; [lia|]. intros _.
    replace (e - -55) with (Z.succ (e - -55 - 1)) in * by lia.
    rewrite Z.pow_succ_r in * by lia. lia.
Qed.

Lemma fmul_hundred_ge m e :
  at_least 7205759403792794 (-55) (Zpos m) e ->
  lower_bounded 5629499534213120 (-48)
    (Num.fmul (S754_finite false m e) Num.hundred).
Proof.
  intros [H1 H2].
  unfold Num.fmul, Num.hundred, SFmul, Num.prec, Num.emax. cbn [xorb].
  apply round_ge; [lia | lia |].
  rewrite Pos2Z.inj_mul.
  split; intros He.
  - replace (-48 - (e + -46)) with (-2 - e) by lia.
    destruct (Z.le_gt_cases e (-55)) as [He55|He55].
    + specialize (H1 He55).
      replace (-2 - e) with (53 + (-55 - e)) by lia.
      rewrite Z.pow_add_r by lia.
      assert (0 < 2 ^ (-55 - e)) by (apply Z.pow_pos_nonneg; lia).
      change (2 ^ 53) with 9007199254740992. nia.
    + specialize (H2 He55).
      assert (2 ^ 53 = 2 ^ (-2 - e) * 2 ^ (e - -55)) as Hs.
      { rewrite <- Z.pow_add_r by lia. f_equal. lia. }
      assert (0 < 2 ^ (-2 - e)) by (apply Z.pow_pos_nonneg; lia).
      assert (0 < 2 ^ (e - -55)) by (apply Z.pow_pos_nonneg; lia).
      change (2 ^ 53) with 9007199254740992 in Hs.
      set (A := 2 ^ (-2 - e)) in *. set (B := 2 ^ (e - -55)) in *.
      assert (7205759403792794 * A <= Zpos m * B * A) by nia.
      nia.
  - assert (2 <= 2 ^ (e + -46 - -48)).
    { change 2 with (2 ^ 1) at 1. apply Z.pow_le_mono_r; lia. }
    nia.
Qed.

Lemma compare_cont_ge m n : Zpos n <= Zpos m -> Pos.compare_cont Eq m n <> Lt.
Proof.
  intros H. fold (Pos.compare m n). destruct (Pos.compare_spec m n); [done | lia | done].
Qed.

Lemma compare_cont_lt m n : Zpos m < Zpos n -> Pos.compare_cont Eq m n = Lt.
Proof.
  intros H. fold (Pos.compare m n). destruct (Pos.compare_spec m n); [lia | done | lia].
Qed.

Lemma lt_20_lower_bounded p :
  lower_bounded 5629499534213120 (-48) p -> SFltb p Num.twenty = false.
Proof.
  intros [-> | (m & e & -> & Hm & H1 & H2)]; [done|].
  unfold SFltb, SFcompare, Num.twenty.
  destruct (Z.compare_spec e (-48)) as [-> | Hlt | Hgt]; [| |done].
  - specialize (H1 ltac:(lia)). change (2 ^ (-48 - -48)) with 1 in H1.
    pose proof (compare_cont_ge m 5629499534213120 ltac:(lia)) as Hc.
    by destruct (Pos.compare_cont Eq m 5629499534213120).
  - exfalso. specialize (H1 ltac:(lia)).
    assert (2 <= 2 ^ (-48 - e)).
    { change 2 with (2 ^ 1) at 1. apply Z.pow_le_mono_r; lia. }
    change (2 ^ 53) with 9007199254740992 in Hm. nia.
Qed.

(** A share of at least one fifth is a percentage that is not below 20. *)
Lemma percentage_not_below_20 e m :
  0 < e <= m -> m <= 5 * e ->
  exists p, percentage_of e m = inr p /\ Num.lt_20 p = false.
Proof.
  intros He Hm. unfold percentage_of.
  destruct (Z.ltb_spec 0 m) as [_|]; [|lia].
  destruct (truediv_ge_fifth e m He Hm) as (q & -> & Hup & Hlow).
  cbn [mbind result_bind Return]. eexists. split; [done|]. cbn [Num.lt_20].
  destruct (above_pred_fifth q Hlow) as [-> | [-> | (mq & eq & -> & _ & Hat)]].
  - by destruct Hup as [|(? & ? & ? & _)].
  - vm_compute. reflexivity.
  - by apply lt_20_lower_bounded, fmul_hundred_ge.
Qed.

(** The quotient of [a / b] below one fifth, for [b] of at most 53 bits, is
    at most the third float below one fifth. *)
Lemma truediv_lt_fifth a b :
  0 <= a -> 5 * a < b -> b <= 2 ^ 52 ->
  exists q,
    Num.truediv a b = inr q /\ upper_bounded 7205759403792792 (-55) q.
Proof.
  intros Ha Hb Hb52. unfold Num.truediv.
  destruct (Z.eqb_spec b 0) as [|_]; [lia|].
  replace (a <? 0) with false by (symmetry; apply Z.ltb_ge; lia).
  replace (b <? 0) with false by (symmetry; apply Z.ltb_ge; lia).
  cbn [xorb].
  destruct (Z.eqb_spec a 0) as [->|Hne].
  { eexists. split; [done | by left]. }
  rewrite !Z.abs_eq by lia.
  unfold SFdiv_core_binary, Num.prec, Num.emax.
  destruct (Zdigits2_bounds a ltac:(lia)) as [[Halo Hahi] Hda].
  destruct (Zdigits2_bounds b ltac:(lia)) as [[Hblo Hbhi] Hdb].
  set (da := Zdigits2 a) in *. set (db := Zdigits2 b) in *.
  assert (3 <= db) as Hdb3.
  { destruct (Z.lt_ge_cases db 3) as [Hlt|]; [|done]. exfalso.
    assert (2 ^ db <= 2 ^ 2) by (apply Z.pow_le_mono_r; lia).
    change (2 ^ 2) with 4 in *. lia. }
  assert (da <= db - 2) as Hdab.
  { apply Zdigits2_le; [lia | lia |].
    assert (2 ^ db = 4 * 2 ^ (db - 2)) as Hs.
    { change 4 with (2 ^ 2). rewrite <- Z.pow_add_r by lia. f_equal. lia. }
    lia. }
  set (e' := Z.min (fexp 53 1024 (da + 0 - (db + 0))) (0 - 0)).
  assert (e' <= -55) as He' by (unfold e', fexp, emin; lia).
  assert (-1074 <= e') as He'' by (unfold e', fexp, emin; lia).
  set (s := 0 - 0 - e').
  rewrite (shiftl_scaled a s) by lia.
  pose proof (Z_div_mod (a * 2 ^ s) b ltac:(lia)) as Hdiv.
  destruct (Z.div_eucl (a * 2 ^ s) b) as [q r].
  destruct Hdiv as [Hqr Hr].
  assert (s = 55 + (-55 - e')) as Hs by lia.
  rewrite Hs, Z.pow_add_r in Hqr by lia.
  assert (0 < 2 ^ (-55 - e')) as HP by (apply Z.pow_pos_nonneg; lia).
  set (P := 2 ^ (-55 - e')) in *.
  change (2 ^ 55) with 36028797018963968 in Hqr.
  change (2 ^ 52) with 4503599627370496 in Hb52.
  assert (a * 36028797018963968 <= 7205759403792792 * b) as Hab by lia.
  assert (a * 36028797018963968 * P <= 7205759403792792 * b * P) as HabP by nia.
  assert (0 <= q) as Hq0.
  { destruct (Z.lt_ge_cases q 0) as [Hlt|]; [|lia]. exfalso.
    assert (b * q <= b * -1) by nia. nia. }
  assert (upper_bounded 7205759403792792 (-55)
            (binary_round_aux 53 1024 false q e' (new_location b r))) as Hbound.
  { apply round_le; try lia.
    - fold P.
      destruct (Z.le_gt_cases q (7205759403792792 * P)) as [|Hgt]; [done|].
      exfalso. assert (b * (7205759403792792 * P + 1) <= b * q) by nia. nia.
    - intros Hloc. fold P.
      assert (r <> 0) as Hr0.
      { intros ->. apply Hloc. unfold new_location, new_location_even, new_location_odd.
        by destruct (Z.even b). }
      destruct (Z.le_gt_cases (q + 1) (7205759403792792 * P)) as [|Hgt]; [done|].
      exfalso. assert (b * (7205759403792792 * P) <= b * q) by nia. nia. }
  destruct Hbound as [-> | (m & e & -> & Hb1 & Hb2)]; eexists; split; try done.
  - by left.
  - right. eauto.
Qed.

Lemma fmul_hundred_lt q :
  upper_bounded 7205759403792792 (-55) q ->
  upper_bounded 5629499534213119 (-48) (Num.fmul q Num.hundred).
Proof.
  intros [-> | (m & e & -> & He & Hm)]; [by left|].
  unfold Num.fmul, Num.hundred, SFmul, Num.prec, Num.emax. cbn [xorb].
  assert (0 < 2 ^ (-55 - e)) as Hpow by (apply Z.pow_pos_nonneg; lia).
  apply round_le; try lia.
  - replace (-48 - (e + -46)) with (53 + (-55 - e)) by lia.
    rewrite Z.pow_add_r by lia. change (2 ^ 53) with 9007199254740992.
    rewrite Pos2Z.inj_mul. nia.
  - done.
Qed.

Lemma lt_20_upper_bounded p :
  upper_bounded 5629499534213119 (-48) p -> SFltb p Num.twenty = true.
Proof.
  intros [-> | (m & e & -> & He & Hm)]; [done|].
  unfold SFltb, SFcompare, Num.twenty.
  destruct (Z.compare_spec e (-48)) as [-> | Hlt | Hgt]; [|done|lia].
  change (2 ^ (-48 - -48)) with 1 in Hm.
  by rewrite (compare_cont_lt m 5629499534213120) by lia.
Qed.

(** A share below one fifth of a maximum of at most [2 ^ 52] is a
    percentage below 20. *)
Lemma percentage_below_20 e m :
  0 <= e -> 5 * e < m -> m <= 2 ^ 52 ->
  exists p, percentage_of e m = inr p /\ Num.lt_20 p = true.
Proof.
  intros He Hm Hm52. unfold percentage_of.
  destruct (Z.ltb_spec 0 m) as [_|]; [|lia].
  destruct (truediv_lt_fifth e m He Hm Hm52) as (q & -> & Hup).
  cbn [mbind result_bind Return]. eexists. split; [done|]. cbn [Num.lt_20].
  by apply lt_20_upper_bounded, fmul_hundred_lt.
Qed.

Lemma classifier_reaches track all lang e ns m :
  In track all ->
  Forall (fun t => is_Some (tr_language t)) all ->
  tr_language track = Some (VStr lang) ->
  parses track e ->
  Forall2 parses (filter (fun t => tr_language t = Some (VStr lang)) all) ns ->
  is_maximum m ns ->
  e <= m
  /\ should_be_forced track all
     = match percentage_of e m with
       | inl x => (if caught x then inr false else inl x, track)
       | inr p => (inr ((e <? 400) || Num.lt_20 p), set_percentage p track)
       end.
Proof.
  intros Hin Hall Hlang He Hns Hm. split.
  - apply Hm. eapply Forall2_parses_In; [done | | done].
    apply list_elem_of_In, list_elem_of_filter.
    split; [done | by apply list_elem_of_In].
  - apply (should_be_forced_reaches track all lang e ns m); try done;
      [by apply element_count_of_parses | by apply Forall2_parses].
Qed.

(** X20.  The percentage test never marks a large share: a track of at
    least 400 elements that holds at least a fifth of the largest count of
    its language is not marked as forced, whatever the size of the counts. *)
Theorem large_share_is_never_forced track all lang e ns m :
  In track all ->
  Forall (fun t => is_Some (tr_language t)) all ->
  tr_language track = Some (VStr lang) ->
  parses track e ->
  Forall2 parses (filter (fun t => tr_language t = Some (VStr lang)) all) ns ->
  is_maximum m ns ->
  400 <= e -> m <= 5 * e ->
  fst (should_be_forced track all) = inr false.
Proof.
  intros Hin Hall Hlang He Hns Hm H400 Hshare.
  destruct (classifier_reaches track all lang e ns m) as [Hle ->]; try done.
  destruct (percentage_not_below_20 e m ltac:(lia) Hshare) as (p & -> & Hp).
  cbn [fst]. rewrite Hp.
  by replace (e <? 400) with false by (symmetry; apply Z.ltb_ge; lia).
Qed.

(** X21.  The classifier in integers: for a track of the list with a
    non-negative count [e] whose language group has the maximum
    [m <= 2 ^ 52], the float test "percentage < 20" is exactly [5 * e < m],
    so the track is marked as forced if and only if [e < 400] or
    [5 * e < m]. *)
Theorem forced_iff_below_400_or_below_a_fifth track all lang e ns m :
  In track all ->
  Forall (fun t => is_Some (tr_language t)) all ->
  tr_language track = Some (VStr lang) ->
  parses track e ->
  Forall2 parses (filter (fun t => tr_language t = Some (VStr lang)) all) ns ->
  is_maximum m ns ->
  0 <= e -> m <= 2 ^ 52 ->
  fst (should_be_forced track all) = inr ((e <? 400) || (5 * e <? m)).
Proof.
  intros Hin Hall Hlang He Hns Hm H0 H52.
  destruct (classifier_reaches track all lang e ns m) as [Hle ->]; try done.
  destruct (Z.ltb_spec (5 * e) m) as [Hlt|Hge].
  - destruct (percentage_below_20 e m H0 Hlt H52) as (p & -> & Hp).
    cbn [fst]. by rewrite Hp.
  - destruct (Z.eq_dec e 0) as [->|Hne].
    + assert (m = 0) as -> by lia. reflexivity.
    + destruct (percentage_not_below_20 e m ltac:(lia) Hge) as (p & -> & Hp).
      cbn [fst]. by rewrite Hp.
Qed.

Lemma large_share_is_never_forced_witness :
  fst (should_be_forced (sample_track "1" "de" "500")
         [sample_track "1" "de" "500"; sample_track "2" "de" "2500"])
  = inr false.
Proof.
  apply (large_share_is_never_forced
           (sample_track "1" "de" "500")
           [sample_track "1" "de" "500"; sample_track "2" "de" "2500"]
           "de" 500 [500; 2500] 2500).
  - left. reflexivity.
  - repeat constructor; eexists; reflexivity.
  - reflexivity.
  - solve_parses.
  - solve_all_parse.
  - split; [right; left; reflexivity | intros n [<- | [<- | []]]; lia].
  - lia.
  - lia.
Defined.

Lemma forced_iff_below_400_or_below_a_fifth_witness :
  fst (should_be_forced (sample_track "1" "de" "500")
         [sample_track "1" "de" "500"; sample_track "2" "de" "3000"])
  = inr true.
Proof.
  apply (forced_iff_below_400_or_below_a_fifth
           (sample_track "1" "de" "500")
           [sample_track "1" "de" "500"; sample_track "2" "de" "3000"]
           "de" 500 [500; 3000] 3000).
  - left. reflexivity.
  - repeat constructor; eexists; reflexivity.
  - reflexivity.
  - solve_parses.
  - solve_all_parse.
  - split; [right; left; reflexivity | intros n [<- | [<- | []]]; lia].
  - lia.
  - change (2 ^ 52) with 4503599627370496. lia.
Defined.
